(** * ADP routing logic: a shallow embedding of [adp_routing_logic.py]

    The router of the Agent Delegation Protocol demo keeps a registry of
    Narrow Models (NMs), one ordered pool of NM ids per domain and one
    round-robin cursor per domain.  This file embeds the class [ADPRouter]
    function by function and states the routing properties over it.

    Conventions of the embedding:
    - Python [int] is [Z]; Python [float] is the binary64 [float] of the
      kernel, with the operations of [PrimFloat];
    - a [dict] is a [gmap]; a Python [list] is a [list];
    - [time.time()], [random.random()] and the integer draw behind
      [random.choice] are read from an environment stream, one cell per call;
    - a Python exception is the [Raise] outcome of the monad [M]; it
      carries the state the raising call leaves behind. *)

From Stdlib Require Import Floats.PrimFloat.
From Stdlib Require Import ZArith String.
From Stdlib Require Floats.SpecFloat Floats.FloatOps.
From stdpp Require Import gmap strings list.

Local Open Scope Z_scope.

(* Decimal literals such as 0.05 denote the nearest binary64 value, as in
   Python. *)
Set Warnings "-inexact-float".

(** ** Enumerations and records *)

Inductive NMStatus := HEALTHY | DEGRADED | UNAVAILABLE.

Inductive Domain := MEDICAL | CARDIOLOGY | CANCER | NEUROLOGY | AI_COMPLIANCE.

#[global] Instance NMStatus_eq_dec : EqDecision NMStatus.
Proof. solve_decision. Defined.

#[global] Instance Domain_eq_dec : EqDecision Domain.
Proof. solve_decision. Defined.

Definition Domain_to_nat (d : Domain) : nat :=
  match d with
  | MEDICAL => 0 | CARDIOLOGY => 1 | CANCER => 2
  | NEUROLOGY => 3 | AI_COMPLIANCE => 4
  end%nat.

Definition Domain_of_nat (n : nat) : Domain :=
  match n with
  | 0 => MEDICAL | 1 => CARDIOLOGY | 2 => CANCER
  | 3 => NEUROLOGY | _ => AI_COMPLIANCE
  end%nat.

#[global] Instance Domain_countable : Countable Domain.
Proof.
  apply (inj_countable' Domain_to_nat Domain_of_nat).
  intros []; reflexivity.
Defined.

(** [Domain.value] *)
Definition Domain_value (d : Domain) : string :=
  match d with
  | MEDICAL => "medical"
  | CARDIOLOGY => "cardiology"
  | CANCER => "cancer"
  | NEUROLOGY => "neurology"
  | AI_COMPLIANCE => "ai_compliance"
  end.

(** [for domain in Domain]: the members in definition order. *)
Definition all_domains : list Domain :=
  [MEDICAL; CARDIOLOGY; CANCER; NEUROLOGY; AI_COMPLIANCE].

Record NarrowModel := mkNM {
  nm_id : string;
  nm_domain : Domain;
  endpoint : string;
  capabilities : list string;
  weight : float;
  status : NMStatus;
  response_time_avg : float;
  accuracy_score : float;
  last_health_check : float;
  current_load : Z;
  max_concurrent : Z
}.

Record RoutingRequest := mkReq {
  message_id : string;
  req_domain : Domain;
  priority : string;
  preferred_nm_id : option string;
  require_validation : bool
}.

(** The dictionary returned by [route_request]; the keys ["error"] and
    ["total_available"] are present on some paths only. *)
Record RoutingDecision := mkDecision {
  primary : option string;
  validation : list string;
  routing_method : string;
  error : option string;
  total_available : option nat
}.

Record ADPRouter := mkRouter {
  nm_registry : gmap string NarrowModel;
  domain_pools : gmap Domain (list string);
  round_robin_indices : gmap Domain Z;
  health_check_interval : float
}.

(** [ADPRouter.__init__] *)
Definition new_router : ADPRouter :=
  {| nm_registry := ∅; domain_pools := ∅; round_robin_indices := ∅;
     health_check_interval := 30%float |}.

(** Field updates of the mutable objects. *)
Definition set_status (s : NMStatus) (nm : NarrowModel) : NarrowModel :=
  mkNM (nm_id nm) (nm_domain nm) (endpoint nm) (capabilities nm) (weight nm)
       s (response_time_avg nm) (accuracy_score nm) (last_health_check nm)
       (current_load nm) (max_concurrent nm).

Definition set_last_health_check (t : float) (nm : NarrowModel) : NarrowModel :=
  mkNM (nm_id nm) (nm_domain nm) (endpoint nm) (capabilities nm) (weight nm)
       (status nm) (response_time_avg nm) (accuracy_score nm) t
       (current_load nm) (max_concurrent nm).

Definition set_current_load (n : Z) (nm : NarrowModel) : NarrowModel :=
  mkNM (nm_id nm) (nm_domain nm) (endpoint nm) (capabilities nm) (weight nm)
       (status nm) (response_time_avg nm) (accuracy_score nm)
       (last_health_check nm) n (max_concurrent nm).

Definition set_registry (reg : gmap string NarrowModel) (r : ADPRouter) : ADPRouter :=
  mkRouter reg (domain_pools r) (round_robin_indices r) (health_check_interval r).

Definition set_pools (p : gmap Domain (list string)) (r : ADPRouter) : ADPRouter :=
  mkRouter (nm_registry r) p (round_robin_indices r) (health_check_interval r).

Definition set_indices (ix : gmap Domain Z) (r : ADPRouter) : ADPRouter :=
  mkRouter (nm_registry r) (domain_pools r) ix (health_check_interval r).

(** ** Outcomes, environment and the routing monad *)

Inductive PyExn :=
  | KeyError | IndexError | ZeroDivisionError | OverflowError
  | FuelExhausted.

(** A value, or an exception with what the computation leaves behind:
    nothing ([unit]) for a pure computation, the world for a method. *)
Inductive Result (S A : Type) :=
  | Ok (a : A)
  | Raise (e : PyExn) (s : S).
Arguments Ok {S A} a.
Arguments Raise {S A} e s.

(** What the process reads from outside: the clock, the unit-interval
    generator and the raw integer generator, each indexed by the number of
    reads made so far. *)
Record Env := mkEnv {
  time_at : nat -> float;
  random_at : nat -> float;
  randbits_at : nat -> nat
}.

Record World := mkWorld {
  router : ADPRouter;
  env : Env;
  tick : nat
}.

Definition M (A : Type) : Type := World -> Result World (A * World).

Definition ret {A} (a : A) : M A := fun w => Ok (a, w).

Definition bind {A B} (m : M A) (k : A -> M B) : M B :=
  fun w => match m w with
           | Ok (a, w') => k a w'
           | Raise e w' => Raise e w'
           end.

Definition raise {A} (e : PyExn) : M A := fun w => Raise e w.

Notation "x <~ c ;; k" := (bind c (fun x => k))
  (at level 100, c at next level, right associativity).
Notation "c ;;; k" := (bind c (fun _ => k))
  (at level 100, right associativity).

Definition get_router : M ADPRouter := fun w => Ok (router w, w).

Definition put_router (r : ADPRouter) : M unit :=
  fun w => Ok (tt, mkWorld r (env w) (tick w)).

Definition lift_result {A} (x : Result unit A) : M A :=
  fun w => match x with Ok a => Ok (a, w) | Raise e _ => Raise e w end.

(** [time.time()] *)
Definition time_time : M float :=
  fun w => Ok (time_at (env w) (tick w), mkWorld (router w) (env w) (S (tick w))).

(** [random.random()] *)
Definition random_random : M float :=
  fun w => Ok (random_at (env w) (tick w), mkWorld (router w) (env w) (S (tick w))).

(** [random._randbelow(n)] for [n > 0] *)
Definition randbelow (n : nat) : M nat :=
  fun w => Ok ((randbits_at (env w) (tick w) `mod` n)%nat,
               mkWorld (router w) (env w) (S (tick w))).

(** ** Python arithmetic on the two number types *)

Definition Z_to_SF (z : Z) : SpecFloat.spec_float :=
  match z with
  | Z0 => SpecFloat.S754_zero false
  | Zpos p => SpecFloat.S754_finite false p 0
  | Zneg p => SpecFloat.S754_finite true p 0
  end.

(** [a / b] on two [int]s: the correctly rounded quotient,
    [ZeroDivisionError] on a zero divisor, [OverflowError] when the quotient
    is out of the binary64 range. *)
Definition py_truediv (a b : Z) : Result unit float :=
  if decide (b = 0) then Raise ZeroDivisionError tt
  else
    match SpecFloat.SFdiv FloatOps.prec FloatOps.emax (Z_to_SF a) (Z_to_SF b) with
    | SpecFloat.S754_infinity _ => Raise OverflowError tt
    | q => Ok (FloatOps.SF2Prim q)
    end.

(** [min(a, b)] and [max(a, b)]: the first argument unless the second is
    strictly better. *)
Definition py_min (a b : float) : float := if (b <? a)%float then b else a.
Definition py_max (a b : float) : float := if (a <? b)%float then b else a.

(** [sum(...)] of floats, from the integer [0], added from left to right
    (CPython from 3.12 on also compensates the rounding error of the sum). *)
Definition py_sum (ws : list float) : float :=
  fold_left PrimFloat.add ws 0%float.

(** Truth value of an [Optional[str]]: [None] and the empty string are false. *)
Definition truthy (o : option string) : bool :=
  match o with
  | None => false
  | Some s => negb (String.eqb s "")
  end.

(** [x in l] for a list of ids *)
Definition mem (x : string) (l : list string) : bool := bool_decide (x ∈ l).

(** [l.remove(x)]: drops the first occurrence. *)
Fixpoint list_remove (x : string) (l : list string) : list string :=
  match l with
  | [] => []
  | y :: l' => if decide (x = y) then l' else y :: list_remove x l'
  end.

(** [l[i]] with Python's negative indices and [IndexError]. *)
Definition py_index {A} (l : list A) (i : Z) : Result unit A :=
  let n := Z.of_nat (length l) in
  let j := if decide (i < 0) then i + n else i in
  if decide (0 <= j < n) then
    match l !! Z.to_nat j with
    | Some x => Ok x
    | None => Raise IndexError tt
    end
  else Raise IndexError tt.

(** ** The router's methods *)

(** [self.nm_registry[nm_id]] *)
Definition registry_get (nm_id : string) : M NarrowModel :=
  fun w => match nm_registry (router w) !! nm_id with
           | Some nm => Ok (nm, w)
           | None => Raise KeyError w
           end.

(** Assignment to fields of the registered object [self.nm_registry[nm_id]]. *)
Definition registry_update (nm_id : string) (f : NarrowModel -> NarrowModel) : M unit :=
  nm <~ registry_get nm_id ;;
  r <~ get_router ;;
  put_router (set_registry (<[nm_id := f nm]> (nm_registry r)) r).

(** A value used as a registry key: [None] is never a key. *)
Definition as_key (o : option string) : M string :=
  match o with
  | Some k => ret k
  | None => raise KeyError
  end.

Definition register_nm (nm : NarrowModel) : M bool :=
  r <~ get_router ;;
  put_router (set_registry (<[nm_id nm := nm]> (nm_registry r)) r) ;;;
  r <~ get_router ;;
  (match domain_pools r !! nm_domain nm with
   | None =>
       put_router
         (set_indices (<[nm_domain nm := 0]> (round_robin_indices r))
            (set_pools (<[nm_domain nm := []]> (domain_pools r)) r))
   | Some _ => ret tt
   end) ;;;
  r <~ get_router ;;
  match domain_pools r !! nm_domain nm with
  | None => raise KeyError
  | Some pool =>
      (if mem (nm_id nm) pool then ret tt
       else put_router
              (set_pools (<[nm_domain nm := pool ++ [nm_id nm]]> (domain_pools r)) r)) ;;;
      ret true
  end.

Definition perform_health_check (nm_id : string) : M bool :=
  r <~ get_router ;;
  match nm_registry r !! nm_id with
  | None => ret false
  | Some nm =>
      current_time <~ time_time ;;
      u <~ random_random ;;
      let is_healthy := (0.05 <? u)%float in
      let st :=
        if is_healthy && bool_decide (current_load nm < max_concurrent nm) then HEALTHY
        else if is_healthy && bool_decide (current_load nm >= max_concurrent nm) then DEGRADED
        else UNAVAILABLE in
      registry_update nm_id (set_status st) ;;;
      registry_update nm_id (set_last_health_check current_time) ;;;
      nm' <~ registry_get nm_id ;;
      ret (bool_decide (status nm' = HEALTHY))
  end.

(** [status in [NMStatus.HEALTHY, NMStatus.DEGRADED]] *)
Definition routable (s : NMStatus) : bool :=
  match s with
  | HEALTHY | DEGRADED => true
  | UNAVAILABLE => false
  end.

(** The [for] loop of [get_healthy_nms_in_domain]. *)
Fixpoint healthy_loop (pool healthy_nms : list string) : M (list string) :=
  match pool with
  | [] => ret healthy_nms
  | nm_id :: rest =>
      r <~ get_router ;;
      match nm_registry r !! nm_id with
      | None => healthy_loop rest healthy_nms
      | Some nm =>
          now <~ time_time ;;
          (if (health_check_interval r <? now - last_health_check nm)%float
           then perform_health_check nm_id
           else ret false) ;;;
          nm' <~ registry_get nm_id ;;
          if routable (status nm')
          then healthy_loop rest (healthy_nms ++ [nm_id])
          else healthy_loop rest healthy_nms
      end
  end.

Definition get_healthy_nms_in_domain (domain : Domain) : M (list string) :=
  r <~ get_router ;;
  match domain_pools r !! domain with
  | None => ret []
  | Some pool => healthy_loop pool []
  end.

(** The body of the first loop of [calculate_weighted_selection]: the
    effective weight of one NM. *)
Definition effective_weight (nm : NarrowModel) : Result unit float :=
  let total_weight := weight nm in
  let total_weight :=
    if (0 <? response_time_avg nm)%float
    then (total_weight * py_min 1 (1000 / response_time_avg nm))%float
    else total_weight in
  let total_weight := (total_weight * accuracy_score nm)%float in
  match py_truediv (current_load nm) (max_concurrent nm) with
  | Raise e u => Raise e u
  | Ok q =>
      let load_factor := py_max 0.1 (1 - q)%float in
      let total_weight := (total_weight * load_factor)%float in
      Ok (if decide (status nm = DEGRADED)
          then (total_weight * 0.5)%float
          else total_weight)
  end.

Fixpoint weigh_candidates (reg : gmap string NarrowModel) (nm_ids : list string)
  : Result unit (list (string * float)) :=
  match nm_ids with
  | [] => Ok []
  | nm_id :: rest =>
      match reg !! nm_id with
      | None => Raise KeyError tt
      | Some nm =>
          match effective_weight nm with
          | Raise e u => Raise e u
          | Ok wt =>
              match weigh_candidates reg rest with
              | Raise e u => Raise e u
              | Ok wc => Ok ((nm_id, wt) :: wc)
              end
          end
      end
  end.

(** The second loop: the first candidate whose cumulative weight reaches
    the draw. *)
Fixpoint pick_cumulative (random_value cumulative : float)
    (weighted_candidates : list (string * float)) : option string :=
  match weighted_candidates with
  | [] => None
  | (nm_id, wt) :: rest =>
      let cumulative := (cumulative + wt)%float in
      if (random_value <=? cumulative)%float then Some nm_id
      else pick_cumulative random_value cumulative rest
  end.

(** [random.choice(seq)] *)
Definition random_choice (seq : list string) : M string :=
  i <~ randbelow (length seq) ;;
  lift_result (py_index seq (Z.of_nat i)).

(** [random.uniform(a, b)] *)
Definition random_uniform (a b : float) : M float :=
  u <~ random_random ;;
  ret (a + (b - a) * u)%float.

Definition calculate_weighted_selection (nm_ids : list string) : M (option string) :=
  match nm_ids with
  | [] => ret None
  | _ =>
      r <~ get_router ;;
      weighted_candidates <~ lift_result (weigh_candidates (nm_registry r) nm_ids) ;;
      let total_weight := py_sum (map snd weighted_candidates) in
      if (total_weight =? 0)%float then
        x <~ random_choice nm_ids ;;
        ret (Some x)
      else
        random_value <~ random_uniform 0 total_weight ;;
        match pick_cumulative random_value 0 weighted_candidates with
        | Some nm_id => ret (Some nm_id)
        | None =>
            last <~ lift_result (py_index weighted_candidates (-1)) ;;
            ret (Some (fst last))
        end
  end.

Definition round_robin_selection (nm_ids : list string) (domain : Domain)
  : M (option string) :=
  match nm_ids with
  | [] => ret None
  | _ =>
      r <~ get_router ;;
      let current_index := default 0 (round_robin_indices r !! domain) in
      let current_index :=
        if decide (current_index >= Z.of_nat (length nm_ids)) then 0
        else current_index in
      selected_nm <~ lift_result (py_index nm_ids current_index) ;;
      put_router
        (set_indices
           (<[domain := (current_index + 1) `mod` Z.of_nat (length nm_ids)]>
              (round_robin_indices r)) r) ;;;
      ret (Some selected_nm)
  end.

(** The [while] loop of [_select_validation_nms].  Every iteration that
    continues makes [validators] one longer, so [max_validators] rounds of
    [fuel] are enough (lemma [validation_loop_spec]). *)
Fixpoint validation_loop (fuel max_validators : nat)
    (candidates validators : list string) : M (list string) :=
  if decide (length validators < Nat.min max_validators (length candidates))%nat then
    match fuel with
    | O => raise FuelExhausted
    | S fuel' =>
        validator <~ calculate_weighted_selection candidates ;;
        match validator with
        | Some v =>
            if truthy validator && negb (mem v validators)
            then validation_loop fuel' max_validators
                   (list_remove v candidates) (validators ++ [v])
            else ret validators
        | None => ret validators
        end
    end
  else ret validators.

Definition _select_validation_nms (request : RoutingRequest)
    (exclude : list (option string)) (max_validators : nat) : M (list string) :=
  available_nms <~ get_healthy_nms_in_domain (req_domain request) ;;
  let candidates :=
    filter (fun nm_id => Some nm_id ∉ exclude) available_nms in
  match candidates with
  | [] => ret []
  | _ => validation_loop max_validators max_validators candidates []
  end.

(** [self.nm_registry[nm_id].current_load += 1] *)
Definition increment_load (nm_id : string) : M unit :=
  registry_update nm_id (fun nm => set_current_load (current_load nm + 1) nm).

(** The [for val_nm in validation_nms] loop of [route_request]. *)
Fixpoint increment_validators (validation_nms : list string) : M unit :=
  match validation_nms with
  | [] => ret tt
  | val_nm :: rest =>
      r <~ get_router ;;
      (match nm_registry r !! val_nm with
       | Some _ => increment_load val_nm
       | None => ret tt
       end) ;;;
      increment_validators rest
  end.

(** The guard of the preferred-NM shortcut of [route_request]. *)
Definition preferred_usable (r : ADPRouter) (request : RoutingRequest)
  : option string :=
  match preferred_nm_id request with
  | None => None
  | Some p =>
      if truthy (Some p) then
        match nm_registry r !! p with
        | None => None
        | Some nm => if routable (status nm) then Some p else None
        end
      else None
  end.

(** Primary selection by priority; returns the primary and the method tag. *)
Definition select_primary (request : RoutingRequest) (available_nms : list string)
  : M (option string * string) :=
  if String.eqb (priority request) "urgent" then
    primary_nm <~ calculate_weighted_selection available_nms ;;
    ret (primary_nm, "weighted_urgent")
  else if String.eqb (priority request) "high" then
    rr_candidate <~ round_robin_selection available_nms (req_domain request) ;;
    weighted_candidate <~ calculate_weighted_selection available_nms ;;
    rr_key <~ as_key rr_candidate ;;
    top_candidates <~
      (if decide (weighted_candidate ≠ rr_candidate)
       then (w_key <~ as_key weighted_candidate ;; ret [rr_key; w_key])
       else ret [rr_key]) ;;
    primary_nm <~ calculate_weighted_selection top_candidates ;;
    ret (primary_nm, "hybrid_high")
  else
    primary_nm <~ round_robin_selection available_nms (req_domain request) ;;
    ret (primary_nm, "round_robin_normal").

Definition route_request (request : RoutingRequest) : M RoutingDecision :=
  r <~ get_router ;;
  match preferred_usable r request with
  | Some p =>
      if require_validation request then
        backup_nms <~ _select_validation_nms request [Some p] 2 ;;
        ret {| primary := Some p; validation := backup_nms;
               routing_method := "preferred_with_validation";
               error := None; total_available := None |}
      else
        ret {| primary := Some p; validation := [];
               routing_method := "preferred_only";
               error := None; total_available := None |}
  | None =>
      available_nms <~ get_healthy_nms_in_domain (req_domain request) ;;
      match available_nms with
      | [] =>
          ret {| primary := None; validation := [];
                 routing_method := "no_available_nms";
                 error := Some ("No healthy NMs available in domain "
                                  +:+ Domain_value (req_domain request));
                 total_available := None |}
      | _ =>
          sel <~ select_primary request available_nms ;;
          let primary_nm := fst sel in
          let routing_method := snd sel in
          validation_nms <~
            (if require_validation request
             then _select_validation_nms request [primary_nm] 2
             else ret []) ;;
          (if truthy primary_nm
           then (k <~ as_key primary_nm ;; increment_load k)
           else ret tt) ;;;
          increment_validators validation_nms ;;;
          ret {| primary := primary_nm; validation := validation_nms;
                 routing_method := routing_method;
                 error := None;
                 total_available := Some (length available_nms) |}
      end
  end.

Definition complete_request (nm_id : string) : M unit :=
  r <~ get_router ;;
  match nm_registry r !! nm_id with
  | Some nm =>
      registry_update nm_id (set_current_load (Z.max 0 (current_load nm - 1)))
  | None => ret tt
  end.

(** Python numbers that may be an [int] or a [float]. *)
Inductive pynum :=
  | PyInt (z : Z)
  | PyFloat (f : float).

Record DomainStats := mkDomainStats {
  ds_total : nat;
  ds_healthy : nat;
  ds_degraded : nat;
  ds_unavailable : nat
}.

Record RoutingStats := mkStats {
  total_nms : nat;
  domains : list (string * DomainStats);
  overall_health : pynum
}.

(** [sum(1 for nm_id in domain_nms if nm_id in self.nm_registry and
    self.nm_registry[nm_id].status == s)] *)
Definition count_status (reg : gmap string NarrowModel) (s : NMStatus)
    (domain_nms : list string) : nat :=
  length (filter (fun nm_id => status <$> reg !! nm_id = Some s) domain_nms).

(** One round of the [for domain in Domain] loop. *)
Definition domain_stats (r : ADPRouter) (domain : Domain) : DomainStats :=
  let domain_nms := default [] (domain_pools r !! domain) in
  {| ds_total := length domain_nms;
     ds_healthy := count_status (nm_registry r) HEALTHY domain_nms;
     ds_degraded := count_status (nm_registry r) DEGRADED domain_nms;
     ds_unavailable := count_status (nm_registry r) UNAVAILABLE domain_nms |}.

Definition get_routing_stats : M RoutingStats :=
  r <~ get_router ;;
  let per_domain := map (fun d => (d, domain_stats r d)) all_domains in
  let healthy_count :=
    fold_left (fun acc ds => (acc + ds_healthy (snd ds))%nat) per_domain 0%nat in
  overall <~
    (if decide (0 < size (nm_registry r))%nat
     then (q <~ lift_result (py_truediv (Z.of_nat healthy_count)
                               (Z.of_nat (size (nm_registry r)))) ;;
           ret (PyFloat q))
     else ret (PyInt 0)) ;;
  ret {| total_nms := size (nm_registry r);
         domains := map (fun ds => (Domain_value (fst ds), snd ds)) per_domain;
         overall_health := overall |}.

(** ** Runs of the router *)

(** One call of a public method, its result dropped. *)
Inductive Call :=
  | CallRegister (nm : NarrowModel)
  | CallHealthCheck (nm_id : string)
  | CallHealthy (domain : Domain)
  | CallWeighted (nm_ids : list string)
  | CallRoundRobin (nm_ids : list string) (domain : Domain)
  | CallRoute (request : RoutingRequest)
  | CallComplete (nm_id : string)
  | CallStats.

Definition run_call (c : Call) : M unit :=
  match c with
  | CallRegister nm => register_nm nm ;;; ret tt
  | CallHealthCheck nm_id => perform_health_check nm_id ;;; ret tt
  | CallHealthy domain => get_healthy_nms_in_domain domain ;;; ret tt
  | CallWeighted nm_ids => calculate_weighted_selection nm_ids ;;; ret tt
  | CallRoundRobin nm_ids domain => round_robin_selection nm_ids domain ;;; ret tt
  | CallRoute request => route_request request ;;; ret tt
  | CallComplete nm_id => complete_request nm_id
  | CallStats => get_routing_stats ;;; ret tt
  end.

(** States a fresh router reaches through calls, whether they return or
    raise. *)
Inductive reachable : World -> Prop :=
  | reachable_new (e : Env) : reachable (mkWorld new_router e 0)
  | reachable_call (c : Call) (w w' : World) :
      reachable w -> run_call c w = Ok (tt, w') -> reachable w'
  | reachable_raise (c : Call) (e : PyExn) (w w' : World) :
      reachable w -> run_call c w = Raise e w' -> reachable w'.

(** ** Notions used in the statements *)

(** The world after one read of the environment. *)
Definition next_tick (w : World) : World :=
  mkWorld (router w) (env w) (S (tick w)).

(** The load ratio [current_load / max_concurrent] of an NM is a float:
    [max_concurrent] is not zero and the quotient is in range. *)
Definition load_ratio_defined (nm : NarrowModel) : Prop :=
  exists q, py_truediv (current_load nm) (max_concurrent nm) = Ok q.

#[global] Instance load_ratio_defined_dec nm : Decision (load_ratio_defined nm).
Proof.
  unfold load_ratio_defined.
  destruct (py_truediv (current_load nm) (max_concurrent nm)) as [q|e].
  - left. exists q. reflexivity.
  - right. intros [q H]. discriminate.
Defined.

(** The bounds of the data model that matter for the ratio: a capacity
    other than 0 and a load of magnitude below [2 ^ 1023]. *)
Definition bounded_load (nm : NarrowModel) : Prop :=
  max_concurrent nm <> 0 /\ Z.abs (current_load nm) < 2 ^ 1023.

(** Every id of the list is registered with a defined load ratio. *)
Definition weighable (reg : gmap string NarrowModel) (nm_ids : list string) : Prop :=
  forall x, x ∈ nm_ids -> exists nm, reg !! x = Some nm /\ load_ratio_defined nm.

(** The stored cursor of a domain, as [round_robin_indices.get(domain, 0)]. *)
Definition cursor (w : World) (d : Domain) : Z :=
  default 0 (round_robin_indices (router w) !! d).

(** The world after the cursor of [d] has been set to [c]. *)
Definition with_cursor (w : World) (d : Domain) (c : Z) : World :=
  mkWorld (set_indices (<[d := c]> (round_robin_indices (router w))) (router w))
          (env w) (tick w).

(** Any number of round-robin calls, all for domains other than [d]. *)
Inductive other_domain_calls (d : Domain) : World -> World -> Prop :=
  | other_calls_none (w : World) : other_domain_calls d w w
  | other_calls_more (nm_ids : list string) (d' : Domain) (o : option string)
      (w w' w'' : World) :
      d' <> d ->
      round_robin_selection nm_ids d' w = Ok (o, w') ->
      other_domain_calls d w' w'' ->
      other_domain_calls d w w''.

(** ** Example states *)

(** A clock at 100 s, a generator that always draws 0.5 and raw bits 0. *)
Definition demo_env : Env :=
  mkEnv (fun _ => 100%float) (fun _ => 0.5%float) (fun _ => 0%nat).

Definition med_general_01 : NarrowModel :=
  mkNM "med-general-01" MEDICAL "https://medical-nm2.example.com"
       ["general_medicine"; "triage"] 0.7 HEALTHY 600 0.88 0 0 10.

Definition med_general_02 : NarrowModel :=
  mkNM "med-general-02" MEDICAL "https://medical-nm5.example.com"
       ["general_medicine"] 0.9 HEALTHY 800 0.95 0 3 10.

Definition med_general_03 : NarrowModel :=
  mkNM "med-general-03" MEDICAL "https://medical-nm6.example.com"
       ["triage"] 0.8 DEGRADED 1200 0.97 0 1 10.

(** An NM whose configured weight is 0: its effective weight is 0. *)
Definition med_idle_01 : NarrowModel :=
  mkNM "med-idle-01" NEUROLOGY "https://medical-nm7.example.com"
       [] 0 HEALTHY 700 0.94 0 0 10.

Definition med_idle_02 : NarrowModel :=
  mkNM "med-idle-02" NEUROLOGY "https://medical-nm8.example.com"
       [] 0 HEALTHY 700 0.94 0 0 10.

Definition med_cardio_01 : NarrowModel :=
  mkNM "med-cardio-01" CARDIOLOGY "https://medical-nm1.example.com"
       ["cardiology"; "diagnostics"] 0.9 HEALTHY 800 0.95 0 3 10.

(** The world a list of registrations leads to, from a fresh router. *)
Definition world_of (e : Env) (nms : list NarrowModel) : World :=
  fold_left
    (fun w nm => match register_nm nm w with
                 | Ok (_, w') => w'
                 | Raise _ w' => w'
                 end)
    nms (mkWorld new_router e 0).

Definition demo_world : World :=
  world_of demo_env
    [med_general_01; med_general_02; med_general_03; med_cardio_01;
     med_idle_01; med_idle_02].

(** The same pool with raw bits 1 instead of 0. *)
Definition demo_world_bits1 : World :=
  mkWorld (router demo_world)
          (mkEnv (fun _ => 100%float) (fun _ => 0.5%float) (fun _ => 1%nat)) 0.

(** ** What a health refresh may change *)

(** An NM with its health fields blanked: what no health check touches. *)
Definition forget_health (nm : NarrowModel) : NarrowModel :=
  set_last_health_check 0 (set_status HEALTHY nm).

Definition forget_router_health (r : ADPRouter) : ADPRouter :=
  set_registry (forget_health <$> nm_registry r) r.

(** [r'] differs from [r] at most in the [status] and [last_health_check]
    of registered NMs. *)
Definition refreshed (r r' : ADPRouter) : Prop :=
  forget_router_health r' = forget_router_health r.

(** The load of a registered NM, [None] for an unknown id. *)
Definition load_of (r : ADPRouter) (nm_id : string) : option Z :=
  current_load <$> nm_registry r !! nm_id.

(** Every registered NM has a defined load ratio. *)
Definition ratios_defined (r : ADPRouter) : Prop :=
  forall nm_id nm, nm_registry r !! nm_id = Some nm -> load_ratio_defined nm.

(** ** What routing may change *)

(** An NM with load and health fields blanked: its configuration. *)
Definition forget_dynamic (nm : NarrowModel) : NarrowModel :=
  set_current_load 0 (forget_health nm).

Definition forget_router_dynamic (r : ADPRouter) : ADPRouter :=
  set_indices ∅ (set_registry (forget_dynamic <$> nm_registry r) r).

(** [r'] has the pools, the registered ids and the configuration of [r];
    loads, health fields and cursors may differ. *)
Definition same_static (r r' : ADPRouter) : Prop :=
  forget_router_dynamic r' = forget_router_dynamic r.

(** No stored cursor is negative. *)
Definition cursors_nonneg (r : ADPRouter) : Prop :=
  forall d c, round_robin_indices r !! d = Some c -> 0 <= c.

(** Every id of every pool is a key of the registry. *)
Definition pools_registered (r : ADPRouter) : Prop :=
  forall d pool nm_id,
    domain_pools r !! d = Some pool -> nm_id ∈ pool ->
    is_Some (nm_registry r !! nm_id).

(** Outcome predicate: [m] run from [w] either returns a value and a world
    satisfying [Q], or raises an exception and leaves a world satisfying
    [E]. *)
Definition wp {A} (m : M A) (w : World)
    (Q : A -> World -> Prop) (E : PyExn -> World -> Prop) : Prop :=
  match m w with
  | Ok (a, w') => Q a w'
  | Raise e w' => E e w'
  end.

(** How much [route_request] is to add to the load of [nm_id] for the
    decision [d]: one for a primary that passes the truth test of the load
    update, one for a validator. *)
Definition bumps (d : RoutingDecision) (nm_id : string) : Z :=
  (if truthy (primary d) && bool_decide (primary d = Some nm_id) then 1 else 0)
  + (if bool_decide (nm_id ∈ validation d) then 1 else 0).

(** The pool of a domain, empty for a domain without pool. *)
Definition pool_of (r : ADPRouter) (d : Domain) : list string :=
  default [] (domain_pools r !! d).

(** What holds of a decision [d] and of the world [w'] after
    [route_request request] has returned from [w]. *)
Definition route_post (request : RoutingRequest) (w : World)
    (d : RoutingDecision) (w' : World) : Prop :=
  env w' = env w /\
  same_static (router w) (router w') /\
  (cursors_nonneg (router w) -> cursors_nonneg (router w')) /\
  NoDup (validation d) /\
  (length (validation d) <= 2)%nat /\
  (forall v, v ∈ validation d ->
     primary d <> Some v /\
     v ∈ pool_of (router w) (req_domain request) /\
     is_Some (nm_registry (router w) !! v)) /\
  match preferred_usable (router w) request with
  | Some p =>
      primary d = Some p /\
      forall nm_id, load_of (router w') nm_id = load_of (router w) nm_id
  | None =>
      (forall p, primary d = Some p ->
         p ∈ pool_of (router w) (req_domain request) /\
         is_Some (nm_registry (router w) !! p)) /\
      forall nm_id,
        load_of (router w') nm_id
        = (fun n => n + bumps d nm_id) <$> load_of (router w) nm_id
  end.

(** When [route_request] may raise: some registered NM has no load ratio,
    or the cursor of the domain is negative.  What it leaves behind then:
    the configuration and the loads as they were. *)
Definition route_exn (request : RoutingRequest) (w : World)
    (e : PyExn) (w' : World) : Prop :=
  e <> FuelExhausted /\
  (~ ratios_defined (router w) \/ cursor w (req_domain request) < 0) /\
  env w' = env w /\
  same_static (router w) (router w') /\
  (cursors_nonneg (router w) -> cursors_nonneg (router w')) /\
  forall nm_id, load_of (router w') nm_id = load_of (router w) nm_id.

(** The request with another priority. *)
Definition with_priority (p : string) (request : RoutingRequest) : RoutingRequest :=
  mkReq (message_id request) (req_domain request) p
        (preferred_nm_id request) (require_validation request).

(** An Unavailable NM whose last health check is older than the interval. *)
Definition med_cancer_01 : NarrowModel :=
  mkNM "med-cancer-01" CANCER "https://medical-nm3.example.com"
       ["cancer"; "research"] 0.8 UNAVAILABLE 1200 0.97 0 0 10.

Definition outage_world : World := world_of demo_env [med_cancer_01].

(** An Unavailable NM checked 10 s before the clock of [demo_env]. *)
Definition med_cancer_02 : NarrowModel :=
  mkNM "med-cancer-02" CANCER "https://medical-nm9.example.com"
       ["cancer"] 0.8 UNAVAILABLE 1200 0.97 90 0 10.

Definition recent_outage_world : World := world_of demo_env [med_cancer_02].

(** The health check of [nm] is due when the clock is read at tick [t]. *)
Definition due (interval : float) (e : Env) (nm : NarrowModel) (t : nat) : bool :=
  (interval <? time_at e t - last_health_check nm)%float.

(** The status a health check gives [nm] when its draw is [u]. *)
Definition checked_status (u : float) (nm : NarrowModel) : NMStatus :=
  let is_healthy := (0.05 <? u)%float in
  if is_healthy && bool_decide (current_load nm < max_concurrent nm) then HEALTHY
  else if is_healthy && bool_decide (current_load nm >= max_concurrent nm) then DEGRADED
  else UNAVAILABLE.

(** The turns of the loop of [get_healthy_nms_in_domain] over a [pool] that
    lists no id twice, entered at tick [t]: each registered id with its
    record and the tick at which the loop reads the clock for it.  An NM
    whose check is not due costs that one read; a due check costs two more,
    the clock and the draw of [perform_health_check].  An id that is not
    registered costs none. *)
Fixpoint refresh_turns (interval : float) (e : Env) (reg : gmap string NarrowModel)
    (pool : list string) (t : nat) : list (string * NarrowModel * nat) :=
  match pool with
  | [] => []
  | nm_id :: rest =>
      match reg !! nm_id with
      | None => refresh_turns interval e reg rest t
      | Some nm =>
          (nm_id, nm, t)
          :: refresh_turns interval e reg rest
               (if due interval e nm t then 3 + t else 1 + t)%nat
      end
  end.

(** The status of [nm] once its turn, at tick [t], is over: the one its
    check gives it if the check is due, the draw being read two ticks after
    the clock of the loop, else the one it had. *)
Definition status_after_turn (interval : float) (e : Env) (nm : NarrowModel)
    (t : nat) : NMStatus :=
  if due interval e nm t then checked_status (random_at e (S (S t))) nm
  else status nm.

(** The ids the refresh leaves eligible, in the order of their turns. *)
Definition eligible_turns (interval : float) (e : Env)
    (turns : list (string * NarrowModel * nat)) : list string :=
  map (fun turn => turn.1.1)
      (filter (fun turn => routable (status_after_turn interval e turn.1.2 turn.2))
              turns).

(** At its turn the check of the NM is not due, or it is due and finds the
    NM unreachable: its draw is not above 0.05. *)
Definition recheck_fails (interval : float) (e : Env)
    (turn : string * NarrowModel * nat) : Prop :=
  due interval e turn.1.2 turn.2 = true ->
  (0.05 <? random_at e (S (S turn.2)))%float = false.

(** No pool lists an id twice. *)
Definition pools_NoDup (r : ADPRouter) : Prop :=
  forall d pool, domain_pools r !! d = Some pool -> NoDup pool.

(** An Unavailable NM whose check is due, behind a generator that draws
    0.01 at its third read, the one of that check, and 0.5 at every other:
    the check finds the NM unreachable. *)
Definition unreachable_env : Env :=
  mkEnv (fun _ => 100%float)
        (fun t => if Nat.eqb t 2 then 0.01%float else 0.5%float)
        (fun _ => 0%nat).

Definition unreachable_world : World := world_of unreachable_env [med_cancer_01].

(** The decision of [route_request] when no NM is eligible. *)
Definition no_available_decision (d : Domain) : RoutingDecision :=
  {| primary := None; validation := [];
     routing_method := "no_available_nms";
     error := Some ("No healthy NMs available in domain " +:+ Domain_value d);
     total_available := None |}.

(** [med-general-01] registered again, now under the cardiology domain. *)
Definition med_general_01_moved : NarrowModel :=
  mkNM "med-general-01" CARDIOLOGY "https://medical-nm2.example.com"
       ["general_medicine"; "triage"] 0.7 HEALTHY 600 0.88 0 0 10.

Definition moved_world : World :=
  world_of demo_env [med_general_01; med_general_01_moved].

(** Two healthy NMs, one per domain. *)
Definition healthy_world : World :=
  world_of demo_env [med_general_01; med_cardio_01].

(** The third request of the demo: [med-cardio-01] as preferred NM. *)
Definition preferred_request : RoutingRequest :=
  mkReq "req-003" CARDIOLOGY "normal" (Some "med-cardio-01") true.

(** The same preference in the medical pool, with validation. *)
Definition preferred_validated_request : RoutingRequest :=
  mkReq "req-008" MEDICAL "normal" (Some "med-general-02") true.

(** The value an outcome returned, if it returned. *)
Definition returned {A} (x : Result World (A * World)) : option A :=
  match x with
  | Ok (a, _) => Some a
  | Raise _ _ => None
  end.

(** The world an outcome left, if it returned. *)
Definition world_after {A} (x : Result World (A * World)) : option World :=
  match x with
  | Ok (_, w) => Some w
  | Raise _ _ => None
  end.

(** The ids of the five pools, one pool after the other. *)
Definition pooled_ids (r : ADPRouter) : list string :=
  concat (map (pool_of r) all_domains).

(** The count [get_routing_stats] divides: Healthy entries of the pools. *)
Definition healthy_count (r : ADPRouter) : nat :=
  fold_left
    (fun acc d => (acc + count_status (nm_registry r) HEALTHY (pool_of r d))%nat)
    all_domains 0%nat.

(** The number of registered NMs that are Healthy. *)
Definition healthy_registered (r : ADPRouter) : nat :=
  length (filter (fun kv => status (snd kv) = HEALTHY) (map_to_list (nm_registry r))).

(** NMs with the empty string as id. *)
Definition med_blank_01 : NarrowModel :=
  mkNM "" AI_COMPLIANCE "https://compliance-nm1.example.com"
       ["contracts"] 0.91 HEALTHY 900 0.92 0 3 10.

Definition blank_world : World := world_of demo_env [med_blank_01].

(** What every call keeps, from the world [w] before it to the world [w']
    after it: the invariants of the router, the registered ids and the
    environment. *)
Definition call_keeps (w w' : World) : Prop :=
  (pools_registered (router w) -> pools_registered (router w')) /\
  (cursors_nonneg (router w) -> cursors_nonneg (router w')) /\
  (forall x, is_Some (nm_registry (router w) !! x) ->
             is_Some (nm_registry (router w') !! x)) /\
  env w' = env w /\
  (pools_NoDup (router w) -> pools_NoDup (router w')).

(** An NM registered with no capacity at all, outside the data model. *)
Definition med_zero_01 : NarrowModel :=
  mkNM "med-zero-01" NEUROLOGY "https://medical-nm4.example.com"
       ["neurology"] 0.89 HEALTHY 900 0.92 0 0 0.

Definition zero_capacity_world : World := world_of demo_env [med_zero_01].

(** The exception an outcome raised, if it raised. *)
Definition raised {A} (x : Result World (A * World)) : option PyExn :=
  match x with
  | Ok _ => None
  | Raise e _ => Some e
  end.

(** * Further notions: the rest of the router's behaviour *)

(** [nm_id] is registered in [r] with a status that admits routing. *)
Definition eligible (r : ADPRouter) (nm_id : string) : bool :=
  match nm_registry r !! nm_id with
  | Some nm => routable (status nm)
  | None => false
  end.

(** The world an outcome leaves, whether the call returned or raised. *)
Definition final_world {A} (x : Result World (A * World)) : World :=
  match x with
  | Ok (_, w) => w
  | Raise _ w => w
  end.

Definition is_registration (c : Call) : bool :=
  match c with
  | CallRegister _ => true
  | _ => false
  end.

(** The fields of an NM that only [register_nm] writes. *)
Definition static_fields (nm : NarrowModel) :=
  (nm_id nm, nm_domain nm, endpoint nm, capabilities nm, weight nm,
   response_time_avg nm, accuracy_score nm, max_concurrent nm).

(** Every NM is stored under its own id. *)
Definition registry_keyed (r : ADPRouter) : Prop :=
  forall k nm, nm_registry r !! k = Some nm -> nm_id nm = k.

(** Every registered NM is listed in the pool of its own domain. *)
Definition registry_listed (r : ADPRouter) : Prop :=
  forall k nm, nm_registry r !! k = Some nm -> k ∈ pool_of r (nm_domain nm).

Definition loads_nonneg (r : ADPRouter) : Prop :=
  map_Forall (fun _ nm => 0 <= current_load nm) (nm_registry r).

(** [k] consecutive calls of [round_robin_selection] with the same
    arguments, their results in order. *)
Fixpoint round_robin_calls (k : nat) (nm_ids : list string) (domain : Domain)
  : M (list (option string)) :=
  match k with
  | O => ret []
  | S k' =>
      selected <~ round_robin_selection nm_ids domain ;;
      rest <~ round_robin_calls k' nm_ids domain ;;
      ret (selected :: rest)
  end.

(** The position [round_robin_selection] reads: the stored cursor, or 0 when
    it is past the end of a list of length [n]. *)
Definition start_position (w : World) (domain : Domain) (n : Z) : Z :=
  if decide (cursor w domain >= n) then 0 else cursor w domain.

(** What a routing call may do to the round-robin cursors: it writes at
    most the cursor of the request's domain, and none for an urgent
    request. *)
Definition cursors_moved_at (request : RoutingRequest) (w w' : World) : Prop :=
  (forall d, d <> req_domain request ->
             round_robin_indices (router w') !! d
             = round_robin_indices (router w) !! d) /\
  (priority request = "urgent" ->
   round_robin_indices (router w') = round_robin_indices (router w)).

(** An urgent medical request that prefers an NM of the cardiology pool. *)
Definition cross_domain_request : RoutingRequest :=
  mkReq "req-009" MEDICAL "urgent" (Some "med-cardio-01") true.

(** The method tag [route_request] gives a decision made from the pool. *)
Definition method_of_priority (priority : string) : string :=
  if String.eqb priority "urgent" then "weighted_urgent"
  else if String.eqb priority "high" then "hybrid_high"
  else "round_robin_normal".

(** ** The controller of the demonstration *)

(** The [for val_nm_id in routing_result["validation"]] loop that ends
    [process_user_query]. *)
Fixpoint complete_validators (validation : list string) : M unit :=
  match validation with
  | [] => ret tt
  | val_nm_id :: rest =>
      complete_request val_nm_id ;;;
      complete_validators rest
  end.

(** [ADPMasterController.process_user_query] as its router sees it.  The
    request is built for the domain and priority given, with no preferred NM
    and validation on; the message id is the one [uuid4] supplied.  The
    method gives up when the decision has no primary.  [serve] stands for
    the steps between routing and cleanup: building the message, the answers
    of the mock NMs, the log.  They read the clock and the random source
    and may raise, and work on the controller's own tables.  The result
    kept here is the decision, the part of the answer the router made. *)
Definition process_user_query
    (serve : RoutingRequest -> RoutingDecision -> M unit)
    (message_id : string) (domain_enum : Domain) (priority : string)
  : M RoutingDecision :=
  let routing_request := mkReq message_id domain_enum priority None true in
  routing_result <~ route_request routing_request ;;
  if negb (truthy (primary routing_result)) then ret routing_result
  else
    serve routing_request routing_result ;;;
    primary_id <~ as_key (primary routing_result) ;;
    complete_request primary_id ;;;
    complete_validators (validation routing_result) ;;;
    ret routing_result.

(** Steps between routing and cleanup that read the clock once and draw
    once. *)
Definition serve_reading (request : RoutingRequest) (decision : RoutingDecision)
  : M unit :=
  time_time ;;; random_random ;;; ret tt.

(** What a call for [domain] may do to the registry: the pool of the domain
    stays, and so does every record stored under an id outside it. *)
Definition kept_outside_pool (domain : Domain) (w w' : World) : Prop :=
  pool_of (router w') domain = pool_of (router w) domain /\
  forall x, x ∉ pool_of (router w) domain ->
            nm_registry (router w') !! x = nm_registry (router w) !! x.

(** The ["total_transactions"] entry of [get_system_status]:
    [sum(stats["domains"][d]["total"] for d in stats["domains"])] *)
Definition total_transactions (stats : RoutingStats) : nat :=
  fold_left (fun acc kv => (acc + ds_total (snd kv))%nat) (domains stats) 0%nat.

(** * Properties *)

(** ** Reasoning about the monad *)

Lemma bind_Ok {A B} (m : M A) (k : A -> M B) (w w'' : World) (b : B) :
  bind m k w = Ok (b, w'') <->
  exists a w', m w = Ok (a, w') /\ k a w' = Ok (b, w'').
Proof.
  unfold bind. destruct (m w) as [[a w']|e]; split.
  - intros H. exists a, w'. split; [reflexivity | exact H].
  - intros (a0 & w0 & Heq & H). inversion Heq; subst. exact H.
  - discriminate.
  - intros (a0 & w0 & Heq & _). discriminate.
Qed.

Lemma lift_result_Ok {A} (x : Result unit A) (w w' : World) (a : A) :
  lift_result x w = Ok (a, w') <-> x = Ok a /\ w' = w.
Proof.
  unfold lift_result. destruct x; split.
  - intros H. inversion H; subst. auto.
  - intros [H ->]. inversion H; subst. reflexivity.
  - discriminate.
  - intros [H _]. discriminate.
Qed.

(** Decomposes a hypothesis saying that a sequence of steps returned. *)
Ltac inv_run H :=
  repeat match type of H with
  | bind _ _ _ = Ok _ =>
      let a := fresh "a" in
      let w := fresh "w" in
      let H1 := fresh "Hstep" in
      apply bind_Ok in H; destruct H as (a & w & H1 & H)
  | ret _ _ = Ok _ => unfold ret in H; inversion H; subst; clear H
  | raise _ _ = Ok _ => discriminate H
  end.

Lemma wp_bind {A B} (m : M A) (k : A -> M B) (w : World)
    (Q : B -> World -> Prop) (E : PyExn -> World -> Prop) :
  wp m w (fun a w' => wp (k a) w' Q E) E -> wp (bind m k) w Q E.
Proof. unfold wp, bind. destruct (m w) as [[a w']|e w']; auto. Qed.

Lemma wp_ret {A} (a : A) (w : World) (Q : A -> World -> Prop)
    (E : PyExn -> World -> Prop) :
  Q a w -> wp (ret a) w Q E.
Proof. auto. Qed.

Lemma wp_mono {A} (m : M A) (w : World) (Q Q' : A -> World -> Prop)
    (E E' : PyExn -> World -> Prop) :
  wp m w Q E ->
  (forall a w', Q a w' -> Q' a w') -> (forall e w', E e w' -> E' e w') ->
  wp m w Q' E'.
Proof. unfold wp. destruct (m w) as [[a w']|e w']; auto. Qed.

Lemma wp_Ok {A} (m : M A) (w w' : World) (a : A)
    (Q : A -> World -> Prop) (E : PyExn -> World -> Prop) :
  m w = Ok (a, w') -> Q a w' -> wp m w Q E.
Proof. unfold wp. intros ->. auto. Qed.

Lemma wp_returned {A} (m : M A) (w w' : World) (a : A)
    (Q : A -> World -> Prop) (E : PyExn -> World -> Prop) :
  wp m w Q E -> m w = Ok (a, w') -> Q a w'.
Proof. unfold wp. intros H Heq. rewrite Heq in H. exact H. Qed.

Lemma wp_raised {A} (m : M A) (w w' : World) (e : PyExn)
    (Q : A -> World -> Prop) (E : PyExn -> World -> Prop) :
  wp m w Q E -> m w = Raise e w' -> E e w'.
Proof. unfold wp. intros H Heq. rewrite Heq in H. exact H. Qed.

Lemma wp_total {A} (m : M A) (w : World) (Q : A -> World -> Prop)
    (E : PyExn -> World -> Prop) :
  wp m w Q E -> (forall e w', ~ E e w') -> exists a w', m w = Ok (a, w') /\ Q a w'.
Proof.
  unfold wp. destruct (m w) as [[a w']|e w']; intros H HE.
  - eauto.
  - destruct (HE e w' H).
Qed.

(** ** Python indexing *)

Lemma py_index_nat {A} (l : list A) (i : nat) (x : A) :
  l !! i = Some x -> py_index l (Z.of_nat i) = Ok x.
Proof.
  intros H. unfold py_index.
  pose proof (lookup_lt_Some _ _ _ H) as Hlt.
  destruct (decide (Z.of_nat i < 0)) as [Hneg|_]; [lia|].
  destruct (decide (0 <= Z.of_nat i < Z.of_nat (length l))) as [_|Hn]; [|lia].
  rewrite Nat2Z.id, H. reflexivity.
Qed.

Lemma py_index_elem {A} (l : list A) (i : Z) (x : A) :
  py_index l i = Ok x -> x ∈ l.
Proof.
  unfold py_index. intros H.
  destruct (decide (0 <= _ < _)) as [_|_]; [|discriminate].
  destruct (l !! _) as [y|] eqn:Hy; [|discriminate].
  inversion H; subst. eapply list_elem_of_lookup_2. exact Hy.
Qed.

Lemma py_index_last {A} (l : list A) :
  l <> [] -> exists x, py_index l (-1) = Ok x /\ last l = Some x.
Proof.
  intros Hne. unfold py_index.
  destruct (decide (-1 < 0)) as [_|Hn]; [|lia].
  assert (0 < length l)%nat as Hlen by (destruct l; simpl; [congruence | lia]).
  destruct (decide (0 <= -1 + Z.of_nat (length l) < Z.of_nat (length l)))
    as [_|Hn]; [|lia].
  replace (Z.to_nat (-1 + Z.of_nat (length l))) with (pred (length l)) by lia.
  rewrite <- last_lookup.
  destruct (last l) as [x|] eqn:Hl.
  - exists x. auto.
  - apply last_None in Hl. congruence.
Qed.

(** ** The load ratio is a float

    The quotient of two integers overflows binary64 only from [2 ^ 1024]
    on; what follows bounds the exponent that [SFdiv] and its rounding
    produce for a dividend below [2 ^ 1023]. *)

Lemma digits2_pos_lower (p : positive) :
  2 ^ (Zpos (SpecFloat.digits2_pos p) - 1) <= Zpos p.
Proof.
  induction p as [p IH|p IH|]; simpl SpecFloat.digits2_pos.
  - rewrite Pos2Z.inj_succ. replace (Z.succ (Zpos (SpecFloat.digits2_pos p)) - 1)
      with (Z.succ (Zpos (SpecFloat.digits2_pos p) - 1)) by lia.
    rewrite Z.pow_succ_r by lia. lia.
  - rewrite Pos2Z.inj_succ. replace (Z.succ (Zpos (SpecFloat.digits2_pos p)) - 1)
      with (Z.succ (Zpos (SpecFloat.digits2_pos p) - 1)) by lia.
    rewrite Z.pow_succ_r by lia. lia.
  - simpl. lia.
Qed.

Lemma Zdigits2_le (m k : Z) :
  0 <= m -> 0 <= k -> m < 2 ^ k -> SpecFloat.Zdigits2 m <= k.
Proof.
  intros Hm Hk Hlt. destruct m as [|p|p]; simpl; [lia | | lia].
  pose proof (digits2_pos_lower p) as Hlow.
  assert (2 ^ (Zpos (SpecFloat.digits2_pos p) - 1) < 2 ^ k) as H by lia.
  apply Z.pow_lt_mono_r_iff in H; lia.
Qed.

Lemma shr_1_m (mrs : SpecFloat.shr_record) :
  0 <= SpecFloat.shr_m mrs -> SpecFloat.shr_m (SpecFloat.shr_1 mrs) = SpecFloat.shr_m mrs / 2.
Proof.
  destruct mrs as [m r s]. cbn [SpecFloat.shr_m]. intros Hm.
  destruct m as [|[p|p|]|p]; cbn [SpecFloat.shr_1 SpecFloat.shr_m]; try lia.
  - reflexivity.
  - apply Z.div_unique with (r := 1); lia.
  - apply Z.div_unique with (r := 0); lia.
  - reflexivity.
Qed.

Lemma iter_shr_1_m (n : positive) :
  forall mrs, 0 <= SpecFloat.shr_m mrs ->
  SpecFloat.shr_m (SpecFloat.iter_pos SpecFloat.shr_1 n mrs) = SpecFloat.shr_m mrs / 2 ^ Zpos n.
Proof.
  induction n as [n IH|n IH|]; intros mrs Hm; simpl SpecFloat.iter_pos.
  - assert (0 <= SpecFloat.shr_m (SpecFloat.shr_1 mrs)) as H1.
    { rewrite shr_1_m by exact Hm. apply Z.div_pos; lia. }
    assert (0 <= SpecFloat.shr_m (SpecFloat.iter_pos SpecFloat.shr_1 n (SpecFloat.shr_1 mrs))) as H2.
    { rewrite IH by exact H1. apply Z.div_pos; [exact H1|]. apply Z.pow_pos_nonneg; lia. }
    rewrite IH by exact H2. rewrite IH by exact H1. rewrite shr_1_m by exact Hm.
    rewrite !Z.div_div by (try apply Z.pow_pos_nonneg; lia).
    f_equal. rewrite (Pos2Z.inj_xI n).
    replace (2 * Zpos n + 1) with (Z.succ (Zpos n + Zpos n)) by lia.
    rewrite Z.pow_succ_r by lia.
    rewrite (Z.pow_add_r 2 (Zpos n) (Zpos n)) by lia. reflexivity.
  - assert (0 <= SpecFloat.shr_m (SpecFloat.iter_pos SpecFloat.shr_1 n mrs)) as H2.
    { rewrite IH by exact Hm. apply Z.div_pos; [exact Hm|]. apply Z.pow_pos_nonneg; lia. }
    rewrite IH by exact H2. rewrite IH by exact Hm.
    rewrite !Z.div_div by (try apply Z.pow_pos_nonneg; lia).
    f_equal. rewrite (Pos2Z.inj_xO n).
    replace (2 * Zpos n) with (Zpos n + Zpos n) by lia.
    rewrite (Z.pow_add_r 2 (Zpos n) (Zpos n)) by lia. reflexivity.
  - rewrite shr_1_m by exact Hm. reflexivity.
Qed.

Lemma round_nearest_even_le (m : Z) (l : SpecFloat.location) :
  m <= SpecFloat.round_nearest_even m l <= m + 1.
Proof.
  destruct l as [|[| |]]; simpl; try lia. destruct (Z.even m); lia.
Qed.

Lemma shr_record_of_loc_m (m : Z) (l : SpecFloat.location) : SpecFloat.shr_m (SpecFloat.shr_record_of_loc m l) = m.
Proof. destruct l as [|[| |]]; reflexivity. Qed.

(** After [SpecFloat.shr_fexp] on a mantissa below [2 ^ (k - e)], with [e <= 0] or so *)
Lemma shr_fexp_bound (prec emax m e k : Z) (l : SpecFloat.location) :
  0 <= m -> e <= k -> m < 2 ^ (k - e) ->
  SpecFloat.fexp prec emax k <= k ->
  (forall x y, x <= y -> SpecFloat.fexp prec emax x <= SpecFloat.fexp prec emax y) ->
  let '(mrs, e') := SpecFloat.shr_fexp prec emax m e l in
  0 <= SpecFloat.shr_m mrs /\ e' <= k /\ SpecFloat.shr_m mrs < 2 ^ (k - e') /\
  e' <= Z.max e (SpecFloat.fexp prec emax k).
Proof.
  intros Hm Hek Hlt Hfk Hmono. unfold SpecFloat.shr_fexp, SpecFloat.shr.
  assert (SpecFloat.Zdigits2 m + e <= k) as Hd.
  { pose proof (Zdigits2_le m (k - e) Hm ltac:(lia) Hlt). lia. }
  pose proof (Hmono _ _ Hd) as Hf.
  destruct (SpecFloat.fexp prec emax (SpecFloat.Zdigits2 m + e) - e) as [|n|n] eqn:Hn.
  - rewrite shr_record_of_loc_m. repeat split; try lia.
  - rewrite iter_shr_1_m by (rewrite shr_record_of_loc_m; exact Hm).
    rewrite shr_record_of_loc_m.
    assert (0 < 2 ^ Zpos n) as Hp by (apply Z.pow_pos_nonneg; lia).
    split; [apply Z.div_pos; lia|]. split; [lia|]. split; [|lia].
    apply Z.div_lt_upper_bound; [exact Hp|].
    rewrite <- Z.pow_add_r by lia.
    replace (Zpos n + (k - (e + Zpos n))) with (k - e) by lia. exact Hlt.
  - rewrite shr_record_of_loc_m. repeat split; try lia.
Qed.

Lemma fexp64_mono (x y : Z) :
  x <= y ->
  SpecFloat.fexp FloatOps.prec FloatOps.emax x
  <= SpecFloat.fexp FloatOps.prec FloatOps.emax y.
Proof. unfold SpecFloat.fexp, SpecFloat.emin, FloatOps.prec, FloatOps.emax. lia. Qed.

Lemma SFdiv_ints_finite (sa sb : bool) (a b : positive) :
  Zpos a < 2 ^ 1023 ->
  forall s,
    SpecFloat.SFdiv FloatOps.prec FloatOps.emax
      (SpecFloat.S754_finite sa a 0) (SpecFloat.S754_finite sb b 0)
    <> SpecFloat.S754_infinity s.
Proof.
  intros Ha s. unfold SpecFloat.SFdiv, SpecFloat.SFdiv_core_binary.
  set (e0 := Z.min _ (0 - 0)).
  assert (e0 <= 0) as He0 by (subst e0; lia).
  set (m' := match 0 - 0 - e0 with
             | 0 => Zpos a
             | Zpos _ => Z.shiftl (Zpos a) (0 - 0 - e0)
             | Zneg _ => 0
             end).
  assert (0 <= m' < 2 ^ (1023 - e0)) as Hm'.
  { subst m'. destruct (0 - 0 - e0) as [|p|p] eqn:Hs.
    - replace e0 with 0 by lia. simpl Z.sub. lia.
    - rewrite Z.shiftl_mul_pow2 by lia. split; [lia|].
      replace (1023 - e0) with (1023 + Zpos p) by lia.
      rewrite Z.pow_add_r by lia.
      apply Z.mul_lt_mono_pos_r; [apply Z.pow_pos_nonneg; lia | exact Ha].
    - split; [lia|]. apply Z.pow_pos_nonneg; lia. }
  pose proof (Z_div_mod m' (Zpos b) ltac:(lia)) as Hdiv.
  destruct (Z.div_eucl m' (Zpos b)) as [q r].
  assert (0 <= q <= m') as Hq by nia.
  unfold SpecFloat.binary_round_aux.
  pose proof (shr_fexp_bound FloatOps.prec FloatOps.emax q e0 1023
                (SpecFloat.new_location (Zpos b) r)
                ltac:(lia) ltac:(lia) ltac:(lia)
                ltac:(unfold SpecFloat.fexp, SpecFloat.emin, FloatOps.prec, FloatOps.emax; lia)
                fexp64_mono) as H1.
  destruct (SpecFloat.shr_fexp _ _ q e0 _) as [mrs' e'].
  destruct H1 as (Hm1 & He1 & Hlt1 & Hmax1).
  assert (e' <= 970) as He970.
  { revert Hmax1. unfold SpecFloat.fexp, SpecFloat.emin, FloatOps.prec, FloatOps.emax. lia. }
  pose proof (round_nearest_even_le (SpecFloat.shr_m mrs')
                (SpecFloat.loc_of_shr_record mrs')) as Hr.
  set (m1 := SpecFloat.round_nearest_even _ _) in *.
  assert (m1 < 2 ^ (1024 - e')) as Hm1lt.
  { replace (1024 - e') with (Z.succ (1023 - e')) by lia.
    rewrite Z.pow_succ_r by lia.
    assert (0 < 2 ^ (1023 - e')) by (apply Z.pow_pos_nonneg; lia). lia. }
  pose proof (shr_fexp_bound FloatOps.prec FloatOps.emax m1 e' 1024
                SpecFloat.loc_Exact
                ltac:(lia) ltac:(lia) Hm1lt
                ltac:(unfold SpecFloat.fexp, SpecFloat.emin, FloatOps.prec, FloatOps.emax; lia)
                fexp64_mono) as H2.
  destruct (SpecFloat.shr_fexp _ _ m1 e' _) as [mrs'' e''].
  destruct H2 as (_ & _ & _ & Hmax2).
  assert (e'' <= 971) as He971.
  { revert Hmax2. unfold SpecFloat.fexp, SpecFloat.emin, FloatOps.prec, FloatOps.emax. lia. }
  destruct (SpecFloat.shr_m mrs'') as [|m|m]; try discriminate.
  assert ((e'' <=? FloatOps.emax - FloatOps.prec) = true) as ->.
  { apply Z.leb_le. unfold FloatOps.prec, FloatOps.emax. lia. }
  discriminate.
Qed.

(** [a / b] is a float for every nonzero [b] and every [a] of magnitude
    below [2 ^ 1023]. *)
Lemma py_truediv_defined (a b : Z) :
  b <> 0 -> Z.abs a < 2 ^ 1023 -> exists q, py_truediv a b = Ok q.
Proof.
  intros Hb Ha. unfold py_truediv. destruct (decide (b = 0)) as [|_]; [contradiction|].
  destruct a as [|a|a], b as [|b|b]; try contradiction; unfold Z_to_SF;
    try (eexists; reflexivity).
  all: pose proof (SFdiv_ints_finite) as Hfin.
  - specialize (Hfin false false a b Ha).
    destruct (SpecFloat.SFdiv _ _ _ _) as [| s | | ]; try (eexists; reflexivity).
    destruct (Hfin s eq_refl).
  - specialize (Hfin false true a b Ha).
    destruct (SpecFloat.SFdiv _ _ _ _) as [| s | | ]; try (eexists; reflexivity).
    destruct (Hfin s eq_refl).
  - specialize (Hfin true false a b Ha).
    destruct (SpecFloat.SFdiv _ _ _ _) as [| s | | ]; try (eexists; reflexivity).
    destruct (Hfin s eq_refl).
  - specialize (Hfin true true a b Ha).
    destruct (SpecFloat.SFdiv _ _ _ _) as [| s | | ]; try (eexists; reflexivity).
    destruct (Hfin s eq_refl).
Qed.

(** An NM of the data model, with a capacity that is not 0 and a load of
    magnitude below [2 ^ 1023], has a defined load ratio; without capacity
    it has none. *)
Lemma load_ratio_defined_bounded (nm : NarrowModel) :
  bounded_load nm -> load_ratio_defined nm.
Proof. intros [Hm Hl]. apply py_truediv_defined; assumption. Qed.

Lemma load_ratio_defined_capacity (nm : NarrowModel) :
  load_ratio_defined nm -> max_concurrent nm <> 0.
Proof.
  intros [q Hq] Hz. unfold py_truediv in Hq. rewrite Hz in Hq.
  destruct (decide (0 = 0)); [discriminate | congruence].
Qed.

Lemma ratios_defined_bounded (r : ADPRouter) :
  (forall nm_id nm, nm_registry r !! nm_id = Some nm -> bounded_load nm) ->
  ratios_defined r.
Proof. intros H nm_id nm Hnm. apply load_ratio_defined_bounded. eauto. Qed.

(** ** Weighted selection *)

Lemma weigh_candidates_ids (reg : gmap string NarrowModel) (nm_ids : list string)
    (wc : list (string * float)) :
  weigh_candidates reg nm_ids = Ok wc -> map fst wc = nm_ids.
Proof.
  revert wc. induction nm_ids as [|x rest IH]; simpl; intros wc H.
  - inversion H. reflexivity.
  - destruct (reg !! x) as [nm|]; [|discriminate].
    destruct (effective_weight nm) as [wt|]; [|discriminate].
    destruct (weigh_candidates reg rest) as [wc'|]; [|discriminate].
    inversion H; subst. simpl. f_equal. apply IH. reflexivity.
Qed.

Lemma effective_weight_defined (nm : NarrowModel) :
  load_ratio_defined nm <-> exists wt, effective_weight nm = Ok wt.
Proof.
  unfold load_ratio_defined, effective_weight.
  destruct (py_truediv _ _) as [q|e]; split.
  - intros _. eexists. reflexivity.
  - intros _. exists q. reflexivity.
  - intros [q H]. discriminate.
  - intros [wt H]. discriminate.
Qed.

Lemma weigh_candidates_defined (reg : gmap string NarrowModel) (nm_ids : list string) :
  weighable reg nm_ids -> exists wc, weigh_candidates reg nm_ids = Ok wc.
Proof.
  induction nm_ids as [|x rest IH]; intros Hw; simpl.
  - eexists. reflexivity.
  - destruct (Hw x) as (nm & Hreg & Hq); [left|].
    rewrite Hreg. apply effective_weight_defined in Hq. destruct Hq as [wt ->].
    destruct IH as [wc ->].
    + intros y Hy. apply Hw. right. exact Hy.
    + eexists. reflexivity.
Qed.

Lemma pick_cumulative_elem (random_value cumulative : float)
    (wc : list (string * float)) (x : string) :
  pick_cumulative random_value cumulative wc = Some x -> x ∈ map fst wc.
Proof.
  revert cumulative. induction wc as [|[y wt] rest IH]; simpl; intros c H.
  - discriminate.
  - destruct (random_value <=? c + wt)%float.
    + inversion H; subst. left.
    + right. eapply IH. exact H.
Qed.

(** What [calculate_weighted_selection] returns when it returns: it leaves
    the router alone, reads the environment once, and on a non-empty list
    answers with a member of the list. *)
Lemma calculate_weighted_selection_returns (nm_ids : list string) (w w' : World)
    (o : option string) :
  calculate_weighted_selection nm_ids w = Ok (o, w') ->
  match nm_ids with
  | [] => o = None /\ w' = w
  | _ => w' = next_tick w /\ exists x, o = Some x /\ x ∈ nm_ids
  end.
Proof.
  unfold calculate_weighted_selection. intros H.
  destruct nm_ids as [|a l]; [inv_run H; auto|].
  remember (a :: l) as ids eqn:Hids.
  inv_run H. unfold get_router in Hstep. inversion Hstep; subst a0 w0; clear Hstep.
  apply lift_result_Ok in Hstep0. destruct Hstep0 as [Hwc ->].
  pose proof (weigh_candidates_ids _ _ _ Hwc) as Hfst.
  destruct (py_sum (map snd a1) =? 0)%float.
  - inv_run H. unfold random_choice in Hstep. inv_run Hstep.
    unfold randbelow in Hstep0. inversion Hstep0; subst; clear Hstep0.
    apply lift_result_Ok in Hstep. destruct Hstep as [Hix ->].
    split; [reflexivity|].
    eexists. split; [reflexivity|]. eapply py_index_elem. exact Hix.
  - inv_run H. unfold random_uniform in Hstep. inv_run Hstep.
    unfold random_random in Hstep0. inversion Hstep0; subst; clear Hstep0.
    destruct (pick_cumulative _ _ _) as [x|] eqn:Hpick.
    + inv_run H. split; [reflexivity|].
      exists x. split; [reflexivity|]. rewrite <- Hfst.
      eapply pick_cumulative_elem. exact Hpick.
    + inv_run H. apply lift_result_Ok in Hstep. destruct Hstep as [Hix ->].
      split; [reflexivity|].
      eexists. split; [reflexivity|]. rewrite <- Hfst.
      apply list_elem_of_fmap. eexists. split; [reflexivity|].
      eapply py_index_elem. exact Hix.
Qed.

(** On registered NMs with defined load ratios the selection does not raise. *)
Lemma calculate_weighted_selection_total (nm_ids : list string) (w : World) :
  weighable (nm_registry (router w)) nm_ids ->
  exists o w', calculate_weighted_selection nm_ids w = Ok (o, w').
Proof.
  intros Hw. unfold calculate_weighted_selection.
  destruct nm_ids as [|a l]; [eexists _, _; reflexivity|].
  remember (a :: l) as ids eqn:Hids.
  destruct (weigh_candidates_defined _ _ Hw) as [wc Hwc].
  unfold bind at 1. simpl. unfold bind at 1, lift_result at 1. rewrite Hwc.
  destruct (py_sum (map snd wc) =? 0)%float.
  - unfold bind, random_choice, bind, randbelow, lift_result.
    assert (randbits_at (env w) (tick w) `mod` length ids < length ids)%nat as Hlt.
    { apply Nat.mod_upper_bound. subst ids. simpl. lia. }
    apply lookup_lt_is_Some in Hlt. destruct Hlt as [x Hx].
    rewrite (py_index_nat _ _ _ Hx). eexists _, _; reflexivity.
  - unfold bind at 1, random_uniform, bind at 1, random_random, ret.
    destruct (pick_cumulative _ _ _) as [x|].
    + eexists _, _; reflexivity.
    + destruct (py_index_last wc) as (lastc & Hlast & _).
      { intros ->. apply weigh_candidates_ids in Hwc. subst ids. discriminate. }
      unfold bind, lift_result. rewrite Hlast. eexists _, _; reflexivity.
Qed.

(** The fallback branch: when the effective weights sum to zero the answer
    is the element at the position drawn by [random.choice]. *)
Lemma calculate_weighted_selection_zero_total (nm_ids : list string) (w w' : World)
    (o : option string) (wc : list (string * float)) :
  nm_ids <> [] ->
  calculate_weighted_selection nm_ids w = Ok (o, w') ->
  weigh_candidates (nm_registry (router w)) nm_ids = Ok wc ->
  (py_sum (map snd wc) =? 0)%float = true ->
  o = nm_ids !! (randbits_at (env w) (tick w) `mod` length nm_ids)%nat.
Proof.
  intros Hne H Hwc Hz. unfold calculate_weighted_selection in H.
  destruct nm_ids as [|a l]; [congruence|].
  remember (a :: l) as ids eqn:Hids.
  unfold bind at 1 in H. simpl in H. unfold bind at 1, lift_result at 1 in H.
  rewrite Hwc, Hz in H.
  unfold bind, random_choice, bind, randbelow, lift_result in H.
  assert (randbits_at (env w) (tick w) `mod` length ids < length ids)%nat as Hlt.
  { apply Nat.mod_upper_bound. subst ids. simpl. lia. }
  apply lookup_lt_is_Some in Hlt. destruct Hlt as [x Hx].
  rewrite (py_index_nat _ _ _ Hx) in H. inversion H; subst o w'.
  symmetry. exact Hx.
Qed.

(** ** Round-robin selection *)

Lemma cursor_with_cursor (w : World) (d : Domain) (c : Z) :
  cursor (with_cursor w d c) d = c.
Proof. unfold cursor, with_cursor. simpl. rewrite lookup_insert_eq. reflexivity. Qed.

Lemma round_robin_selection_step (nm_ids : list string) (d : Domain) (w : World) :
  nm_ids <> [] ->
  0 <= cursor w d ->
  let n := Z.of_nat (length nm_ids) in
  let pos := if decide (cursor w d >= n) then 0 else cursor w d in
  exists x,
    nm_ids !! Z.to_nat pos = Some x /\
    round_robin_selection nm_ids d w
      = Ok (Some x, with_cursor w d ((pos + 1) `mod` n)).
Proof.
  intros Hne Hc n pos.
  assert (0 < n) as Hn by (subst n; destruct nm_ids; simpl; [congruence | lia]).
  assert (0 <= pos < n) as Hpos.
  { subst pos. destruct (decide (cursor w d >= n)); lia. }
  destruct (lookup_lt_is_Some_2 nm_ids (Z.to_nat pos)) as [x Hx]; [lia|].
  exists x. split; [exact Hx|].
  unfold round_robin_selection. destruct nm_ids as [|a l]; [congruence|].
  remember (a :: l) as ids eqn:Hids.
  unfold bind at 1, get_router. fold (cursor w d). fold n. fold pos.
  unfold bind at 1, lift_result. 
  replace pos with (Z.of_nat (Z.to_nat pos)) at 1 by lia.
  rewrite (py_index_nat _ _ _ Hx).
  reflexivity.
Qed.

(** A call for another domain leaves the cursor of [d] as it is. *)
Lemma round_robin_selection_other (nm_ids : list string) (d d' : Domain)
    (w w' : World) (o : option string) :
  d' <> d ->
  round_robin_selection nm_ids d' w = Ok (o, w') ->
  round_robin_indices (router w') !! d = round_robin_indices (router w) !! d.
Proof.
  intros Hd H. unfold round_robin_selection in H.
  destruct nm_ids as [|a l]; [inv_run H; reflexivity|].
  inv_run H. unfold get_router in Hstep. inversion Hstep; subst; clear Hstep.
  apply lift_result_Ok in Hstep0. destruct Hstep0 as [_ ->].
  unfold put_router in Hstep1. inversion Hstep1; subst; clear Hstep1.
  simpl. apply lookup_insert_ne. exact Hd.
Qed.

Lemma other_domain_calls_cursor (d : Domain) (w w' : World) :
  other_domain_calls d w w' -> cursor w' d = cursor w d.
Proof.
  induction 1 as [w|nm_ids d' o w w' w'' Hd Hcall _ IH]; [reflexivity|].
  rewrite IH. unfold cursor.
  rewrite (round_robin_selection_other _ _ _ _ _ _ Hd Hcall). reflexivity.
Qed.

(** One call over three candidates with the cursor at position [i]. *)
Lemma round_robin_three (A B C : string) (d : Domain) (w : World) (i : nat) :
  (i < 3)%nat -> cursor w d = Z.of_nat i ->
  exists x,
    [A; B; C] !! i = Some x /\
    round_robin_selection [A; B; C] d w
      = Ok (Some x, with_cursor w d (Z.of_nat (S i `mod` 3))).
Proof.
  intros Hi Hc.
  destruct (round_robin_selection_step [A; B; C] d w) as (x & Hx & Hrun);
    [discriminate | lia |].
  rewrite Hc in Hx, Hrun. simpl length in Hx, Hrun.
  destruct (decide (Z.of_nat i >= Z.of_nat 3)) as [Hge|_]; [lia|].
  rewrite Nat2Z.id in Hx. exists x. split; [exact Hx|].
  rewrite Hrun. do 2 f_equal.
  destruct i as [|[|[|i]]]; try reflexivity. lia.
Qed.


(** C4. For a non-empty candidate list and a domain whose stored cursor is
    not negative, [round_robin_selection] returns the candidate at the cursor
    position, the cursor being taken as 0 when it is at or beyond the length
    of the list, and stores [(position + 1) mod len] as the new cursor.  A
    call for another domain leaves this domain's cursor unchanged.  From a
    cursor at 0 the calls over [A; B; C] yield A, B, C and A again, whatever
    round-robin calls for other domains run in between. *)
Theorem round_robin_selection_cursor (nm_ids : list string) (d : Domain) (w : World) :
  nm_ids <> [] ->
  0 <= cursor w d ->
  let n := Z.of_nat (length nm_ids) in
  let pos := if decide (cursor w d >= n) then 0 else cursor w d in
  (exists x w',
     nm_ids !! Z.to_nat pos = Some x /\
     round_robin_selection nm_ids d w = Ok (Some x, w') /\
     cursor w' d = (pos + 1) `mod` n) /\
  (forall ids' d' o w',
     d' <> d -> round_robin_selection ids' d' w = Ok (o, w') ->
     cursor w' d = cursor w d) /\
  (forall A B C,
     nm_ids = [A; B; C] -> cursor w d = 0 ->
     forall u0, other_domain_calls d w u0 ->
     exists w1, round_robin_selection nm_ids d u0 = Ok (Some A, w1) /\
     forall u1, other_domain_calls d w1 u1 ->
     exists w2, round_robin_selection nm_ids d u1 = Ok (Some B, w2) /\
     forall u2, other_domain_calls d w2 u2 ->
     exists w3, round_robin_selection nm_ids d u2 = Ok (Some C, w3) /\
     forall u3, other_domain_calls d w3 u3 ->
     exists w4, round_robin_selection nm_ids d u3 = Ok (Some A, w4)).
Proof.
  intros Hne Hc n pos. split; [|split].
  - destruct (round_robin_selection_step nm_ids d w Hne Hc) as (x & Hx & Hrun).
    exists x, (with_cursor w d ((pos + 1) `mod` n)).
    split; [exact Hx|]. split; [exact Hrun|]. apply cursor_with_cursor.
  - intros ids' d' o w' Hd Hrun. unfold cursor.
    rewrite (round_robin_selection_other _ _ _ _ _ _ Hd Hrun). reflexivity.
  - intros A B C -> H0 u0 Hu0.
    apply other_domain_calls_cursor in Hu0. rewrite H0 in Hu0.
    destruct (round_robin_three A B C d u0 0) as (x & Hx & Hrun); [lia | exact Hu0 |].
    inversion Hx; subst x; clear Hx. eexists. split; [exact Hrun|].
    intros u1 Hu1. apply other_domain_calls_cursor in Hu1.
    rewrite cursor_with_cursor in Hu1.
    destruct (round_robin_three A B C d u1 1) as (x & Hx & Hrun1); [lia | exact Hu1 |].
    inversion Hx; subst x; clear Hx. eexists. split; [exact Hrun1|].
    intros u2 Hu2. apply other_domain_calls_cursor in Hu2.
    rewrite cursor_with_cursor in Hu2.
    destruct (round_robin_three A B C d u2 2) as (x & Hx & Hrun2); [lia | exact Hu2 |].
    inversion Hx; subst x; clear Hx. eexists. split; [exact Hrun2|].
    intros u3 Hu3. apply other_domain_calls_cursor in Hu3.
    rewrite cursor_with_cursor in Hu3.
    destruct (round_robin_three A B C d u3 0) as (x & Hx & Hrun3); [lia | exact Hu3 |].
    inversion Hx; subst x; clear Hx. eexists. exact Hrun3.
Qed.

Lemma round_robin_selection_cursor_witness :
  exists x w',
    ["med-general-01"; "med-general-02"; "med-general-03"] !! 0%nat = Some x /\
    round_robin_selection ["med-general-01"; "med-general-02"; "med-general-03"]
      MEDICAL demo_world = Ok (Some x, w') /\
    cursor w' MEDICAL = 1.
Proof.
  apply (round_robin_selection_cursor
           ["med-general-01"; "med-general-02"; "med-general-03"]
           MEDICAL demo_world).
  - discriminate.
  - vm_compute. discriminate.
Defined.

(** C5. On a non-empty list of registered NMs whose load ratios are
    defined, [calculate_weighted_selection] returns a member of the list and
    never [None]; when the effective weights sum to exactly 0 the member is
    the one at the position drawn by [random.choice]. *)
Theorem calculate_weighted_selection_member (nm_ids : list string) (w : World) :
  nm_ids <> [] ->
  weighable (nm_registry (router w)) nm_ids ->
  exists x,
    calculate_weighted_selection nm_ids w = Ok (Some x, next_tick w) /\
    x ∈ nm_ids /\
    (forall wc,
       weigh_candidates (nm_registry (router w)) nm_ids = Ok wc ->
       (py_sum (map snd wc) =? 0)%float = true ->
       nm_ids !! (randbits_at (env w) (tick w) `mod` length nm_ids)%nat = Some x).
Proof.
  intros Hne Hw.
  destruct (calculate_weighted_selection_total nm_ids w Hw) as (o & w' & Hrun).
  pose proof (calculate_weighted_selection_returns _ _ _ _ Hrun) as Hret.
  destruct nm_ids as [|a l]; [congruence|].
  destruct Hret as (-> & x & -> & Hx).
  exists x. split; [exact Hrun|]. split; [exact Hx|].
  intros wc Hwc Hz. symmetry.
  eapply calculate_weighted_selection_zero_total; eauto.
Qed.

Lemma calculate_weighted_selection_member_witness :
  exists x,
    calculate_weighted_selection ["med-idle-01"; "med-idle-02"] demo_world_bits1
      = Ok (Some x, next_tick demo_world_bits1) /\
    x ∈ ["med-idle-01"; "med-idle-02"] /\
    (forall wc,
       weigh_candidates (nm_registry (router demo_world_bits1))
         ["med-idle-01"; "med-idle-02"] = Ok wc ->
       (py_sum (map snd wc) =? 0)%float = true ->
       ["med-idle-01"; "med-idle-02"]
         !! (randbits_at (env demo_world_bits1) (tick demo_world_bits1)
               `mod` length ["med-idle-01"; "med-idle-02"])%nat = Some x).
Proof.
  apply (calculate_weighted_selection_member
           ["med-idle-01"; "med-idle-02"] demo_world_bits1).
  - discriminate.
  - intros x Hx. apply list_elem_of_In in Hx. simpl in Hx.
    destruct Hx as [<-|[<-|[]]].
    + exists med_idle_01. split; [reflexivity|]. exists 0%float. reflexivity.
    + exists med_idle_02. split; [reflexivity|]. exists 0%float. reflexivity.
Defined.

(** Two NMs of weight 0: the weights sum to 0 and the fallback answers with
    the element at the drawn position, here position 1. *)
Example calculate_weighted_selection_zero_weights :
  (py_sum [0; 0] =? 0)%float = true /\
  weigh_candidates (nm_registry (router demo_world_bits1))
    ["med-idle-01"; "med-idle-02"]
    = Ok [("med-idle-01", 0%float); ("med-idle-02", 0%float)] /\
  calculate_weighted_selection ["med-idle-01"; "med-idle-02"] demo_world_bits1
    = Ok (Some "med-idle-02", next_tick demo_world_bits1).
Proof. repeat split; vm_compute; reflexivity. Qed.

(** C9. On a list of exactly one registered NM whose effective weight is
    defined, [calculate_weighted_selection] returns that NM, for every
    state of the environment, hence for every draw; this holds for every
    effective weight, the nonzero ones included. *)
Theorem calculate_weighted_selection_single (x : string) (nm : NarrowModel)
    (wt : float) (w : World) :
  nm_registry (router w) !! x = Some nm ->
  effective_weight nm = Ok wt ->
  calculate_weighted_selection [x] w = Ok (Some x, next_tick w).
Proof.
  intros Hreg Hwt.
  assert (weighable (nm_registry (router w)) [x]) as Hw.
  { intros y Hy. apply list_elem_of_singleton in Hy. subst y.
    exists nm. split; [exact Hreg|]. apply effective_weight_defined.
    exists wt. exact Hwt. }
  destruct (calculate_weighted_selection_total [x] w Hw) as (o & w' & Hrun).
  destruct (calculate_weighted_selection_returns _ _ _ _ Hrun)
    as (-> & y & -> & Hy).
  apply list_elem_of_singleton in Hy. subst y. exact Hrun.
Qed.

Lemma calculate_weighted_selection_single_witness :
  calculate_weighted_selection ["med-cardio-01"] demo_world
    = Ok (Some "med-cardio-01", next_tick demo_world).
Proof.
  apply (calculate_weighted_selection_single
           "med-cardio-01" med_cardio_01 0.59849999999999992%float demo_world).
  - reflexivity.
  - vm_compute. reflexivity.
Defined.

(** ** Health refresh *)

Lemma refreshed_refl (r : ADPRouter) : refreshed r r.
Proof. reflexivity. Qed.

Lemma refreshed_trans (r1 r2 r3 : ADPRouter) :
  refreshed r1 r2 -> refreshed r2 r3 -> refreshed r1 r3.
Proof. unfold refreshed. intros H12 H23. rewrite H23. exact H12. Qed.

Lemma refreshed_indices (r r' : ADPRouter) :
  refreshed r r' -> round_robin_indices r' = round_robin_indices r.
Proof. intros H. apply (f_equal round_robin_indices) in H. exact H. Qed.

Lemma refreshed_interval (r r' : ADPRouter) :
  refreshed r r' -> health_check_interval r' = health_check_interval r.
Proof. intros H. apply (f_equal health_check_interval) in H. exact H. Qed.

Lemma refreshed_lookup (r r' : ADPRouter) (nm_id : string) :
  refreshed r r' ->
  forget_health <$> nm_registry r' !! nm_id = forget_health <$> nm_registry r !! nm_id.
Proof.
  intros H. apply (f_equal nm_registry) in H. simpl in H.
  rewrite <- !lookup_fmap. rewrite H. reflexivity.
Qed.

Lemma refreshed_is_Some (r r' : ADPRouter) (nm_id : string) :
  refreshed r r' ->
  is_Some (nm_registry r' !! nm_id) <-> is_Some (nm_registry r !! nm_id).
Proof.
  intros H. pose proof (refreshed_lookup _ _ nm_id H) as Hl.
  rewrite <- (fmap_is_Some forget_health (nm_registry r' !! nm_id)).
  rewrite <- (fmap_is_Some forget_health (nm_registry r !! nm_id)).
  rewrite Hl. reflexivity.
Qed.

Lemma refreshed_field {A} (f : NarrowModel -> A) (r r' : ADPRouter) (nm_id : string) :
  (forall nm, f (forget_health nm) = f nm) ->
  refreshed r r' ->
  f <$> nm_registry r' !! nm_id = f <$> nm_registry r !! nm_id.
Proof.
  intros Hf H. pose proof (refreshed_lookup _ _ nm_id H) as Hl.
  destruct (nm_registry r' !! nm_id) as [nm'|], (nm_registry r !! nm_id) as [nm|];
    try discriminate; [|reflexivity].
  apply (inj Some) in Hl. cbn [fmap option_fmap option_map].
  rewrite <- (Hf nm'), <- (Hf nm), Hl. reflexivity.
Qed.

Lemma refreshed_load_of (r r' : ADPRouter) (nm_id : string) :
  refreshed r r' -> load_of r' nm_id = load_of r nm_id.
Proof. apply refreshed_field. reflexivity. Qed.

Lemma refreshed_ratios_defined (r r' : ADPRouter) :
  refreshed r r' -> ratios_defined r -> ratios_defined r'.
Proof.
  intros H Hr nm_id nm' Hnm'.
  pose proof (refreshed_lookup _ _ nm_id H) as Hl. rewrite Hnm' in Hl.
  destruct (nm_registry r !! nm_id) as [nm|] eqn:Hnm; [|discriminate].
  apply (inj Some) in Hl. rename Hl into Heq.
  specialize (Hr _ _ Hnm). unfold load_ratio_defined in *.
  change (exists q, py_truediv (current_load (forget_health nm'))
                     (max_concurrent (forget_health nm')) = Ok q).
  rewrite Heq. exact Hr.
Qed.

(** Writing back a registered NM with other health fields is a refresh. *)
Lemma refreshed_insert (r : ADPRouter) (nm_id : string) (nm nm' : NarrowModel) :
  nm_registry r !! nm_id = Some nm ->
  forget_health nm' = forget_health nm ->
  refreshed r (set_registry (<[nm_id := nm']> (nm_registry r)) r).
Proof.
  intros Hnm Heq. unfold refreshed, forget_router_health, set_registry. simpl.
  f_equal. rewrite fmap_insert. apply insert_id.
  rewrite lookup_fmap, Hnm. simpl. rewrite Heq. reflexivity.
Qed.

(** A health check of a registered NM: one clock read, one draw, and the
    two health fields written. *)
Lemma perform_health_check_registered (nm_id : string) (nm : NarrowModel) (w : World) :
  nm_registry (router w) !! nm_id = Some nm ->
  exists st,
    perform_health_check nm_id w
      = Ok (bool_decide (st = HEALTHY), mkWorld
                 (set_registry
                    (<[nm_id := set_last_health_check (time_at (env w) (tick w))
                                  (set_status st nm)]> (nm_registry (router w)))
                    (router w))
                 (env w) (S (S (tick w)))) /\
    ((0.05 <? random_at (env w) (S (tick w)))%float = false -> st = UNAVAILABLE).
Proof.
  intros Hnm. unfold perform_health_check.
  unfold bind at 1, get_router. rewrite Hnm.
  unfold bind at 1, time_time. unfold bind at 1, random_random. simpl.
  match goal with |- context [set_status ?s] => set (st := s) end.
  unfold bind at 1, registry_update at 1, bind at 1, registry_get at 1. simpl.
  rewrite Hnm. unfold bind at 1, get_router, put_router. simpl.
  unfold bind at 1, registry_update at 1, bind at 1, registry_get at 1. simpl.
  rewrite lookup_insert_eq. unfold bind at 1, get_router, put_router. simpl.
  unfold bind at 1, registry_get at 1. simpl. rewrite lookup_insert_eq.
  unfold ret. rewrite insert_insert_eq.
  exists st. split; [reflexivity|].
  intros Hu. subst st. rewrite Hu. reflexivity.
Qed.

Lemma perform_health_check_refreshed (nm_id : string) (w : World) :
  exists b w',
    perform_health_check nm_id w = Ok (b, w') /\
    env w' = env w /\ refreshed (router w) (router w').
Proof.
  destruct (nm_registry (router w) !! nm_id) as [nm|] eqn:Hnm.
  - destruct (perform_health_check_registered _ _ _ Hnm) as (st & Hrun & _).
    eexists _, _. split; [exact Hrun|]. split; [reflexivity|].
    simpl. eapply refreshed_insert; [exact Hnm | reflexivity].
  - exists false, w. unfold perform_health_check, bind, get_router.
    rewrite Hnm. split; [reflexivity|]. split; reflexivity.
Qed.

(** The loop of [get_healthy_nms_in_domain] always returns; it appends
    registered members of the pool and only refreshes health fields. *)
Lemma healthy_loop_spec (pool : list string) :
  forall (acc : list string) (w : World),
  exists extra w',
    healthy_loop pool acc w = Ok (acc ++ extra, w') /\
    env w' = env w /\
    refreshed (router w) (router w') /\
    (forall x, x ∈ extra -> x ∈ pool /\ is_Some (nm_registry (router w) !! x)).
Proof.
  induction pool as [|nm_id rest IH]; intros acc w.
  - exists [], w. simpl. unfold ret. rewrite app_nil_r.
    split; [reflexivity|]. split; [reflexivity|]. split; [apply refreshed_refl|].
    intros x Hx. inversion Hx.
  - simpl. unfold bind at 1, get_router.
    destruct (nm_registry (router w) !! nm_id) as [nm|] eqn:Hnm.
    + unfold bind at 1, time_time.
      set (w1 := mkWorld (router w) (env w) (S (tick w))).
      assert (exists b w2,
                 (if (health_check_interval (router w)
                        <? time_at (env w) (tick w) - last_health_check nm)%float
                  then perform_health_check nm_id else ret false) w1 = Ok (b, w2) /\
                 env w2 = env w /\ refreshed (router w) (router w2))
        as (b & w2 & Hcheck & Henv2 & Href2).
      { destruct (_ <? _)%float.
        - destruct (perform_health_check_refreshed nm_id w1) as (b & w2 & H1 & H2 & H3).
          exists b, w2. auto.
        - exists false, w1. unfold ret. split; [reflexivity|].
          split; [reflexivity | apply refreshed_refl]. }
      unfold bind at 1. rewrite Hcheck.
      assert (is_Some (nm_registry (router w2) !! nm_id)) as [nm' Hnm'].
      { apply (refreshed_is_Some _ _ nm_id Href2). eauto. }
      unfold bind at 1, registry_get. rewrite Hnm'.
      destruct (routable (status nm')).
      * destruct (IH (acc ++ [nm_id]) w2) as (extra & w' & Hrun & Henv & Href & Hex).
        exists (nm_id :: extra), w'. rewrite Hrun. rewrite <- app_assoc. simpl.
        split; [reflexivity|]. split; [congruence|].
        split; [eapply refreshed_trans; eauto|].
        intros x Hx. apply elem_of_cons in Hx. destruct Hx as [->|Hx].
        -- split; [left | eauto].
        -- destruct (Hex x Hx) as [Hin Hsome]. split; [right; exact Hin|].
           apply (refreshed_is_Some _ _ x Href2). exact Hsome.
      * destruct (IH acc w2) as (extra & w' & Hrun & Henv & Href & Hex).
        exists extra, w'. rewrite Hrun.
        split; [reflexivity|]. split; [congruence|].
        split; [eapply refreshed_trans; eauto|].
        intros x Hx. destruct (Hex x Hx) as [Hin Hsome]. split; [right; exact Hin|].
        apply (refreshed_is_Some _ _ x Href2). exact Hsome.
    + destruct (IH acc w) as (extra & w' & Hrun & Henv & Href & Hex).
      exists extra, w'. split; [exact Hrun|]. split; [exact Henv|].
      split; [exact Href|].
      intros x Hx. destruct (Hex x Hx) as [Hin Hsome]. split; [right; exact Hin|].
      exact Hsome.
Qed.

(** [get_healthy_nms_in_domain] always returns; its answer holds registered
    members of the domain's pool, and the router is the same up to a health
    refresh. *)
Lemma get_healthy_nms_in_domain_spec (d : Domain) (w : World) :
  exists l w',
    get_healthy_nms_in_domain d w = Ok (l, w') /\
    env w' = env w /\
    refreshed (router w) (router w') /\
    (forall x, x ∈ l ->
       x ∈ default [] (domain_pools (router w) !! d) /\
       is_Some (nm_registry (router w) !! x)).
Proof.
  unfold get_healthy_nms_in_domain, bind, get_router.
  destruct (domain_pools (router w) !! d) as [pool|].
  - destruct (healthy_loop_spec pool [] w) as (extra & w' & Hrun & Henv & Href & Hex).
    exists extra, w'. simpl in Hrun. auto.
  - exists [], w. unfold ret. split; [reflexivity|]. split; [reflexivity|].
    split; [apply refreshed_refl|]. intros x Hx. inversion Hx.
Qed.

(** The exceptions of the selection are those of the registry lookup, of
    the load ratio and of indexing. *)
Lemma py_index_raises {A} (l : list A) (i : Z) (e : PyExn) :
  py_index l i = Raise e tt -> e = IndexError.
Proof.
  unfold py_index. destruct (decide _); [destruct (l !! _)|];
    intros H; inversion H; reflexivity.
Qed.

Lemma weigh_candidates_raises (reg : gmap string NarrowModel) (nm_ids : list string)
    (e : PyExn) :
  weigh_candidates reg nm_ids = Raise e tt -> e <> FuelExhausted.
Proof.
  induction nm_ids as [|x rest IH]; simpl; [discriminate|].
  destruct (reg !! x) as [nm|]; [|intros H; inversion H; discriminate].
  unfold effective_weight, py_truediv.
  destruct (decide (max_concurrent nm = 0)); [intros H; inversion H; discriminate|].
  destruct (SpecFloat.SFdiv _ _ _ _);
    try (intros H; inversion H; discriminate);
    destruct (weigh_candidates reg rest); try discriminate;
    intros H; inversion H; subst; apply IH; reflexivity.
Qed.

Lemma calculate_weighted_selection_raises (nm_ids : list string) (w w' : World)
    (e : PyExn) :
  calculate_weighted_selection nm_ids w = Raise e w' ->
  e <> FuelExhausted /\ router w' = router w /\ env w' = env w.
Proof.
  unfold calculate_weighted_selection. intros Hsel.
  destruct nm_ids as [|c cs]; [discriminate|].
  remember (c :: cs) as ids.
  unfold bind at 1, get_router in Hsel.
  unfold bind at 1, lift_result at 1 in Hsel.
  destruct (weigh_candidates _ _) as [wc|e' []] eqn:Hwc.
  - destruct (_ =? _)%float.
    + unfold bind, random_choice, bind, randbelow, lift_result in Hsel.
      destruct (py_index _ _) as [x|e' []] eqn:Hix; [discriminate|].
      inversion Hsel; subst e' w'. apply py_index_raises in Hix. subst e.
      split; [discriminate|]. split; reflexivity.
    + unfold bind at 1, random_uniform, bind at 1, random_random, ret in Hsel.
      destruct (pick_cumulative _ _ _); [discriminate|].
      unfold bind, lift_result in Hsel.
      destruct (py_index _ _) as [x|e' []] eqn:Hix; [discriminate|].
      inversion Hsel; subst e' w'. apply py_index_raises in Hix. subst e.
      split; [discriminate|]. split; reflexivity.
  - inversion Hsel; subst e' w'.
    split; [eapply weigh_candidates_raises; exact Hwc|]. split; reflexivity.
Qed.

(** ** Validation set *)

Lemma list_remove_elem (x v : string) (l : list string) :
  v ∈ list_remove x l -> v ∈ l.
Proof.
  induction l as [|y l IH]; simpl; [auto|].
  destruct (decide (x = y)).
  - intros H. right. exact H.
  - intros H. apply elem_of_cons in H. destruct H as [->|H]; [left | right; auto].
Qed.

Lemma mem_false (x : string) (l : list string) : mem x l = false <-> x ∉ l.
Proof. unfold mem. rewrite bool_decide_eq_false. reflexivity. Qed.

(** The [while] loop: when it returns, the router and the environment are
    untouched and the validators are the given ones followed by distinct
    new ones taken from the candidates, [max_validators] at most in all.
    It raises only when a candidate cannot be weighed, and never for lack
    of fuel. *)
Lemma validation_loop_spec (fuel max_validators : nat) :
  forall (candidates validators : list string) (w : World),
  (max_validators <= fuel + length validators)%nat ->
  NoDup validators ->
  match validation_loop fuel max_validators candidates validators w with
  | Ok (vs, w') =>
      router w' = router w /\ env w' = env w /\
      NoDup vs /\
      (length vs <= Nat.max max_validators (length validators))%nat /\
      (forall v, v ∈ vs -> v ∈ validators \/ v ∈ candidates)
  | Raise e w' =>
      e <> FuelExhausted /\ ~ weighable (nm_registry (router w)) candidates /\
      router w' = router w /\ env w' = env w
  end.
Proof.
  induction fuel as [|fuel IH]; intros candidates validators w Hfuel Hnd.
  - simpl. destruct (decide _) as [Hlt|Hge]; [lia|].
    unfold ret. repeat split; auto. lia.
  - simpl. destruct (decide _) as [Hlt|Hge].
    2:{ unfold ret. repeat split; auto. lia. }
    unfold bind at 1.
    destruct (calculate_weighted_selection candidates w) as [[o w1]|e w1] eqn:Hsel.
    2:{ destruct (calculate_weighted_selection_raises _ _ _ _ Hsel) as (He & Hr & Hv).
        split; [exact He|]. split; [|split; assumption].
        intros Hw. destruct (calculate_weighted_selection_total _ w Hw)
            as (o & w2 & Hrun). congruence. }
    pose proof (calculate_weighted_selection_returns _ _ _ _ Hsel) as Hret.
    destruct candidates as [|c cs]; [simpl in Hlt; lia|].
    destruct Hret as (-> & v & -> & Hv).
    destruct (truthy (Some v) && negb (mem v validators)) eqn:Hok.
    + apply andb_true_iff in Hok. destruct Hok as [_ Hnew].
      apply negb_true_iff, mem_false in Hnew.
      specialize (IH (list_remove v (c :: cs)) (validators ++ [v]) (next_tick w)).
      rewrite length_app in IH. simpl in IH.
      destruct (validation_loop _ _ _ _ _) as [[vs w']|e w'].
      * destruct IH as (Hr & He & Hnd' & Hlen & Hin); [lia | |].
        { apply NoDup_app. split; [exact Hnd|]. split.
          - intros x Hx Hx'. apply list_elem_of_singleton in Hx'. subst x. auto.
          - apply NoDup_singleton. }
        repeat split; auto.
        -- lia.
        -- intros x Hx. destruct (Hin x Hx) as [Hx'|Hx'].
           ++ apply elem_of_app in Hx'. destruct Hx' as [Hx'|Hx']; [left; exact Hx'|].
              apply list_elem_of_singleton in Hx'. subst x. right. exact Hv.
           ++ right. eapply list_remove_elem. exact Hx'.
      * destruct IH as (Hne & Hnw & Hr & He); [lia | |].
        { apply NoDup_app. split; [exact Hnd|]. split.
          - intros x Hx Hx'. apply list_elem_of_singleton in Hx'. subst x. auto.
          - apply NoDup_singleton. }
        split; [exact Hne|]. split; [|split; assumption].
        intros Hw. apply Hnw.
        intros x Hx. apply Hw. eapply list_remove_elem. exact Hx.
    + unfold ret. repeat split; auto. lia.
Qed.

(** ** Configuration is never changed by routing *)

Lemma same_static_refl (r : ADPRouter) : same_static r r.
Proof. reflexivity. Qed.

Lemma same_static_trans (r1 r2 r3 : ADPRouter) :
  same_static r1 r2 -> same_static r2 r3 -> same_static r1 r3.
Proof. unfold same_static. intros H12 H23. rewrite H23. exact H12. Qed.

Lemma refreshed_same_static (r r' : ADPRouter) :
  refreshed r r' -> same_static r r'.
Proof.
  unfold refreshed, same_static. intros H.
  assert (forall x, forget_router_dynamic (forget_router_health x)
                    = forget_router_dynamic x) as Hx.
  { intros x. unfold forget_router_dynamic, forget_router_health, set_indices,
      set_registry. simpl. f_equal. rewrite <- map_fmap_compose.
    apply map_fmap_ext. intros i nm _. reflexivity. }
  rewrite <- (Hx r'), <- (Hx r), H. reflexivity.
Qed.

Lemma same_static_pools (r r' : ADPRouter) :
  same_static r r' -> domain_pools r' = domain_pools r.
Proof. intros H. apply (f_equal domain_pools) in H. exact H. Qed.

Lemma same_static_lookup (r r' : ADPRouter) (nm_id : string) :
  same_static r r' ->
  forget_dynamic <$> nm_registry r' !! nm_id
  = forget_dynamic <$> nm_registry r !! nm_id.
Proof.
  intros H. apply (f_equal nm_registry) in H. simpl in H.
  rewrite <- !lookup_fmap. rewrite H. reflexivity.
Qed.

Lemma same_static_is_Some (r r' : ADPRouter) (nm_id : string) :
  same_static r r' ->
  is_Some (nm_registry r' !! nm_id) <-> is_Some (nm_registry r !! nm_id).
Proof.
  intros H. pose proof (same_static_lookup _ _ nm_id H) as Hl.
  rewrite <- (fmap_is_Some forget_dynamic (nm_registry r' !! nm_id)).
  rewrite <- (fmap_is_Some forget_dynamic (nm_registry r !! nm_id)).
  rewrite Hl. reflexivity.
Qed.

Lemma same_static_pools_registered (r r' : ADPRouter) :
  same_static r r' -> pools_registered r -> pools_registered r'.
Proof.
  intros H Hp d pool nm_id Hpool Hin.
  rewrite (same_static_pools _ _ H) in Hpool.
  apply (same_static_is_Some _ _ nm_id H). eapply Hp; eauto.
Qed.

(** Writing back a registered NM with the same configuration. *)
Lemma same_static_insert (r : ADPRouter) (nm_id : string) (nm nm' : NarrowModel) :
  nm_registry r !! nm_id = Some nm ->
  forget_dynamic nm' = forget_dynamic nm ->
  same_static r (set_registry (<[nm_id := nm']> (nm_registry r)) r).
Proof.
  intros Hnm Heq. unfold same_static, forget_router_dynamic, set_registry,
    set_indices. simpl.
  f_equal. rewrite fmap_insert. apply insert_id.
  rewrite lookup_fmap, Hnm. simpl. rewrite Heq. reflexivity.
Qed.

Lemma same_static_set_indices (r : ADPRouter) (ix : gmap Domain Z) :
  same_static r (set_indices ix r).
Proof. reflexivity. Qed.

(** ** Outcomes of the selection steps *)

Lemma calculate_weighted_selection_wp (nm_ids : list string) (w : World) :
  nm_ids <> [] ->
  wp (calculate_weighted_selection nm_ids) w
     (fun o w' => w' = next_tick w /\ exists x, o = Some x /\ x ∈ nm_ids)
     (fun e w' => e <> FuelExhausted /\
                  ~ weighable (nm_registry (router w)) nm_ids /\
                  router w' = router w /\ env w' = env w).
Proof.
  intros Hne. unfold wp.
  destruct (calculate_weighted_selection nm_ids w) as [[o w']|e w'] eqn:Hrun.
  - apply calculate_weighted_selection_returns in Hrun.
    destruct nm_ids; [congruence | exact Hrun].
  - destruct (calculate_weighted_selection_raises _ _ _ _ Hrun) as (He & Hr & Hv).
    split; [exact He|]. split; [|split; assumption].
    intros Hw. destruct (calculate_weighted_selection_total _ w Hw) as (o & w2 & H).
    congruence.
Qed.

Lemma round_robin_selection_wp (nm_ids : list string) (d : Domain) (w : World) :
  nm_ids <> [] ->
  wp (round_robin_selection nm_ids d) w
     (fun o w' => exists x c,
        o = Some x /\ x ∈ nm_ids /\ 0 <= c /\ w' = with_cursor w d c)
     (fun e w' => e <> FuelExhausted /\ cursor w d < 0 /\ w' = w).
Proof.
  intros Hne. destruct (decide (0 <= cursor w d)) as [Hc|Hc].
  - destruct (round_robin_selection_step nm_ids d w Hne Hc) as (x & Hx & Hrun).
    eapply wp_Ok; [exact Hrun|]. eexists x, _.
    split; [reflexivity|]. split; [eapply list_elem_of_lookup_2; exact Hx|].
    split; [|reflexivity].
    apply Z.mod_pos_bound. destruct nm_ids; simpl; [congruence | lia].
  - unfold wp, round_robin_selection. destruct nm_ids as [|a l]; [congruence|].
    remember (a :: l) as ids eqn:Hids.
    unfold bind at 1, get_router. fold (cursor w d).
    unfold bind at 1, lift_result.
    destruct (py_index ids _) as [x|e []] eqn:Hix.
    + unfold bind, put_router, ret. simpl. eexists x, _.
      split; [reflexivity|]. split; [eapply py_index_elem; exact Hix|].
      split; [|reflexivity].
      apply Z.mod_pos_bound. subst ids. simpl. lia.
    + apply py_index_raises in Hix. subst e.
      split; [discriminate|]. split; [lia | reflexivity].
Qed.

Lemma weighable_registered (r : ADPRouter) (nm_ids : list string) :
  ratios_defined r ->
  (forall x, x ∈ nm_ids -> is_Some (nm_registry r !! x)) ->
  weighable (nm_registry r) nm_ids.
Proof.
  intros Hr Hreg x Hx. destruct (Hreg x Hx) as [nm Hnm].
  exists nm. split; [exact Hnm|]. eapply Hr. exact Hnm.
Qed.

(** [_select_validation_nms]: distinct ids, [max_validators] at most, none
    of them excluded, all registered members of the domain's pool; only
    health fields of the router change. *)
Lemma select_validation_nms_wp (request : RoutingRequest)
    (exclude : list (option string)) (max_validators : nat) (w : World) :
  wp (_select_validation_nms request exclude max_validators) w
     (fun vs w' =>
        env w' = env w /\ refreshed (router w) (router w') /\
        NoDup vs /\ (length vs <= max_validators)%nat /\
        forall v, v ∈ vs ->
          (Some v ∉ exclude) /\
          v ∈ default [] (domain_pools (router w) !! req_domain request) /\
          is_Some (nm_registry (router w) !! v))
     (fun e w' => e <> FuelExhausted /\ ~ ratios_defined (router w) /\
                  env w' = env w /\ refreshed (router w) (router w')).
Proof.
  unfold _select_validation_nms. apply wp_bind.
  destruct (get_healthy_nms_in_domain_spec (req_domain request) w)
    as (l & w1 & Hrun & Henv & Href & Hl).
  eapply wp_Ok; [exact Hrun|].
  set (candidates := filter (fun nm_id => Some nm_id ∉ exclude) l).
  assert (forall v, v ∈ candidates ->
            (Some v ∉ exclude) /\
            v ∈ default [] (domain_pools (router w) !! req_domain request) /\
            is_Some (nm_registry (router w) !! v)) as Hcand.
  { intros v Hv. apply list_elem_of_filter in Hv. destruct Hv as [Hex Hv].
    split; [exact Hex|]. apply Hl. exact Hv. }
  destruct candidates as [|c cs] eqn:Hc.
  - apply wp_ret. split; [exact Henv|]. split; [exact Href|].
    split; [constructor|]. split; [simpl; lia|].
    intros v Hv. inversion Hv.
  - rewrite <- Hc in *. clear Hc.
    pose proof (validation_loop_spec max_validators max_validators candidates [] w1)
      as Hloop.
    unfold wp. destruct (validation_loop _ _ _ _ _) as [[vs w']|e w'].
    + destruct Hloop as (Hr & He & Hnd & Hlen & Hin); [simpl; lia | constructor |].
      split; [congruence|]. split; [rewrite Hr; exact Href|].
      split; [exact Hnd|]. split; [simpl in Hlen; lia|].
      intros v Hv. destruct (Hin v Hv) as [Hv'|Hv']; [inversion Hv'|].
      apply Hcand. exact Hv'.
    + destruct Hloop as (Hne & Hnw & Hr' & He'); [simpl; lia | constructor |].
      split; [exact Hne|].
      split; [|split; [congruence | rewrite Hr'; exact Href]].
      intros Hr. apply Hnw.
      apply weighable_registered.
      * eapply refreshed_ratios_defined; eauto.
      * intros x Hx. apply (refreshed_is_Some _ _ x Href). apply Hcand. exact Hx.
Qed.

(** Primary selection on a non-empty list of registered ids: the primary is
    a member of the list; the step touches nothing but the cursors, also
    when it raises. *)
Lemma select_primary_wp (request : RoutingRequest) (available_nms : list string)
    (w : World) :
  available_nms <> [] ->
  (forall x, x ∈ available_nms -> is_Some (nm_registry (router w) !! x)) ->
  wp (select_primary request available_nms) w
     (fun sel w' =>
        exists p ix,
          fst sel = Some p /\ p ∈ available_nms /\
          env w' = env w /\
          router w' = set_indices ix (router w) /\
          (cursors_nonneg (router w) -> forall d c, ix !! d = Some c -> 0 <= c))
     (fun e w' =>
        e <> FuelExhausted /\
        (~ ratios_defined (router w) \/ cursor w (req_domain request) < 0) /\
        env w' = env w /\
        exists ix,
          router w' = set_indices ix (router w) /\
          (cursors_nonneg (router w) -> forall d c, ix !! d = Some c -> 0 <= c)).
Proof.
  intros Hne Hreg. unfold select_primary.
  assert (forall r : ADPRouter, r = set_indices (round_robin_indices r) r)
    as Hself by (intros []; reflexivity).
  assert (forall (d : Domain) (c : Z) (w0 : World),
            0 <= c -> cursors_nonneg (router w0) ->
            forall d' c', <[d := c]> (round_robin_indices (router w0)) !! d' = Some c' ->
                          0 <= c') as Hins.
  { intros d c w0 Hc Hnn d' c' Hl. destruct (decide (d = d')) as [->|Hd].
    - rewrite lookup_insert_eq in Hl. congruence.
    - rewrite lookup_insert_ne in Hl by exact Hd. eapply Hnn. exact Hl. }
  destruct (String.eqb (priority request) "urgent").
  { apply wp_bind.
    eapply wp_mono; [apply calculate_weighted_selection_wp; exact Hne | |].
    - intros o w' (-> & x & -> & Hx). apply wp_ret.
      exists x, (round_robin_indices (router w)). simpl.
      split; [reflexivity|]. split; [exact Hx|]. split; [reflexivity|].
      split; [apply Hself|]. intros Hnn. exact Hnn.
    - intros e w' (He & Hw & Hr & Hv). split; [exact He|].
      split; [left; intros Hr0; apply Hw; apply weighable_registered; assumption|].
      split; [exact Hv|]. exists (round_robin_indices (router w)).
      split; [rewrite Hr; apply Hself|]. intros Hnn. exact Hnn. }
  destruct (String.eqb (priority request) "high").
  { apply wp_bind.
    eapply wp_mono; [apply round_robin_selection_wp; exact Hne | |].
    2:{ intros e w' (He & Hc & ->). split; [exact He|]. split; [right; exact Hc|].
        split; [reflexivity|]. exists (round_robin_indices (router w)).
        split; [apply Hself|]. intros Hnn. exact Hnn. }
    intros o w1 (x & c & -> & Hx & Hc & ->). apply wp_bind.
    eapply wp_mono; [apply calculate_weighted_selection_wp; exact Hne | |].
    2:{ intros e w' (He & Hw & Hr & Hv). split; [exact He|].
        split; [left; intros Hr0; apply Hw; apply weighable_registered;
                [exact Hr0 | exact Hreg]|].
        split; [exact Hv|].
        exists (<[req_domain request := c]> (round_robin_indices (router w))).
        split; [rewrite Hr; reflexivity|]. intros Hnn. apply Hins; assumption. }
    intros o w2 (-> & y & -> & Hy). apply wp_bind. apply wp_ret. apply wp_bind.
    set (w2 := next_tick (with_cursor w (req_domain request) c)).
    assert (wp (if decide (Some y <> Some x)
                then (w_key <~ as_key (Some y) ;; ret [x; w_key])
                else ret [x]) w2
               (fun top w' => w' = w2 /\ top <> [] /\ forall z, z ∈ top -> z ∈ available_nms)
               (fun _ _ => False)) as Htop.
    { destruct (decide (Some y <> Some x)).
      - apply wp_bind. apply wp_ret. apply wp_ret.
        split; [reflexivity|]. split; [discriminate|].
        intros z Hz. apply elem_of_cons in Hz. destruct Hz as [->|Hz]; [exact Hx|].
        apply list_elem_of_singleton in Hz. subst z. exact Hy.
      - apply wp_ret. split; [reflexivity|]. split; [discriminate|].
        intros z Hz. apply list_elem_of_singleton in Hz. subst z. exact Hx. }
    eapply wp_mono; [exact Htop | | intros e w' []].
    intros top w' (-> & Htne & Htop'). apply wp_bind.
    eapply wp_mono; [apply calculate_weighted_selection_wp; exact Htne | |].
    - intros o w' (-> & p & -> & Hp). apply wp_ret.
      exists p, (<[req_domain request := c]> (round_robin_indices (router w))).
      split; [reflexivity|]. split; [apply Htop'; exact Hp|].
      split; [reflexivity|]. split; [reflexivity|].
      intros Hnn. apply Hins; assumption.
    - intros e w' (He & Hw & Hr & Hv). split; [exact He|].
      split.
      { left. intros Hr0. apply Hw. apply weighable_registered; [exact Hr0|].
        intros z Hz. apply Hreg. apply Htop'. exact Hz. }
      split; [exact Hv|].
      exists (<[req_domain request := c]> (round_robin_indices (router w))).
      split; [rewrite Hr; reflexivity|]. intros Hnn. apply Hins; assumption. }
  apply wp_bind.
  eapply wp_mono; [apply round_robin_selection_wp; exact Hne | |].
  - intros o w1 (x & c & -> & Hx & Hc & ->). apply wp_ret.
    exists x, (<[req_domain request := c]> (round_robin_indices (router w))).
    split; [reflexivity|]. split; [exact Hx|].
    split; [reflexivity|]. split; [reflexivity|].
    intros Hnn. apply Hins; assumption.
  - intros e w' (He & Hc & ->). split; [exact He|]. split; [right; exact Hc|].
    split; [reflexivity|]. exists (round_robin_indices (router w)).
    split; [apply Hself|]. intros Hnn. exact Hnn.
Qed.

(** ** Load accounting *)

Lemma fmap_add_zero (o : option Z) : (fun n => n + 0) <$> o = o.
Proof. destruct o; simpl; [f_equal; lia | reflexivity]. Qed.

Lemma registry_update_run (nm_id : string) (f : NarrowModel -> NarrowModel)
    (nm : NarrowModel) (w : World) :
  nm_registry (router w) !! nm_id = Some nm ->
  registry_update nm_id f w
  = Ok (tt, mkWorld (set_registry (<[nm_id := f nm]> (nm_registry (router w)))
                       (router w)) (env w) (tick w)).
Proof.
  intros Hnm. unfold registry_update, bind, registry_get, get_router, put_router.
  rewrite Hnm. reflexivity.
Qed.

Lemma load_of_insert (r : ADPRouter) (k id : string) (nm : NarrowModel) (n : Z) :
  nm_registry r !! k = Some nm ->
  load_of (set_registry (<[k := set_current_load n nm]> (nm_registry r)) r) id
  = if decide (id = k) then Some n else load_of r id.
Proof.
  intros Hnm. unfold load_of. simpl. destruct (decide (id = k)) as [->|Hne].
  - rewrite lookup_insert_eq. reflexivity.
  - rewrite lookup_insert_ne by congruence. reflexivity.
Qed.

Lemma increment_load_spec (k : string) (nm : NarrowModel) (w : World) :
  nm_registry (router w) !! k = Some nm ->
  exists w',
    increment_load k w = Ok (tt, w') /\
    env w' = env w /\
    round_robin_indices (router w') = round_robin_indices (router w) /\
    same_static (router w) (router w') /\
    forall id, load_of (router w') id
               = (fun n => n + (if decide (id = k) then 1 else 0))
                   <$> load_of (router w) id.
Proof.
  intros Hnm. unfold increment_load.
  rewrite (registry_update_run _ _ _ _ Hnm). eexists. split; [reflexivity|].
  split; [reflexivity|]. split; [reflexivity|].
  split; [apply (same_static_insert _ _ nm); [exact Hnm | reflexivity]|].
  intros id. simpl. rewrite (load_of_insert _ _ _ _ _ Hnm).
  destruct (decide (id = k)) as [->|Hne].
  - unfold load_of. rewrite Hnm. reflexivity.
  - rewrite fmap_add_zero. reflexivity.
Qed.

Lemma increment_validators_spec (vs : list string) :
  forall w : World,
  exists w',
    increment_validators vs w = Ok (tt, w') /\
    env w' = env w /\
    round_robin_indices (router w') = round_robin_indices (router w) /\
    same_static (router w) (router w') /\
    forall id, load_of (router w') id
               = (fun n => n + Z.of_nat (length (filter (eq id) vs)))
                   <$> load_of (router w) id.
Proof.
  induction vs as [|v rest IH]; intros w.
  - exists w. simpl. unfold ret. split; [reflexivity|]. split; [reflexivity|].
    split; [reflexivity|]. split; [apply same_static_refl|].
    intros id. rewrite fmap_add_zero. reflexivity.
  - simpl. unfold bind at 1, get_router.
    assert (exists w1,
               (match nm_registry (router w) !! v with
                | Some _ => increment_load v
                | None => ret tt
                end) w = Ok (tt, w1) /\
               env w1 = env w /\
               round_robin_indices (router w1) = round_robin_indices (router w) /\
               same_static (router w) (router w1) /\
               forall id, load_of (router w1) id
                          = (fun n => n + (if decide (id = v) then 1 else 0))
                              <$> load_of (router w) id)
      as (w1 & Hrun1 & Henv1 & Hix1 & Hst1 & Hld1).
    { destruct (nm_registry (router w) !! v) as [nm|] eqn:Hnm.
      - apply (increment_load_spec v nm w Hnm).
      - exists w. unfold ret. split; [reflexivity|]. split; [reflexivity|].
        split; [reflexivity|]. split; [apply same_static_refl|].
        intros id. destruct (decide (id = v)) as [->|Hne].
        + unfold load_of. rewrite Hnm. reflexivity.
        + rewrite fmap_add_zero. reflexivity. }
    unfold bind. rewrite Hrun1.
    destruct (IH w1) as (w' & Hrun & Henv & Hix & Hst & Hld).
    exists w'. split; [exact Hrun|]. split; [congruence|]. split; [congruence|].
    split; [eapply same_static_trans; eauto|].
    intros id. rewrite Hld, Hld1. rewrite <- option_fmap_compose.
    apply option_fmap_ext. intros n. unfold compose.
    rewrite filter_cons. destruct (decide (id = v)) as [->|Hne].
    + destruct (decide (v = v)); [|congruence]. simpl length. lia.
    + destruct (decide (id = v)); [congruence|]. lia.
Qed.

Lemma NoDup_count (id : string) (vs : list string) :
  NoDup vs ->
  Z.of_nat (length (filter (eq id) vs)) = if bool_decide (id ∈ vs) then 1 else 0.
Proof.
  induction 1 as [|v vs Hv Hnd IH].
  - reflexivity.
  - rewrite filter_cons. destruct (decide (id = v)) as [->|Hne].
    + rewrite bool_decide_eq_true_2 by left.
      rewrite bool_decide_eq_false_2 in IH by exact Hv. simpl length. lia.
    + rewrite IH. destruct (bool_decide (id ∈ vs)) eqn:Hin.
      * apply bool_decide_eq_true in Hin.
        rewrite bool_decide_eq_true_2 by (right; exact Hin). reflexivity.
      * apply bool_decide_eq_false in Hin. rewrite bool_decide_eq_false_2.
        -- reflexivity.
        -- intros Hc. apply elem_of_cons in Hc. destruct Hc; auto.
Qed.

(** ** [route_request] *)

Lemma cursors_nonneg_indices (r r' : ADPRouter) :
  round_robin_indices r' = round_robin_indices r ->
  cursors_nonneg r -> cursors_nonneg r'.
Proof. unfold cursors_nonneg. intros ->. auto. Qed.

Lemma route_request_preferred_wp (request : RoutingRequest) (w : World) (p : string) :
  preferred_usable (router w) request = Some p ->
  wp (route_request request) w (route_post request w) (route_exn request w).
Proof.
  intros Hpref. unfold route_request. apply wp_bind. unfold wp at 1, get_router.
  rewrite Hpref. unfold route_post. rewrite Hpref.
  destruct (require_validation request).
  - apply wp_bind.
    eapply wp_mono; [apply select_validation_nms_wp | |].
    + intros vs w' (Henv & Href & Hnd & Hlen & Hvs). apply wp_ret. simpl.
      split; [exact Henv|]. split; [apply refreshed_same_static; exact Href|].
      split; [apply cursors_nonneg_indices, refreshed_indices; exact Href|].
      split; [exact Hnd|]. split; [exact Hlen|].
      split.
      * intros v Hv. destruct (Hvs v Hv) as (Hex & Hpool & Hreg).
        split; [|split; assumption].
        intros Heq. apply Hex. rewrite <- Heq. left.
      * split; [reflexivity|]. intros nm_id. apply refreshed_load_of. exact Href.
    + intros e w' (He & Hr & Henv & Href). split; [exact He|].
      split; [left; exact Hr|]. split; [exact Henv|].
      split; [apply refreshed_same_static; exact Href|].
      split; [apply cursors_nonneg_indices, refreshed_indices; exact Href|].
      intros nm_id. apply refreshed_load_of. exact Href.
  - apply wp_ret. simpl.
    split; [reflexivity|]. split; [apply same_static_refl|]. split; [auto|].
    split; [constructor|]. split; [lia|].
    split; [intros v Hv; inversion Hv|]. split; reflexivity.
Qed.

Lemma route_request_pool_wp (request : RoutingRequest) (w : World) :
  preferred_usable (router w) request = None ->
  wp (route_request request) w (route_post request w) (route_exn request w).
Proof.
  intros Hpref. unfold route_request. apply wp_bind. unfold wp at 1, get_router.
  rewrite Hpref. unfold route_post. rewrite Hpref. apply wp_bind.
  destruct (get_healthy_nms_in_domain_spec (req_domain request) w)
    as (l & w1 & Hrun1 & Henv1 & Href1 & Hl).
  eapply wp_Ok; [exact Hrun1|].
  destruct l as [|a l'] eqn:Hlist.
  { apply wp_ret. simpl.
    split; [exact Henv1|]. split; [apply refreshed_same_static; exact Href1|].
    split; [apply cursors_nonneg_indices, refreshed_indices; exact Href1|].
    split; [constructor|]. split; [lia|].
    split; [intros v Hv; inversion Hv|].
    split; [intros p Hp; discriminate|].
    intros nm_id. rewrite (refreshed_load_of _ _ _ Href1).
    unfold bumps. simpl. rewrite fmap_add_zero. reflexivity. }
  cbv iota. rewrite <- Hlist in *.
  assert (l <> []) as Hne by (subst l; discriminate).
  clear Hlist a l'.
  assert (forall x, x ∈ l -> is_Some (nm_registry (router w1) !! x)) as Hreg1.
  { intros x Hx. apply (refreshed_is_Some _ _ x Href1). apply Hl. exact Hx. }
  apply wp_bind.
  eapply wp_mono; [apply (select_primary_wp request l w1 Hne Hreg1) | |].
  2:{ intros e w' (He & Hor & Henv' & ix & Hr' & Hix). split; [exact He|].
      split.
      { destruct Hor as [Hr|Hc].
        - left. intros Hr0. apply Hr. eapply refreshed_ratios_defined; eauto.
        - right. unfold cursor in *. rewrite (refreshed_indices _ _ Href1) in Hc.
          exact Hc. }
      split; [congruence|].
      split.
      { rewrite Hr'. eapply same_static_trans;
          [apply refreshed_same_static; exact Href1 | apply same_static_set_indices]. }
      split.
      { intros Hnn d c Hc. rewrite Hr' in Hc. simpl in Hc. eapply Hix; [|exact Hc].
        eapply cursors_nonneg_indices; [apply refreshed_indices; exact Href1 | exact Hnn]. }
      intros nm_id. rewrite Hr'. unfold load_of. simpl.
      apply (refreshed_load_of _ _ nm_id Href1). }
  intros [primary_nm method] w2 (p & ix & Hp & Hpl & Henv2 & Hr2 & Hix).
  simpl in Hp. subst primary_nm. simpl fst. simpl snd. apply wp_bind.
  assert (wp (if require_validation request
              then _select_validation_nms request [Some p] 2 else ret []) w2
             (fun vs w3 =>
                env w3 = env w2 /\ refreshed (router w2) (router w3) /\
                NoDup vs /\ (length vs <= 2)%nat /\
                forall v, v ∈ vs ->
                  (Some v ∉ [Some p]) /\
                  v ∈ default [] (domain_pools (router w2) !! req_domain request) /\
                  is_Some (nm_registry (router w2) !! v))
             (fun e w3 => e <> FuelExhausted /\ ~ ratios_defined (router w2) /\
                          env w3 = env w2 /\ refreshed (router w2) (router w3)))
    as Hval.
  { destruct (require_validation request).
    - apply select_validation_nms_wp.
    - apply wp_ret. split; [reflexivity|]. split; [apply refreshed_refl|].
      split; [constructor|]. split; [simpl; lia|]. intros v Hv. inversion Hv. }
  assert (same_static (router w) (router w2)) as Hst2.
  { rewrite Hr2. eapply same_static_trans;
      [apply refreshed_same_static; exact Href1 | apply same_static_set_indices]. }
  assert (forall id, load_of (router w2) id = load_of (router w) id) as Hld2.
  { intros id. rewrite Hr2. unfold load_of. simpl.
    apply (refreshed_load_of _ _ id Href1). }
  eapply wp_mono; [exact Hval | |].
  2:{ intros e w' (He & Hr & Henv' & Href'). split; [exact He|].
      split.
      { left. intros Hr0. apply Hr.
        rewrite Hr2. intros id nm Hnm. simpl in Hnm.
        eapply (refreshed_ratios_defined _ _ Href1 Hr0). exact Hnm. }
      split; [congruence|].
      split.
      { eapply same_static_trans; [exact Hst2|].
        apply refreshed_same_static. exact Href'. }
      split.
      { intros Hnn d c Hc. rewrite (refreshed_indices _ _ Href'), Hr2 in Hc.
        simpl in Hc. eapply Hix; [|exact Hc].
        eapply cursors_nonneg_indices; [apply refreshed_indices; exact Href1 | exact Hnn]. }
      intros nm_id. rewrite (refreshed_load_of _ _ _ Href'). apply Hld2. }
  intros vs w3 (Henv3 & Href3 & Hnd & Hlen & Hvs). apply wp_bind.
  assert (is_Some (nm_registry (router w3) !! p)) as [nmp Hnmp].
  { apply (refreshed_is_Some _ _ p Href3). rewrite Hr2. simpl. apply Hreg1. exact Hpl. }
  assert (exists w4,
             (if truthy (Some p) then (k <~ as_key (Some p) ;; increment_load k)
              else ret tt) w3 = Ok (tt, w4) /\
             env w4 = env w3 /\
             round_robin_indices (router w4) = round_robin_indices (router w3) /\
             same_static (router w3) (router w4) /\
             forall id, load_of (router w4) id
                        = (fun n => n + (if truthy (Some p) && bool_decide (Some p = Some id)
                                         then 1 else 0)) <$> load_of (router w3) id)
    as (w4 & Hrun4 & Henv4 & Hix4 & Hst4 & Hld4).
  { destruct (truthy (Some p)).
    - destruct (increment_load_spec p nmp w3 Hnmp) as (w4 & H1 & H2 & H3 & H4 & H5).
      exists w4. split; [exact H1|]. split; [exact H2|]. split; [exact H3|].
      split; [exact H4|]. intros id. rewrite H5. apply option_fmap_ext.
      intros n. simpl. destruct (decide (id = p)) as [->|Hne'].
      + rewrite bool_decide_eq_true_2 by reflexivity. reflexivity.
      + rewrite bool_decide_eq_false_2 by congruence. reflexivity.
    - exists w3. unfold ret. split; [reflexivity|]. split; [reflexivity|].
      split; [reflexivity|]. split; [apply same_static_refl|].
      intros id. simpl. rewrite fmap_add_zero. reflexivity. }
  eapply wp_Ok; [exact Hrun4|]. apply wp_bind.
  destruct (increment_validators_spec vs w4) as (w5 & Hrun5 & Henv5 & Hix5 & Hst5 & Hld5).
  eapply wp_Ok; [exact Hrun5|]. apply wp_ret. simpl.
  split; [congruence|].
  split.
  { eapply same_static_trans; [exact Hst2|].
    eapply same_static_trans; [apply refreshed_same_static; exact Href3|].
    eapply same_static_trans; eauto. }
  split.
  { intros Hnn d c Hc. rewrite Hix5, Hix4, (refreshed_indices _ _ Href3), Hr2 in Hc.
    simpl in Hc. eapply Hix; [|exact Hc].
    eapply cursors_nonneg_indices; [apply refreshed_indices; exact Href1 | exact Hnn]. }
  split; [exact Hnd|]. split; [exact Hlen|].
  assert (domain_pools (router w2) = domain_pools (router w)) as Hpools.
  { apply same_static_pools. exact Hst2. }
  split.
  { intros v Hv. destruct (Hvs v Hv) as (Hex & Hpool & Hreg).
    split; [intros Heq; apply Hex; rewrite <- Heq; left|].
    unfold pool_of. rewrite <- Hpools. split; [exact Hpool|].
    apply (same_static_is_Some _ _ v Hst2). exact Hreg. }
  split.
  { intros p' Hp'. inversion Hp'; subst p'. apply Hl. exact Hpl. }
  intros id. rewrite Hld5, Hld4, (refreshed_load_of _ _ _ Href3), Hld2.
  rewrite <- option_fmap_compose. apply option_fmap_ext. intros n.
  unfold compose, bumps. simpl. rewrite (NoDup_count _ _ Hnd). lia.
Qed.

(** The outcome of [route_request] on every path. *)
Lemma route_request_wp (request : RoutingRequest) (w : World) :
  wp (route_request request) w (route_post request w) (route_exn request w).
Proof.
  destruct (preferred_usable (router w) request) as [p|] eqn:Hpref.
  - eapply route_request_preferred_wp. exact Hpref.
  - apply route_request_pool_wp. exact Hpref.
Qed.

(** [route_request] returns whenever every registered NM has a defined load
    ratio and the cursor of the domain is not negative. *)
Lemma route_request_returns (request : RoutingRequest) (w : World) :
  ratios_defined (router w) ->
  0 <= cursor w (req_domain request) ->
  exists d w', route_request request w = Ok (d, w') /\ route_post request w d w'.
Proof.
  intros Hr Hc. eapply wp_total; [apply route_request_wp|].
  intros e w' (_ & [H|H] & _); [exact (H Hr) | lia].
Qed.

(** For any bound [max_validators], [_select_validation_nms] answers with
    distinct ids, at most [max_validators] of them, none excluded. *)
Lemma select_validation_nms_bounded (request : RoutingRequest)
    (exclude : list (option string)) (max_validators : nat) (w w' : World)
    (vs : list string) :
  _select_validation_nms request exclude max_validators w = Ok (vs, w') ->
  NoDup vs /\ (length vs <= max_validators)%nat /\
  forall v, v ∈ vs -> Some v ∉ exclude.
Proof.
  intros Hrun.
  pose proof (wp_returned _ _ _ _ _ _
                (select_validation_nms_wp request exclude max_validators w) Hrun)
    as (_ & _ & Hnd & Hlen & Hvs).
  split; [exact Hnd|]. split; [exact Hlen|]. intros v Hv. apply Hvs. exact Hv.
Qed.

(** C3. Whatever decision [route_request] returns, its validation list
    does not contain the primary, has no duplicate id and has at most
    [max_validators] = 2 entries. *)
Theorem route_request_validation_set (request : RoutingRequest) (w w' : World)
    (d : RoutingDecision) :
  route_request request w = Ok (d, w') ->
  (forall p, primary d = Some p -> p ∉ validation d) /\
  NoDup (validation d) /\
  (length (validation d) <= 2)%nat.
Proof.
  intros Hrun.
  pose proof (wp_returned _ _ _ _ _ _ (route_request_wp request w) Hrun)
    as (_ & _ & _ & Hnd & Hlen & Hvs & _).
  split; [|split; assumption].
  intros p Hp Hin. destruct (Hvs p Hin) as (Hne & _). congruence.
Qed.

Lemma route_request_validation_set_witness :
  exists d w',
    route_request (mkReq "req-001" MEDICAL "normal" None true) demo_world
      = Ok (d, w') /\
    (forall p, primary d = Some p -> p ∉ validation d) /\
    NoDup (validation d) /\
    (length (validation d) <= 2)%nat.
Proof.
  destruct (route_request (mkReq "req-001" MEDICAL "normal" None true) demo_world)
    as [[d w']|e] eqn:Hrun.
  - exists d, w'. split; [reflexivity|].
    apply (route_request_validation_set
             (mkReq "req-001" MEDICAL "normal" None true) demo_world w' d Hrun).
  - vm_compute in Hrun. discriminate Hrun.
Defined.

(** With one eligible candidate besides the primary the validation list
    has one entry, and with none it is empty. *)
Example route_request_few_candidates :
  validation
    <$> returned (route_request (mkReq "req-002" NEUROLOGY "normal" None true)
                    demo_world)
  = Some ["med-idle-02"] /\
  validation
    <$> returned (route_request (mkReq "req-003" CARDIOLOGY "urgent" None true)
                    demo_world)
  = Some [].
Proof. split; vm_compute; reflexivity. Qed.

(** ** Priorities *)






(** ** No eligible NM *)

(** The exact outcome of a health check of a registered NM. *)
Lemma perform_health_check_run (nm_id : string) (nm : NarrowModel) (w : World) :
  nm_registry (router w) !! nm_id = Some nm ->
  perform_health_check nm_id w
  = Ok (bool_decide (checked_status (random_at (env w) (S (tick w))) nm = HEALTHY),
        mkWorld
          (set_registry
             (<[nm_id := set_last_health_check (time_at (env w) (tick w))
                           (set_status
                              (checked_status (random_at (env w) (S (tick w))) nm)
                              nm)]> (nm_registry (router w)))
             (router w))
          (env w) (S (S (tick w)))).
Proof.
  intros Hnm. unfold perform_health_check.
  unfold bind at 1, get_router. rewrite Hnm.
  unfold bind at 1, time_time. unfold bind at 1, random_random. simpl.
  match goal with |- context [set_status ?s] => set (st := s) end.
  unfold bind at 1, registry_update at 1, bind at 1, registry_get at 1. simpl.
  rewrite Hnm. unfold bind at 1, get_router, put_router. simpl.
  unfold bind at 1, registry_update at 1, bind at 1, registry_get at 1. simpl.
  rewrite lookup_insert_eq. unfold bind at 1, get_router, put_router. simpl.
  unfold bind at 1, registry_get at 1. simpl. rewrite lookup_insert_eq.
  unfold ret. rewrite insert_insert_eq. reflexivity.
Qed.

Lemma refresh_turns_ext (interval : float) (e : Env)
    (reg reg' : gmap string NarrowModel) (pool : list string) :
  (forall x, x ∈ pool -> reg' !! x = reg !! x) ->
  forall t, refresh_turns interval e reg' pool t = refresh_turns interval e reg pool t.
Proof.
  induction pool as [|nm_id rest IH]; intros Hreg t; [reflexivity|].
  cbn [refresh_turns]. rewrite (Hreg nm_id) by left.
  assert (forall x, x ∈ rest -> reg' !! x = reg !! x) as Hrest
    by (intros x Hx; apply Hreg; right; exact Hx).
  destruct (reg !! nm_id) as [nm|]; [f_equal|]; apply IH; exact Hrest.
Qed.

(** One turn of the loop of [get_healthy_nms_in_domain] for a registered
    NM, from the clock reading on. *)
Lemma refresh_turn_run (nm_id : string) (nm : NarrowModel) (w : World) :
  nm_registry (router w) !! nm_id = Some nm ->
  let interval := health_check_interval (router w) in
  let w1 := mkWorld (router w) (env w) (S (tick w)) in
  exists b w2 nm',
    (if due interval (env w) nm (tick w)
     then perform_health_check nm_id else ret false) w1 = Ok (b, w2) /\
    env w2 = env w /\
    tick w2 = (if due interval (env w) nm (tick w) then 3 + tick w else 1 + tick w)%nat /\
    health_check_interval (router w2) = interval /\
    refreshed (router w) (router w2) /\
    nm_registry (router w2) !! nm_id = Some nm' /\
    status nm' = status_after_turn interval (env w) nm (tick w) /\
    (forall x, x <> nm_id ->
               nm_registry (router w2) !! x = nm_registry (router w) !! x).
Proof.
  intros Hnm interval w1. unfold status_after_turn.
  destruct (due interval (env w) nm (tick w)).
  - rewrite (perform_health_check_run nm_id nm w1 Hnm).
    eexists _, _, _. split; [reflexivity|]. simpl.
    split; [reflexivity|]. split; [reflexivity|]. split; [reflexivity|].
    split; [eapply refreshed_insert; [exact Hnm | reflexivity]|].
    split; [apply lookup_insert_eq|]. split; [reflexivity|].
    intros x Hx. apply lookup_insert_ne. congruence.
  - exists false, w1, nm. unfold ret.
    split; [reflexivity|]. split; [reflexivity|]. split; [reflexivity|].
    split; [reflexivity|]. split; [apply refreshed_refl|].
    split; [exact Hnm|]. split; reflexivity.
Qed.

(** What the loop of [get_healthy_nms_in_domain] returns over a pool
    without duplicates: the ids left eligible at their turns, in pool
    order. *)
Lemma healthy_loop_turns (pool : list string) :
  NoDup pool ->
  forall (acc : list string) (w : World),
  exists w',
    healthy_loop pool acc w
    = Ok (acc ++ eligible_turns (health_check_interval (router w)) (env w)
                   (refresh_turns (health_check_interval (router w)) (env w)
                      (nm_registry (router w)) pool (tick w)),
          w') /\
    env w' = env w /\ refreshed (router w) (router w').
Proof.
  induction 1 as [|nm_id rest Hnotin Hnd IH]; intros acc w.
  - exists w. cbn [healthy_loop refresh_turns]. unfold eligible_turns, ret. simpl.
    rewrite app_nil_r. split; [reflexivity|]. split; [reflexivity | apply refreshed_refl].
  - cbn [healthy_loop refresh_turns]. unfold bind at 1, get_router.
    destruct (nm_registry (router w) !! nm_id) as [nm|] eqn:Hnm; [|apply IH].
    unfold bind at 1, time_time.
    destruct (refresh_turn_run nm_id nm w Hnm)
      as (b & w2 & nm' & Hcheck & Henv2 & Htick2 & Hint2 & Href2 & Hnm' & Hst' & Hother).
    unfold due in Hcheck at 1. unfold bind at 1. rewrite Hcheck.
    unfold bind at 1, registry_get. rewrite Hnm', Hst'.
    assert (refresh_turns (health_check_interval (router w2)) (env w2)
              (nm_registry (router w2)) rest (tick w2)
            = refresh_turns (health_check_interval (router w)) (env w)
                (nm_registry (router w)) rest
                (if due (health_check_interval (router w)) (env w) nm (tick w)
                 then 3 + tick w else 1 + tick w)%nat) as Hturns.
    { rewrite Hint2, Henv2, Htick2. apply refresh_turns_ext.
      intros x Hx. apply Hother. intros ->. exact (Hnotin Hx). }
    unfold eligible_turns at 1. rewrite filter_cons. cbn [fst snd].
    destruct (routable (status_after_turn (health_check_interval (router w)) (env w)
                          nm (tick w))) eqn:Hrt.
    + destruct (IH (acc ++ [nm_id]) w2) as (w' & Hrun & Henv & Href).
      exists w'. rewrite Hrun, Hturns, Hint2, Henv2. simpl.
      rewrite <- app_assoc. split; [reflexivity|]. split; [congruence|].
      eapply refreshed_trans; eauto.
    + destruct (IH acc w2) as (w' & Hrun & Henv & Href).
      exists w'. rewrite Hrun, Hturns, Hint2, Henv2. simpl.
      split; [reflexivity|]. split; [congruence|].
      eapply refreshed_trans; eauto.
Qed.

Lemma get_healthy_nms_in_domain_pool (d : Domain) (w : World) :
  get_healthy_nms_in_domain d w = healthy_loop (pool_of (router w) d) [] w.
Proof.
  unfold get_healthy_nms_in_domain, bind, get_router, pool_of.
  destruct (domain_pools (router w) !! d); reflexivity.
Qed.

Lemma select_primary_tag (request : RoutingRequest) (available_nms : list string)
    (w w' : World) (sel : option string * string) :
  select_primary request available_nms w = Ok (sel, w') ->
  snd sel = method_of_priority (priority request).
Proof.
  unfold select_primary, method_of_priority. intros Hrun.
  destruct (String.eqb (priority request) "urgent").
  - inv_run Hrun. reflexivity.
  - destruct (String.eqb (priority request) "high").
    + inv_run Hrun. reflexivity.
    + inv_run Hrun. reflexivity.
Qed.

(** The decision [route_request] makes from the pool: none if the health
    refresh leaves no candidate, else a primary among the candidates. *)
Lemma route_request_pool_shape (request : RoutingRequest) (w w' : World)
    (d : RoutingDecision) :
  preferred_usable (router w) request = None ->
  route_request request w = Ok (d, w') ->
  exists available_nms w1,
    get_healthy_nms_in_domain (req_domain request) w = Ok (available_nms, w1) /\
    match available_nms with
    | [] => d = no_available_decision (req_domain request) /\ w' = w1
    | _ =>
        total_available d = Some (length available_nms) /\
        error d = None /\
        routing_method d = method_of_priority (priority request) /\
        exists p, primary d = Some p /\ p ∈ available_nms
    end.
Proof.
  intros Hpref Hrun. unfold route_request, bind at 1, get_router in Hrun.
  rewrite Hpref in Hrun. apply bind_Ok in Hrun.
  destruct Hrun as (available_nms & w1 & Hhealthy & Hrun).
  exists available_nms, w1. split; [exact Hhealthy|].
  destruct available_nms as [|a0 l0].
  - unfold ret in Hrun. inversion Hrun; subst. split; reflexivity.
  - apply bind_Ok in Hrun. destruct Hrun as (sel & w2 & Hsel & Hrun).
    pose proof (select_primary_tag _ _ _ _ _ Hsel) as Htag.
    destruct (get_healthy_nms_in_domain_spec (req_domain request) w)
      as (l & w1' & Hrun1 & _ & Href & Hl).
    rewrite Hhealthy in Hrun1. inversion Hrun1; subst l w1'. clear Hrun1.
    assert (exists p, fst sel = Some p /\ p ∈ a0 :: l0) as (p & Hp & Hin).
    { pose proof (select_primary_wp request (a0 :: l0) w1) as Hwp.
      unfold wp in Hwp. rewrite Hsel in Hwp.
      destruct Hwp as (p & ix & Hp & Hin & _).
      - discriminate.
      - intros x Hx. apply (refreshed_is_Some _ _ x Href). apply Hl. exact Hx.
      - eauto. }
    inv_run Hrun. simpl. repeat split; try assumption. eauto.
Qed.

Lemma eligible_turns_nil (interval : float) (e : Env)
    (turns : list (string * NarrowModel * nat)) :
  eligible_turns interval e turns = [] <->
  Forall (fun turn => status_after_turn interval e turn.1.2 turn.2 = UNAVAILABLE) turns.
Proof.
  unfold eligible_turns. induction turns as [|turn turns IH]; simpl.
  - split; [constructor | reflexivity].
  - rewrite filter_cons.
    destruct (status_after_turn interval e turn.1.2 turn.2) eqn:Hst; simpl.
    + split; [discriminate|]. intros H.
      inversion H as [|? ? Hhd Htl]; subst. simpl in Hhd. congruence.
    + split; [discriminate|]. intros H.
      inversion H as [|? ? Hhd Htl]; subst. simpl in Hhd. congruence.
    + rewrite IH. split; [intros H; constructor; [exact Hst | exact H]|].
      intros H. inversion H; subst. assumption.
Qed.

Lemma refresh_turns_registered (interval : float) (e : Env)
    (reg : gmap string NarrowModel) (pool : list string) :
  forall t turn,
    turn ∈ refresh_turns interval e reg pool t ->
    turn.1.1 ∈ pool /\ reg !! turn.1.1 = Some turn.1.2.
Proof.
  induction pool as [|nm_id rest IH]; intros t turn Hin; cbn [refresh_turns] in Hin.
  - apply elem_of_nil in Hin. destruct Hin.
  - destruct (reg !! nm_id) as [nm|] eqn:Hnm.
    + apply elem_of_cons in Hin. destruct Hin as [->|Hin].
      * simpl. split; [left | exact Hnm].
      * destruct (IH _ _ Hin). split; [right|]; assumption.
    + destruct (IH _ _ Hin). split; [right|]; assumption.
Qed.

Lemma checked_status_unavailable (u : float) (nm : NarrowModel) :
  checked_status u nm = UNAVAILABLE <-> (0.05 <? u)%float = false.
Proof.
  unfold checked_status. destruct (0.05 <? u)%float; simpl.
  - split; [|discriminate].
    destruct (bool_decide (current_load nm < max_concurrent nm)) eqn:Hlt;
      [discriminate|].
    rewrite bool_decide_eq_true_2; [discriminate|].
    apply bool_decide_eq_false in Hlt. lia.
  - split; reflexivity.
Qed.

(** C6, as the code has it.  Take a request without usable preferred NM
    whose domain has no registered NM, or only Unavailable ones, in a pool
    that lists no id twice.  If at its turn in the health refresh of the
    call each of them is not due for a check, or its check finds it
    unreachable, [route_request] returns the decision without primary,
    tagged ["no_available_nms"], with the error text, and has changed
    health fields at most.  And only then: a decision without primary
    means that every one of these re-checks failed. *)
Theorem route_request_no_candidates (request : RoutingRequest) (w : World) :
  preferred_usable (router w) request = None ->
  NoDup (pool_of (router w) (req_domain request)) ->
  (forall nm_id nm,
     nm_id ∈ pool_of (router w) (req_domain request) ->
     nm_registry (router w) !! nm_id = Some nm ->
     status nm = UNAVAILABLE) ->
  let interval := health_check_interval (router w) in
  let turns :=
    refresh_turns interval (env w) (nm_registry (router w))
      (pool_of (router w) (req_domain request)) (tick w) in
  (Forall (recheck_fails interval (env w)) turns ->
   exists w',
     route_request request w = Ok (no_available_decision (req_domain request), w') /\
     env w' = env w /\ refreshed (router w) (router w')) /\
  (forall d w',
     route_request request w = Ok (d, w') -> primary d = None ->
     Forall (recheck_fails interval (env w)) turns).
Proof.
  intros Hpref Hnd Hall interval turns.
  destruct (healthy_loop_turns _ Hnd [] w) as (w1 & Hloop & Henv & Href).
  rewrite app_nil_l in Hloop. fold interval in Hloop. fold turns in Hloop.
  assert (forall turn, turn ∈ turns -> status turn.1.2 = UNAVAILABLE) as Hun.
  { intros turn Hin. apply refresh_turns_registered in Hin. destruct Hin as [Hp Hr].
    eapply Hall; eauto. }
  assert (Forall (recheck_fails interval (env w)) turns <->
          eligible_turns interval (env w) turns = []) as Hiff.
  { rewrite eligible_turns_nil, !Forall_forall. split; intros H turn Hin.
    - unfold status_after_turn.
      destruct (due interval (env w) turn.1.2 turn.2) eqn:Hdue; [|apply Hun; exact Hin].
      apply checked_status_unavailable. apply (H turn Hin). exact Hdue.
    - intros Hdue. specialize (H turn Hin). unfold status_after_turn in H.
      rewrite Hdue in H.
      apply checked_status_unavailable in H. exact H. }
  split.
  - intros Hfail. apply Hiff in Hfail. rewrite Hfail in Hloop.
    exists w1. split; [|split; assumption].
    unfold route_request, bind at 1, get_router. rewrite Hpref.
    unfold bind at 1. rewrite get_healthy_nms_in_domain_pool, Hloop. reflexivity.
  - intros d w' Hrun Hprim. apply Hiff.
    destruct (route_request_pool_shape request w w' d Hpref Hrun)
      as (available_nms & w1' & Hhealthy & Hshape).
    rewrite get_healthy_nms_in_domain_pool, Hloop in Hhealthy.
    inversion Hhealthy; subst available_nms w1'. clear Hhealthy.
    destruct (eligible_turns interval (env w) turns); [reflexivity|].
    destruct Hshape as (_ & _ & _ & p & Hp & _). congruence.
Qed.

Lemma route_request_no_candidates_witness :
  exists w',
    route_request (mkReq "req-006" CANCER "normal" None true) unreachable_world
    = Ok (no_available_decision CANCER, w') /\
    env w' = env unreachable_world /\
    refreshed (router unreachable_world) (router w').
Proof.
  apply (route_request_no_candidates
           (mkReq "req-006" CANCER "normal" None true) unreachable_world).
  - reflexivity.
  - change (NoDup ["med-cancer-01"]). apply NoDup_singleton.
  - intros nm_id nm Hin Hnm.
    change (nm_id ∈ ["med-cancer-01"]) in Hin.
    apply list_elem_of_singleton in Hin. subst nm_id.
    change (Some med_cancer_01 = Some nm) in Hnm.
    inversion Hnm; subst nm. reflexivity.
  - change (Forall (recheck_fails 30 unreachable_env)
              [("med-cancer-01", med_cancer_01, 0%nat)]).
    constructor; [|constructor]. intros _. reflexivity.
Defined.

(** An Unavailable NM checked 10 s ago, and a domain without any NM. *)
Example route_request_no_candidates_examples :
  returned (route_request (mkReq "req-006" CANCER "normal" None true)
              recent_outage_world)
  = Some (no_available_decision CANCER) /\
  returned (route_request (mkReq "req-010" NEUROLOGY "urgent" None true)
              recent_outage_world)
  = Some (no_available_decision NEUROLOGY).
Proof. split; vm_compute; reflexivity. Qed.

(** C6 as stated fails when a health check is due: the only NM of the
    domain is Unavailable, the refresh at routing time finds it reachable,
    and it becomes the primary. *)
Lemma route_request_all_unavailable_counterexample :
  preferred_usable (router outage_world)
    (mkReq "req-004" CANCER "normal" None true) = None /\
  (forall nm_id nm,
     nm_id ∈ pool_of (router outage_world) CANCER ->
     nm_registry (router outage_world) !! nm_id = Some nm ->
     status nm = UNAVAILABLE) /\
  exists d w',
    route_request (mkReq "req-004" CANCER "normal" None true) outage_world
    = Ok (d, w') /\
    primary d = Some "med-cancer-01" /\
    routing_method d = "round_robin_normal" /\
    error d = None.
Proof.
  split; [reflexivity|]. split.
  - intros nm_id nm Hin Hnm.
    change (nm_id ∈ ["med-cancer-01"]) in Hin.
    apply list_elem_of_singleton in Hin. subst nm_id.
    change (Some med_cancer_01 = Some nm) in Hnm.
    inversion Hnm; subst nm. reflexivity.
  - eexists _, _. vm_compute. split; [reflexivity|]. repeat split.
Qed.

(** ** Registration, completion and statistics *)

(** [register_nm] returns [True]; it writes the registry entry, makes sure
    the id is in the pool of its domain, and gives a new domain the cursor 0. *)
Lemma register_nm_spec (nm : NarrowModel) (w : World) :
  exists r',
    register_nm nm w = Ok (true, mkWorld r' (env w) (tick w)) /\
    nm_registry r' = <[nm_id nm := nm]> (nm_registry (router w)) /\
    health_check_interval r' = health_check_interval (router w) /\
    (forall d, domain_pools r' !! d
               = if decide (d = nm_domain nm)
                 then Some (let pool := pool_of (router w) d in
                            if mem (nm_id nm) pool then pool else pool ++ [nm_id nm])
                 else domain_pools (router w) !! d) /\
    (forall d, round_robin_indices r' !! d
               = if decide (d = nm_domain nm)
                 then match domain_pools (router w) !! d with
                      | None => Some 0
                      | Some _ => round_robin_indices (router w) !! d
                      end
                 else round_robin_indices (router w) !! d).
Proof.
  unfold register_nm, bind, get_router, put_router, ret, pool_of. simpl.
  destruct (domain_pools (router w) !! nm_domain nm) as [pool|] eqn:Hpool; simpl.
  - rewrite Hpool. destruct (mem (nm_id nm) pool) eqn:Hmem.
    + eexists. split; [reflexivity|]. simpl. split; [reflexivity|].
      split; [reflexivity|]. split.
      * intros d. destruct (decide (d = nm_domain nm)) as [->|Hd]; [|reflexivity].
        rewrite Hpool. simpl. rewrite Hmem. reflexivity.
      * intros d. destruct (decide (d = nm_domain nm)) as [->|Hd]; [|reflexivity].
        rewrite Hpool. reflexivity.
    + eexists. split; [reflexivity|]. simpl. split; [reflexivity|].
      split; [reflexivity|]. split.
      * intros d. destruct (decide (d = nm_domain nm)) as [->|Hd].
        -- rewrite lookup_insert_eq, Hpool. simpl. rewrite Hmem. reflexivity.
        -- rewrite lookup_insert_ne by congruence. reflexivity.
      * intros d. destruct (decide (d = nm_domain nm)) as [->|Hd]; [|reflexivity].
        rewrite Hpool. reflexivity.
  - rewrite lookup_insert_eq.
    change (mem (nm_id nm) []) with false. cbv iota.
    eexists. split; [reflexivity|]. simpl. split; [reflexivity|].
    split; [reflexivity|]. split.
    + intros d. destruct (decide (d = nm_domain nm)) as [->|Hd].
      * rewrite lookup_insert_eq, Hpool. reflexivity.
      * rewrite !lookup_insert_ne by congruence. reflexivity.
    + intros d. destruct (decide (d = nm_domain nm)) as [->|Hd].
      * rewrite lookup_insert_eq, Hpool. reflexivity.
      * rewrite lookup_insert_ne by congruence. reflexivity.
Qed.

Lemma register_nm_pools_registered (nm : NarrowModel) (w w' : World) (b : bool) :
  register_nm nm w = Ok (b, w') ->
  pools_registered (router w) -> pools_registered (router w').
Proof.
  intros Hrun Hinv.
  destruct (register_nm_spec nm w) as (r' & Hrun' & Hreg & _ & Hpools & _).
  rewrite Hrun' in Hrun. inversion Hrun; subst b w'; clear Hrun. simpl.
  intros d pool x Hpool Hx. rewrite Hreg. rewrite Hpools in Hpool.
  destruct (decide (x = nm_id nm)) as [->|Hne].
  { rewrite lookup_insert_eq. eauto. }
  rewrite lookup_insert_ne by congruence.
  destruct (decide (d = nm_domain nm)) as [->|Hd].
  - inversion Hpool; subst pool; clear Hpool. unfold pool_of in Hx.
    destruct (domain_pools (router w) !! nm_domain nm) as [pool|] eqn:Hp; simpl in Hx.
    + destruct (mem (nm_id nm) pool).
      * eapply Hinv; eauto.
      * apply elem_of_app in Hx. destruct Hx as [Hx|Hx]; [eapply Hinv; eauto|].
        apply list_elem_of_singleton in Hx. congruence.
    + apply list_elem_of_singleton in Hx. congruence.
  - eapply Hinv; eauto.
Qed.

Lemma register_nm_cursors_nonneg (nm : NarrowModel) (w w' : World) (b : bool) :
  register_nm nm w = Ok (b, w') ->
  cursors_nonneg (router w) -> cursors_nonneg (router w').
Proof.
  intros Hrun Hinv.
  destruct (register_nm_spec nm w) as (r' & Hrun' & _ & _ & _ & Hix).
  rewrite Hrun' in Hrun. inversion Hrun; subst b w'; clear Hrun. simpl.
  intros d c Hc. rewrite Hix in Hc.
  destruct (decide (d = nm_domain nm)) as [->|Hd]; [|eapply Hinv; eauto].
  destruct (domain_pools (router w) !! nm_domain nm); [eapply Hinv; eauto|].
  inversion Hc. lia.
Qed.

Lemma register_nm_pools_NoDup (nm : NarrowModel) (w w' : World) (b : bool) :
  register_nm nm w = Ok (b, w') ->
  pools_NoDup (router w) -> pools_NoDup (router w').
Proof.
  intros Hrun Hinv.
  destruct (register_nm_spec nm w) as (r' & Hrun' & _ & _ & Hpools & _).
  rewrite Hrun' in Hrun. inversion Hrun; subst b w'; clear Hrun. simpl.
  intros d pool Hpool. rewrite Hpools in Hpool.
  destruct (decide (d = nm_domain nm)) as [->|Hd]; [|eapply Hinv; eauto].
  inversion Hpool; subst pool; clear Hpool. unfold pool_of.
  destruct (domain_pools (router w) !! nm_domain nm) as [pool|] eqn:Hp; simpl.
  - specialize (Hinv _ _ Hp). destruct (mem (nm_id nm) pool) eqn:Hmem; [exact Hinv|].
    apply mem_false in Hmem. apply NoDup_app. split; [exact Hinv|]. split.
    + intros x Hx Hx'. apply list_elem_of_singleton in Hx'. subst x. auto.
    + apply NoDup_singleton.
  - apply NoDup_singleton.
Qed.

Lemma register_nm_keys (nm : NarrowModel) (w w' : World) (b : bool) (x : string) :
  register_nm nm w = Ok (b, w') ->
  is_Some (nm_registry (router w) !! x) -> is_Some (nm_registry (router w') !! x).
Proof.
  intros Hrun Hx.
  destruct (register_nm_spec nm w) as (r' & Hrun' & Hreg & _).
  rewrite Hrun' in Hrun. inversion Hrun; subst b w'; clear Hrun. simpl.
  rewrite Hreg. destruct (decide (x = nm_id nm)) as [->|Hne].
  - rewrite lookup_insert_eq. eauto.
  - rewrite lookup_insert_ne by congruence. exact Hx.
Qed.

(** [complete_request] on a registered id lowers its load by one, not
    below 0; on an unknown id it does nothing. *)
Lemma complete_request_spec (nm_id : string) (w : World) :
  exists w',
    complete_request nm_id w = Ok (tt, w') /\
    env w' = env w /\
    round_robin_indices (router w') = round_robin_indices (router w) /\
    same_static (router w) (router w') /\
    forall id, load_of (router w') id
               = if decide (id = nm_id)
                 then (fun n => Z.max 0 (n - 1)) <$> load_of (router w) id
                 else load_of (router w) id.
Proof.
  unfold complete_request, bind at 1, get_router.
  destruct (nm_registry (router w) !! nm_id) as [nm|] eqn:Hnm.
  - rewrite (registry_update_run _ _ _ _ Hnm). eexists. split; [reflexivity|].
    simpl. split; [reflexivity|]. split; [reflexivity|].
    split; [apply (same_static_insert _ _ nm); [exact Hnm | reflexivity]|].
    intros id. rewrite (load_of_insert _ _ _ _ _ Hnm).
    destruct (decide (id = nm_id)) as [->|Hne]; [|reflexivity].
    unfold load_of. rewrite Hnm. reflexivity.
  - exists w. unfold ret. split; [reflexivity|]. split; [reflexivity|].
    split; [reflexivity|]. split; [apply same_static_refl|].
    intros id. destruct (decide (id = nm_id)) as [->|Hne]; [|reflexivity].
    unfold load_of. rewrite Hnm. reflexivity.
Qed.

(** [get_routing_stats] only reads. *)
Lemma get_routing_stats_reads (w w' : World) (s : RoutingStats) :
  get_routing_stats w = Ok (s, w') -> w' = w.
Proof.
  unfold get_routing_stats, bind at 1, get_router. intros H.
  inv_run H. destruct (decide _).
  - inv_run Hstep. apply lift_result_Ok in Hstep0. destruct Hstep0 as [_ ->].
    reflexivity.
  - inv_run Hstep. reflexivity.
Qed.

Lemma get_routing_stats_wp (w : World) :
  wp get_routing_stats w (fun _ w' => w' = w) (fun _ w' => w' = w).
Proof.
  unfold wp. destruct (get_routing_stats w) as [[s w']|e w'] eqn:Hrun.
  - eapply get_routing_stats_reads. exact Hrun.
  - unfold get_routing_stats, bind, get_router, lift_result, ret in Hrun.
    destruct (decide _).
    + destruct (py_truediv _ _) as [q|e' []]; inversion Hrun. reflexivity.
    + discriminate.
Qed.

(** ** Invariants of the reachable states *)

Lemma call_keeps_static (w w' : World) :
  same_static (router w) (router w') ->
  (cursors_nonneg (router w) -> cursors_nonneg (router w')) ->
  env w' = env w ->
  call_keeps w w'.
Proof.
  intros Hst Hc He. split; [apply same_static_pools_registered; exact Hst|].
  split; [exact Hc|]. split; [|split; [exact He|]].
  - intros x Hx. apply (same_static_is_Some _ _ x Hst). exact Hx.
  - intros Hnd d pool Hpool. rewrite (same_static_pools _ _ Hst) in Hpool.
    eapply Hnd. exact Hpool.
Qed.

Lemma call_keeps_refl (w : World) : call_keeps w w.
Proof. apply call_keeps_static; [apply same_static_refl | auto | reflexivity]. Qed.

(** Every call keeps the invariants, the registered ids and the
    environment, whether it returns or raises. *)
Lemma run_call_keeps (c : Call) (w : World) :
  wp (run_call c) w (fun _ w' => call_keeps w w') (fun _ w' => call_keeps w w').
Proof.
  destruct c as [nm|nm_id|domain|nm_ids|nm_ids domain|request|nm_id|]; simpl.
  - apply wp_bind. destruct (register_nm_spec nm w) as (r' & Hrun & _).
    eapply wp_Ok; [exact Hrun|]. apply wp_ret.
    split; [eapply register_nm_pools_registered; eauto|].
    split; [eapply register_nm_cursors_nonneg; eauto|].
    split; [intros x; eapply register_nm_keys; eauto|].
    split; [reflexivity | eapply register_nm_pools_NoDup; eauto].
  - apply wp_bind.
    destruct (perform_health_check_refreshed nm_id w) as (b & w1 & Hrun & Henv & Href).
    eapply wp_Ok; [exact Hrun|]. apply wp_ret.
    apply call_keeps_static; [apply refreshed_same_static; exact Href | | exact Henv].
    apply cursors_nonneg_indices, refreshed_indices. exact Href.
  - apply wp_bind.
    destruct (get_healthy_nms_in_domain_spec domain w) as (l & w1 & Hrun & Henv & Href & _).
    eapply wp_Ok; [exact Hrun|]. apply wp_ret.
    apply call_keeps_static; [apply refreshed_same_static; exact Href | | exact Henv].
    apply cursors_nonneg_indices, refreshed_indices. exact Href.
  - apply wp_bind. destruct nm_ids as [|y0 l0].
    + apply wp_ret. apply wp_ret. apply call_keeps_refl.
    + eapply wp_mono;
        [apply (calculate_weighted_selection_wp (y0 :: l0) w); discriminate | |].
      * intros o w' (-> & _). apply wp_ret.
        apply call_keeps_static; [apply same_static_refl | auto | reflexivity].
      * intros e w' (_ & _ & Hr & He).
        apply call_keeps_static; [rewrite Hr; apply same_static_refl | rewrite Hr; auto
                                 | exact He].
  - apply wp_bind. destruct nm_ids as [|y0 l0].
    + apply wp_ret. apply wp_ret. apply call_keeps_refl.
    + eapply wp_mono;
        [apply (round_robin_selection_wp (y0 :: l0) domain w); discriminate | |].
      * intros o w' (x & c & _ & _ & Hc & ->). apply wp_ret.
        apply call_keeps_static; [apply same_static_set_indices | | reflexivity].
        intros Hnn d c' Hl. simpl in Hl. destruct (decide (domain = d)) as [->|Hd].
        -- rewrite lookup_insert_eq in Hl. congruence.
        -- rewrite lookup_insert_ne in Hl by exact Hd. eapply Hnn. exact Hl.
      * intros e w' (_ & _ & ->). apply call_keeps_refl.
  - apply wp_bind.
    eapply wp_mono; [apply route_request_wp | |].
    + intros d w' (Henv & Hst & Hc & _). apply wp_ret.
      apply call_keeps_static; assumption.
    + intros e w' (_ & _ & Henv & Hst & Hc & _).
      apply call_keeps_static; assumption.
  - destruct (complete_request_spec nm_id w) as (w1 & Hrun & Henv & Hix & Hst & _).
    eapply wp_Ok; [exact Hrun|].
    apply call_keeps_static; [exact Hst | apply cursors_nonneg_indices; exact Hix
                             | exact Henv].
  - apply wp_bind.
    eapply wp_mono; [apply get_routing_stats_wp | |].
    + intros s w' ->. apply wp_ret. apply call_keeps_refl.
    + intros e w' ->. apply call_keeps_refl.
Qed.

Lemma new_router_invariants :
  pools_registered new_router /\ cursors_nonneg new_router /\
  pools_NoDup new_router.
Proof.
  split; [|split].
  - intros d pool x Hpool. simpl in Hpool. rewrite lookup_empty in Hpool. discriminate.
  - intros d c Hc. simpl in Hc. rewrite lookup_empty in Hc. discriminate.
  - intros d pool Hpool. simpl in Hpool. rewrite lookup_empty in Hpool. discriminate.
Qed.

Lemma reachable_invariants (w : World) :
  reachable w ->
  pools_registered (router w) /\ cursors_nonneg (router w) /\
  pools_NoDup (router w).
Proof.
  induction 1 as [e|c w w' _ (IHp & IHc & IHn) Hrun
                  |c e w w' _ (IHp & IHc & IHn) Hrun].
  - apply new_router_invariants.
  - destruct (wp_returned _ _ _ _ _ _ (run_call_keeps c w) Hrun)
      as (Hp & Hc & _ & _ & Hn). auto.
  - destruct (wp_raised _ _ _ _ _ _ (run_call_keeps c w) Hrun)
      as (Hp & Hc & _ & _ & Hn). auto.
Qed.

(** In a reachable state no pool lists an id twice, which is what the
    statement on domains without eligible NM assumes. *)
Lemma reachable_pool_NoDup (w : World) (d : Domain) :
  reachable w -> NoDup (pool_of (router w) d).
Proof.
  intros Hw. destruct (reachable_invariants w Hw) as (_ & _ & Hn). unfold pool_of.
  destruct (domain_pools (router w) !! d) as [pool|] eqn:Hd; simpl.
  - eapply Hn. exact Hd.
  - constructor.
Qed.

(** In a reachable state the cursor of every domain is at least 0, which
    is what the cursor statements above assume. *)
Lemma reachable_cursor_nonneg (w : World) (d : Domain) :
  reachable w -> 0 <= cursor w d.
Proof.
  intros Hw. destruct (reachable_invariants w Hw) as (_ & Hc & _). unfold cursor.
  destruct (round_robin_indices (router w) !! d) as [c|] eqn:Hd; simpl.
  - eapply Hc. exact Hd.
  - lia.
Qed.

Lemma world_of_reachable (e : Env) (nms : list NarrowModel) :
  reachable (world_of e nms).
Proof.
  unfold world_of.
  assert (forall w, reachable w ->
            reachable (fold_left
                         (fun w nm => match register_nm nm w with
                                      | Ok (_, w') => w'
                                      | Raise _ w' => w'
                                      end) nms w)) as H.
  { induction nms as [|nm rest IH]; intros w Hw; simpl; [exact Hw|].
    apply IH. destruct (register_nm_spec nm w) as (r' & Hrun & _).
    rewrite Hrun. apply (reachable_call (CallRegister nm) w); [exact Hw|].
    simpl. unfold bind. rewrite Hrun. reflexivity. }
  apply H. constructor.
Qed.

(** In a reachable state whose NMs have a capacity other than 0 and a load
    below [2 ^ 1023], [route_request] returns, for every request. *)
Lemma route_request_returns_reachable (request : RoutingRequest) (w : World) :
  reachable w ->
  (forall nm_id nm, nm_registry (router w) !! nm_id = Some nm -> bounded_load nm) ->
  exists d w', route_request request w = Ok (d, w') /\ route_post request w d w'.
Proof.
  intros Hw Hb. apply route_request_returns.
  - apply ratios_defined_bounded. exact Hb.
  - apply reachable_cursor_nonneg. exact Hw.
Qed.

(** C10. In every reachable state each id of each pool is a key of the
    registry.  Every call keeps this, whether it returns or raises: it
    removes no key of the registry and leaves in the pools only registered
    ids. *)
Theorem pools_registered_invariant :
  (forall w, reachable w -> pools_registered (router w)) /\
  (forall c w w',
     pools_registered (router w) ->
     run_call c w = Ok (tt, w') ->
     pools_registered (router w') /\
     forall x, is_Some (nm_registry (router w) !! x) ->
               is_Some (nm_registry (router w') !! x)) /\
  (forall c e w w',
     pools_registered (router w) ->
     run_call c w = Raise e w' ->
     pools_registered (router w') /\
     forall x, is_Some (nm_registry (router w) !! x) ->
               is_Some (nm_registry (router w') !! x)).
Proof.
  split; [|split].
  - intros w Hw. apply reachable_invariants. exact Hw.
  - intros c w w' Hinv Hrun.
    destruct (wp_returned _ _ _ _ _ _ (run_call_keeps c w) Hrun) as (Hp & _ & Hk & _).
    auto.
  - intros c e w w' Hinv Hrun.
    destruct (wp_raised _ _ _ _ _ _ (run_call_keeps c w) Hrun) as (Hp & _ & Hk & _).
    auto.
Qed.

Lemma pools_registered_invariant_witness :
  pools_registered (router demo_world) /\
  exists w',
    run_call (CallRoute (mkReq "req-007" MEDICAL "high" None true)) demo_world
      = Ok (tt, w') /\
    pools_registered (router w') /\
    is_Some (nm_registry (router w') !! "med-general-01").
Proof.
  destruct pools_registered_invariant as (Hreach & Hstep & _).
  pose proof (Hreach demo_world (world_of_reachable _ _)) as Hinv.
  split; [exact Hinv|].
  destruct (run_call (CallRoute (mkReq "req-007" MEDICAL "high" None true)) demo_world)
    as [[[] w']|e] eqn:Hrun.
  - exists w'. split; [reflexivity|].
    destruct (Hstep _ _ _ Hinv Hrun) as [Hp Hk]. split; [exact Hp|].
    apply Hk. vm_compute. eauto.
  - vm_compute in Hrun. discriminate Hrun.
Defined.

(** ** Loads on the two routing paths *)

(** On the pool path every load moves by [bumps]: one more for the primary
    and for each validator, nothing for the others. *)
Lemma route_request_pool_loads (request : RoutingRequest) (w w' : World)
    (d : RoutingDecision) :
  preferred_usable (router w) request = None ->
  route_request request w = Ok (d, w') ->
  forall nm_id,
    load_of (router w') nm_id
    = (fun n => n + bumps d nm_id) <$> load_of (router w) nm_id.
Proof.
  intros Hpref Hrun.
  pose proof (wp_returned _ _ _ _ _ _ (route_request_wp request w) Hrun) as Hpost.
  unfold route_post in Hpost. rewrite Hpref in Hpost.
  destruct Hpost as (_ & _ & _ & _ & _ & _ & _ & Hld). exact Hld.
Qed.

Lemma bumps_touched (d : RoutingDecision) (k : string) :
  (forall v, v ∈ validation d -> primary d <> Some v) ->
  (primary d = Some k /\ truthy (Some k) = true) \/ k ∈ validation d ->
  bumps d k = 1.
Proof.
  intros Hex [[Hp Ht]|Hv]; unfold bumps.
  - rewrite Hp, Ht. rewrite bool_decide_eq_true_2 by reflexivity. simpl.
    rewrite bool_decide_eq_false_2; [reflexivity|].
    intros Hv. apply (Hex k Hv). exact Hp.
  - rewrite (bool_decide_eq_true_2 (k ∈ validation d)) by exact Hv.
    rewrite (bool_decide_eq_false_2 (primary d = Some k)) by (apply Hex; exact Hv).
    rewrite andb_false_r. reflexivity.
Qed.

(** On the pool path [complete_request] undoes the routing of a worker
    whose load was not negative. *)
Lemma route_request_pool_complete (request : RoutingRequest) (w w' w'' : World)
    (d : RoutingDecision) (k : string) (n : Z) :
  preferred_usable (router w) request = None ->
  route_request request w = Ok (d, w') ->
  (primary d = Some k /\ truthy (Some k) = true) \/ k ∈ validation d ->
  load_of (router w) k = Some n -> 0 <= n ->
  complete_request k w' = Ok (tt, w'') ->
  load_of (router w'') k = Some n.
Proof.
  intros Hpref Hrun Hk Hn Hpos Hdone.
  pose proof (route_request_pool_loads _ _ _ _ Hpref Hrun k) as Hld.
  pose proof (wp_returned _ _ _ _ _ _ (route_request_wp request w) Hrun)
    as (_ & _ & _ & _ & _ & Hvs & _).
  rewrite (bumps_touched d k) in Hld; [|intros v Hv; apply Hvs; exact Hv | exact Hk].
  destruct (complete_request_spec k w') as (w1 & Hrun' & _ & _ & _ & Hld').
  rewrite Hrun' in Hdone. inversion Hdone; subst w1; clear Hdone.
  rewrite Hld'. destruct (decide (k = k)); [|congruence].
  rewrite Hld, Hn. simpl. f_equal. lia.
Qed.

(** On the preferred path no load changes at all. *)
Lemma route_request_preferred_loads (request : RoutingRequest) (w w' : World)
    (d : RoutingDecision) (p : string) :
  preferred_usable (router w) request = Some p ->
  route_request request w = Ok (d, w') ->
  primary d = Some p /\
  forall nm_id, load_of (router w') nm_id = load_of (router w) nm_id.
Proof.
  intros Hpref Hrun.
  pose proof (wp_returned _ _ _ _ _ _ (route_request_wp request w) Hrun) as Hpost.
  unfold route_post in Hpost. rewrite Hpref in Hpost.
  destruct Hpost as (_ & _ & _ & _ & _ & _ & Hp & Hld). auto.
Qed.

(** C1, at the failing input.  The preferred NM [med-cardio-01] is
    returned as primary with its load still 3; on the preferred path with
    validation the primary [med-general-02] and the validator
    [med-general-01] keep their loads too; the same pool routed without
    preference adds one to its primary and to its validator. *)
Theorem route_request_preferred_skips_load :
  (returned (route_request preferred_request demo_world)
   = Some (mkDecision (Some "med-cardio-01") [] "preferred_with_validation"
             None None) /\
   load_of (router demo_world) "med-cardio-01" = Some 3 /\
   (fun w' => load_of (router w') "med-cardio-01")
     <$> world_after (route_request preferred_request demo_world)
   = Some (Some 3)) /\
  (returned (route_request preferred_validated_request demo_world)
   = Some (mkDecision (Some "med-general-02") ["med-general-01"]
             "preferred_with_validation" None None) /\
   (fun w' => (load_of (router w') "med-general-02",
               load_of (router w') "med-general-01"))
     <$> world_after (route_request preferred_validated_request demo_world)
   = Some (load_of (router demo_world) "med-general-02",
           load_of (router demo_world) "med-general-01")) /\
  (returned (route_request (mkReq "req-001" MEDICAL "normal" None true) demo_world)
   = Some (mkDecision (Some "med-general-01") ["med-general-02"]
             "round_robin_normal" None (Some 3%nat)) /\
   (fun w' => (load_of (router w') "med-general-01",
               load_of (router w') "med-general-02"))
     <$> world_after (route_request (mkReq "req-001" MEDICAL "normal" None true)
                        demo_world)
   = Some ((fun n => n + 1) <$> load_of (router demo_world) "med-general-01",
           (fun n => n + 1) <$> load_of (router demo_world) "med-general-02")).
Proof. repeat split; vm_compute; reflexivity. Qed.

(** C2, at the failing input.  Routing to the preferred NM
    [med-cardio-01] and then completing it leaves its load at 2, one less
    than the 3 it had before the routing. *)
Theorem complete_after_preferred_route :
  load_of (router demo_world) "med-cardio-01" = Some 3 /\
  (fun w' => load_of (router w') "med-cardio-01")
    <$> world_after
          ((d <~ route_request preferred_request ;;
            k <~ as_key (primary d) ;;
            complete_request k) demo_world)
  = Some (Some 2).
Proof. split; vm_compute; reflexivity. Qed.

(** ** Statistics *)

(** With an empty registry the ratio is the integer 0 the dictionary is
    created with. *)
Lemma get_routing_stats_empty (w : World) :
  nm_registry (router w) = ∅ ->
  exists s, get_routing_stats w = Ok (s, w) /\
            overall_health s = PyInt 0 /\ total_nms s = 0%nat.
Proof.
  intros Hreg. unfold get_routing_stats, bind, get_router. rewrite Hreg.
  rewrite map_size_empty. simpl. eexists. split; [reflexivity|]. split; reflexivity.
Qed.

(** The ratio the code reports: the healthy entries of the five pools,
    added up, over the number of registry keys. *)
Lemma get_routing_stats_ratio (w w' : World) (s : RoutingStats) :
  get_routing_stats w = Ok (s, w') ->
  (0 < size (nm_registry (router w)))%nat ->
  exists q,
    overall_health s = PyFloat q /\
    py_truediv (Z.of_nat (healthy_count (router w)))
               (Z.of_nat (size (nm_registry (router w)))) = Ok q.
Proof.
  unfold get_routing_stats, bind at 1, get_router. intros Hrun Hsize.
  inv_run Hrun. destruct (decide _) as [_|Hn]; [|lia].
  inv_run Hstep. apply lift_result_Ok in Hstep0. destruct Hstep0 as [Hq ->].
  eexists. split; [reflexivity|]. exact Hq.
Qed.

Lemma healthy_count_pooled (r : ADPRouter) :
  healthy_count r
  = length (filter (fun nm_id => status <$> nm_registry r !! nm_id = Some HEALTHY)
              (pooled_ids r)).
Proof.
  unfold healthy_count, pooled_ids, all_domains, count_status. simpl.
  rewrite !filter_app, !length_app. simpl. lia.
Qed.

Lemma healthy_keys (reg : gmap string NarrowModel) (l : list (string * NarrowModel)) :
  (forall kv, kv ∈ l -> reg !! fst kv = Some (snd kv)) ->
  length (filter (fun nm_id => status <$> reg !! nm_id = Some HEALTHY) (l.*1))
  = length (filter (fun kv => status (snd kv) = HEALTHY) l).
Proof.
  induction l as [|kv l IH]; intros Hl; [reflexivity|].
  rewrite fmap_cons, !filter_cons.
  assert (reg !! fst kv = Some (snd kv)) as Hkv by (apply Hl; left).
  specialize (IH (fun kv' H => Hl kv' (list_elem_of_further _ _ _ H))).
  destruct (decide (status (snd kv) = HEALTHY)) as [Hs|Hs].
  - destruct (decide (status <$> reg !! fst kv = Some HEALTHY)) as [_|Hn].
    + simpl. rewrite IH. reflexivity.
    + exfalso. apply Hn. rewrite Hkv. simpl. congruence.
  - destruct (decide (status <$> reg !! fst kv = Some HEALTHY)) as [Hy|_].
    + exfalso. apply Hs. rewrite Hkv in Hy. simpl in Hy. congruence.
    + exact IH.
Qed.

(** When the pools list every registered NM exactly once, the count that
    [get_routing_stats] divides is the number of Healthy registered NMs. *)
Lemma healthy_count_partition (r : ADPRouter) :
  NoDup (pooled_ids r) ->
  (forall nm_id, nm_id ∈ pooled_ids r <-> is_Some (nm_registry r !! nm_id)) ->
  healthy_count r = healthy_registered r.
Proof.
  intros Hnd Hcover. rewrite healthy_count_pooled. unfold healthy_registered.
  assert (pooled_ids r ≡ₚ (map_to_list (nm_registry r)).*1) as Hperm.
  { apply NoDup_Permutation; [exact Hnd | apply NoDup_fst_map_to_list |].
    intros x. rewrite Hcover. split.
    - intros [nm Hnm]. apply list_elem_of_fmap. exists (x, nm).
      split; [reflexivity|]. apply elem_of_map_to_list. exact Hnm.
    - intros Hx. apply list_elem_of_fmap in Hx. destruct Hx as ([k nm] & -> & Hkv).
      apply elem_of_map_to_list in Hkv. simpl. eauto. }
  rewrite Hperm. apply healthy_keys.
  intros [k nm] Hkv. apply elem_of_map_to_list in Hkv. exact Hkv.
Qed.

(** C8, at the failing input.  [med-general-01] is registered under the
    medical domain and then again under the cardiology domain: the registry
    has one NM, it is Healthy, both pools list it, and the reported ratio is
    2.0 where the claim gives 1.0.  With one pool per NM the ratio of an
    all-healthy registry is 1.0. *)
Theorem get_routing_stats_moved_worker :
  reachable moved_world /\
  size (nm_registry (router moved_world)) = 1%nat /\
  status <$> nm_registry (router moved_world) !! "med-general-01" = Some HEALTHY /\
  pool_of (router moved_world) MEDICAL = ["med-general-01"] /\
  pool_of (router moved_world) CARDIOLOGY = ["med-general-01"] /\
  healthy_registered (router moved_world) = 1%nat /\
  healthy_count (router moved_world) = 2%nat /\
  overall_health <$> returned (get_routing_stats moved_world) = Some (PyFloat 2) /\
  overall_health <$> returned (get_routing_stats healthy_world) = Some (PyFloat 1).
Proof.
  split; [apply world_of_reachable|]. repeat split; vm_compute; reflexivity.
Qed.

(** ** The empty string as an id *)

(** The load update of the pool path tests the truth value of the primary;
    an NM registered under the empty id is chosen and not counted. *)
Example route_request_blank_id :
  returned (route_request (mkReq "req-009" AI_COMPLIANCE "normal" None false) blank_world)
  = Some (mkDecision (Some "") [] "round_robin_normal" None (Some 1%nat)) /\
  load_of (router blank_world) "" = Some 3 /\
  (fun w' => load_of (router w') "")
    <$> world_after (route_request (mkReq "req-009" AI_COMPLIANCE "normal" None false)
                       blank_world)
  = Some (Some 3).
Proof. repeat split; vm_compute; reflexivity. Qed.

(** ** An NM without capacity *)

(** With [max_concurrent = 0] the load ratio is a division by zero: the
    weighted selection raises, and so does the routing that uses it. *)
Example route_request_zero_capacity :
  ~ load_ratio_defined med_zero_01 /\
  raised (calculate_weighted_selection ["med-zero-01"] zero_capacity_world)
  = Some ZeroDivisionError /\
  raised (route_request (mkReq "req-011" NEUROLOGY "urgent" None false)
            zero_capacity_world)
  = Some ZeroDivisionError.
Proof.
  split; [|split; vm_compute; reflexivity].
  intros H. apply load_ratio_defined_capacity in H. apply H. reflexivity.
Qed.

(** * Further properties of the router *)

(** ** Health checks *)

(** X1. [perform_health_check] on an unknown id answers [False] and
    touches nothing, not even the clock.  On a registered NM it reads the
    clock and one draw, writes the clock reading as [last_health_check] and
    a new status, and answers whether that status is Healthy; the NM is
    Unavailable exactly when the draw is not above 0.05, Healthy only below
    its capacity and Degraded only at or above it; every other field and
    every other NM stay as they were. *)
Theorem perform_health_check_outcome (nm_id : string) (w : World) :
  match nm_registry (router w) !! nm_id with
  | None => perform_health_check nm_id w = Ok (false, w)
  | Some nm =>
      exists st,
        perform_health_check nm_id w
        = Ok (bool_decide (st = HEALTHY),
              mkWorld
                (set_registry
                   (<[nm_id := set_last_health_check (time_at (env w) (tick w))
                                 (set_status st nm)]> (nm_registry (router w)))
                   (router w))
                (env w) (S (S (tick w)))) /\
        (st = UNAVAILABLE <-> (0.05 <? random_at (env w) (S (tick w)))%float = false) /\
        (st = HEALTHY -> current_load nm < max_concurrent nm) /\
        (st = DEGRADED -> current_load nm >= max_concurrent nm)
  end.
Proof.
  destruct (nm_registry (router w) !! nm_id) as [nm|] eqn:Hnm.
  - unfold perform_health_check.
    unfold bind at 1, get_router. rewrite Hnm.
    unfold bind at 1, time_time. unfold bind at 1, random_random. simpl.
    match goal with |- context [set_status ?s] => set (st := s) end.
    unfold bind at 1, registry_update at 1, bind at 1, registry_get at 1. simpl.
    rewrite Hnm. unfold bind at 1, get_router, put_router. simpl.
    unfold bind at 1, registry_update at 1, bind at 1, registry_get at 1. simpl.
    rewrite lookup_insert_eq. unfold bind at 1, get_router, put_router. simpl.
    unfold bind at 1, registry_get at 1. simpl. rewrite lookup_insert_eq.
    unfold ret. rewrite insert_insert_eq.
    exists st. split; [reflexivity|]. subst st.
    destruct (0.05 <? random_at (env w) (S (tick w)))%float; simpl.
    + destruct (bool_decide (current_load nm < max_concurrent nm)) eqn:Hlt; simpl.
      * apply bool_decide_eq_true in Hlt.
        split; [split; discriminate|]. split; [auto | discriminate].
      * apply bool_decide_eq_false in Hlt.
        destruct (bool_decide (current_load nm >= max_concurrent nm)) eqn:Hge.
        -- apply bool_decide_eq_true in Hge.
           split; [split; discriminate|]. split; [discriminate | auto].
        -- apply bool_decide_eq_false in Hge. lia.
    + split; [split; reflexivity|]. split; discriminate.
  - unfold perform_health_check, bind, get_router. rewrite Hnm. reflexivity.
Qed.

(** One round of the refresh in [get_healthy_nms_in_domain]: the check of a
    registered NM, when due, rewrites that NM only. *)
Lemma health_refresh_step (nm_id : string) (nm : NarrowModel) (w : World) (now : float) :
  nm_registry (router w) !! nm_id = Some nm ->
  exists b w2 nm',
    (if (health_check_interval (router w) <? now - last_health_check nm)%float
     then perform_health_check nm_id else ret false) w = Ok (b, w2) /\
    env w2 = env w /\ refreshed (router w) (router w2) /\
    nm_registry (router w2) !! nm_id = Some nm' /\
    (forall x, x <> nm_id ->
               nm_registry (router w2) !! x = nm_registry (router w) !! x).
Proof.
  intros Hnm. destruct (_ <? _)%float.
  - destruct (perform_health_check_registered nm_id nm w Hnm) as (st & Hrun & _).
    eexists _, _, _. split; [exact Hrun|]. simpl. split; [reflexivity|].
    split; [eapply refreshed_insert; [exact Hnm | reflexivity]|].
    split; [apply lookup_insert_eq|].
    intros x Hx. apply lookup_insert_ne. congruence.
  - exists false, w, nm. unfold ret. split; [reflexivity|]. split; [reflexivity|].
    split; [apply refreshed_refl|]. split; [exact Hnm | reflexivity].
Qed.

Lemma healthy_loop_exact (pool : list string) :
  NoDup pool ->
  forall (acc : list string) (w : World),
  exists w',
    healthy_loop pool acc w = Ok (acc ++ filter (fun x => eligible (router w') x) pool, w') /\
    env w' = env w /\
    refreshed (router w) (router w') /\
    (forall x, x ∉ pool -> nm_registry (router w') !! x = nm_registry (router w) !! x).
Proof.
  induction 1 as [|nm_id rest Hnotin Hnd IH]; intros acc w.
  - exists w. simpl. unfold ret. rewrite app_nil_r.
    split; [reflexivity|]. split; [reflexivity|]. split; [apply refreshed_refl|].
    reflexivity.
  - simpl healthy_loop. unfold bind at 1, get_router.
    destruct (nm_registry (router w) !! nm_id) as [nm|] eqn:Hnm.
    + unfold bind at 1, time_time.
      set (w1 := mkWorld (router w) (env w) (S (tick w))).
      destruct (health_refresh_step nm_id nm w1 (time_at (env w) (tick w)) Hnm)
        as (b & w2 & nm' & Hcheck & Henv2 & Href2 & Hnm' & Hother).
      unfold bind at 1.
      change (health_check_interval (router w1)) with (health_check_interval (router w))
        in Hcheck.
      rewrite Hcheck. unfold bind at 1, registry_get. rewrite Hnm'.
      destruct (routable (status nm')) eqn:Hrt.
      * destruct (IH (acc ++ [nm_id]) w2) as (w' & Hrun & Henv & Href & Hkeep).
        exists w'. rewrite Hrun. rewrite filter_cons.
        assert (eligible (router w') nm_id = true) as Hel.
        { unfold eligible. rewrite (Hkeep nm_id Hnotin), Hnm'. exact Hrt. }
        rewrite Hel. simpl. rewrite <- app_assoc. simpl.
        split; [reflexivity|]. split; [rewrite Henv, Henv2; reflexivity|].
        split; [eapply refreshed_trans; eauto|].
        intros x Hx. apply not_elem_of_cons in Hx. destruct Hx as [Hne Hx].
        rewrite (Hkeep x Hx). apply Hother. exact Hne.
      * destruct (IH acc w2) as (w' & Hrun & Henv & Href & Hkeep).
        exists w'. rewrite Hrun. rewrite filter_cons.
        assert (eligible (router w') nm_id = false) as Hel.
        { unfold eligible. rewrite (Hkeep nm_id Hnotin), Hnm'. exact Hrt. }
        rewrite Hel. simpl.
        split; [reflexivity|]. split; [rewrite Henv, Henv2; reflexivity|].
        split; [eapply refreshed_trans; eauto|].
        intros x Hx. apply not_elem_of_cons in Hx. destruct Hx as [Hne Hx].
        rewrite (Hkeep x Hx). apply Hother. exact Hne.
    + destruct (IH acc w) as (w' & Hrun & Henv & Href & Hkeep).
      exists w'. rewrite Hrun. rewrite filter_cons.
      assert (eligible (router w') nm_id = false) as Hel.
      { unfold eligible. rewrite (Hkeep nm_id Hnotin), Hnm. reflexivity. }
      rewrite Hel. simpl.
      split; [reflexivity|]. split; [exact Henv|]. split; [exact Href|].
      intros x Hx. apply not_elem_of_cons in Hx. destruct Hx as [Hne Hx].
      apply Hkeep. exact Hx.
Qed.

(** X2. When the pool of the domain lists no id twice,
    [get_healthy_nms_in_domain] returns, in pool order, exactly the ids of
    the pool that are registered and Healthy or Degraded once the call has
    refreshed them; it never raises, changes health fields only, and leaves
    NMs outside the pool alone. *)
Theorem get_healthy_nms_in_domain_result (d : Domain) (w : World) :
  NoDup (pool_of (router w) d) ->
  exists w',
    get_healthy_nms_in_domain d w
    = Ok (filter (fun x => eligible (router w') x) (pool_of (router w) d), w') /\
    env w' = env w /\
    refreshed (router w) (router w') /\
    (forall x, x ∉ pool_of (router w) d ->
               nm_registry (router w') !! x = nm_registry (router w) !! x).
Proof.
  intros Hnd. unfold get_healthy_nms_in_domain, bind, get_router.
  unfold pool_of in *.
  destruct (domain_pools (router w) !! d) as [pool|]; simpl in *.
  - destruct (healthy_loop_exact pool Hnd [] w) as (w' & Hrun & Henv & Href & Hkeep).
    exists w'. simpl in Hrun. auto.
  - exists w. unfold ret. split; [reflexivity|]. split; [reflexivity|].
    split; [apply refreshed_refl | reflexivity].
Qed.

Lemma get_healthy_nms_in_domain_result_witness :
  exists w',
    get_healthy_nms_in_domain MEDICAL demo_world
    = Ok (filter (fun x => eligible (router w') x) (pool_of (router demo_world) MEDICAL),
          w') /\
    env w' = env demo_world /\
    refreshed (router demo_world) (router w') /\
    (forall x, x ∉ pool_of (router demo_world) MEDICAL ->
               nm_registry (router w') !! x = nm_registry (router demo_world) !! x).
Proof.
  apply (get_healthy_nms_in_domain_result MEDICAL demo_world).
  apply reachable_pool_NoDup. apply world_of_reachable.
Defined.

(** ** What the calls leave alone *)

Lemma wp_final {A} (m : M A) (w : World) (P : World -> Prop) :
  wp m w (fun _ w' => P w') (fun _ w' => P w') <-> P (final_world (m w)).
Proof. unfold wp, final_world. destruct (m w) as [[a w']|e w']; reflexivity. Qed.

Lemma final_world_Ok {A} (m : M A) (w w' : World) (a : A) :
  m w = Ok (a, w') -> final_world (m w) = w'.
Proof. intros ->. reflexivity. Qed.

Lemma final_world_Raise {A} (m : M A) (w w' : World) (e : PyExn) :
  m w = Raise e w' -> final_world (m w) = w'.
Proof. intros ->. reflexivity. Qed.

Lemma same_static_field {A} (f : NarrowModel -> A) (r r' : ADPRouter) (nm_id : string) :
  (forall nm, f (forget_dynamic nm) = f nm) ->
  same_static r r' ->
  f <$> nm_registry r' !! nm_id = f <$> nm_registry r !! nm_id.
Proof.
  intros Hf Hst. pose proof (same_static_lookup r r' nm_id Hst) as Hl.
  destruct (nm_registry r' !! nm_id) as [nm'|], (nm_registry r !! nm_id) as [nm|];
    simpl in *; try discriminate; [|reflexivity].
  apply (inj Some) in Hl. rewrite <- (Hf nm'), <- (Hf nm), Hl. reflexivity.
Qed.

(** Every call but a registration leaves the pools, the interval and the
    static fields of every NM as they are, whether it returns or raises. *)
Lemma run_call_static (c : Call) (w : World) :
  is_registration c = false ->
  same_static (router w) (router (final_world (run_call c w))) /\
  env (final_world (run_call c w)) = env w.
Proof.
  intros Hc.
  apply (wp_final (run_call c) w
           (fun w' => same_static (router w) (router w') /\ env w' = env w)).
  destruct c as [nm|nm_id|domain|nm_ids|nm_ids domain|request|nm_id|];
    try discriminate Hc; simpl.
  - apply wp_bind.
    destruct (perform_health_check_refreshed nm_id w) as (b & w1 & Hrun & Henv & Href).
    eapply wp_Ok; [exact Hrun|]. apply wp_ret.
    split; [apply refreshed_same_static; exact Href | exact Henv].
  - apply wp_bind.
    destruct (get_healthy_nms_in_domain_spec domain w) as (l & w1 & Hrun & Henv & Href & _).
    eapply wp_Ok; [exact Hrun|]. apply wp_ret.
    split; [apply refreshed_same_static; exact Href | exact Henv].
  - apply wp_bind. destruct nm_ids as [|y0 l0].
    + apply wp_ret. apply wp_ret. split; [apply same_static_refl | reflexivity].
    + eapply wp_mono;
        [apply (calculate_weighted_selection_wp (y0 :: l0) w); discriminate | |].
      * intros o w' (-> & _). apply wp_ret. split; [apply same_static_refl | reflexivity].
      * intros e w' (_ & _ & Hr & He).
        split; [rewrite Hr; apply same_static_refl | exact He].
  - apply wp_bind. destruct nm_ids as [|y0 l0].
    + apply wp_ret. apply wp_ret. split; [apply same_static_refl | reflexivity].
    + eapply wp_mono;
        [apply (round_robin_selection_wp (y0 :: l0) domain w); discriminate | |].
      * intros o w' (x & c & _ & _ & _ & ->). apply wp_ret.
        split; [apply same_static_set_indices | reflexivity].
      * intros e w' (_ & _ & ->). split; [apply same_static_refl | reflexivity].
  - apply wp_bind.
    eapply wp_mono; [apply route_request_wp | |].
    + intros d w' (Henv & Hst & _). apply wp_ret. split; assumption.
    + intros e w' (_ & _ & Henv & Hst & _). split; assumption.
  - destruct (complete_request_spec nm_id w) as (w1 & Hrun & Henv & _ & Hst & _).
    eapply wp_Ok; [exact Hrun|]. split; assumption.
  - apply wp_bind.
    eapply wp_mono; [apply get_routing_stats_wp | |].
    + intros s w' ->. apply wp_ret. split; [apply same_static_refl | reflexivity].
    + intros e w' ->. split; [apply same_static_refl | reflexivity].
Qed.

(** A registration returns, and its outcome is the one of [register_nm]. *)
Lemma run_call_register (nm : NarrowModel) (w : World) :
  exists r',
    register_nm nm w = Ok (true, mkWorld r' (env w) (tick w)) /\
    final_world (run_call (CallRegister nm) w) = mkWorld r' (env w) (tick w).
Proof.
  destruct (register_nm_spec nm w) as (r' & Hrun & _).
  exists r'. split; [exact Hrun|]. simpl. unfold bind. rewrite Hrun. reflexivity.
Qed.

(** X3. Apart from [register_nm], no method of the router adds, removes or
    moves an NM: whether the call returns or raises, the pools, the health
    check interval, the keys of the registry and, for every NM, its id,
    domain, endpoint, capabilities, weight, average response time, accuracy
    and capacity are what they were. *)
Theorem run_call_static_fields (c : Call) (w : World) :
  is_registration c = false ->
  let w' := final_world (run_call c w) in
  domain_pools (router w') = domain_pools (router w) /\
  health_check_interval (router w') = health_check_interval (router w) /\
  forall k,
    static_fields <$> nm_registry (router w') !! k
    = static_fields <$> nm_registry (router w) !! k.
Proof.
  intros Hc w'. destruct (run_call_static c w Hc) as [Hst _]. fold w' in Hst.
  split; [apply same_static_pools; exact Hst|].
  split; [apply (f_equal health_check_interval) in Hst; exact Hst|].
  intros k. apply same_static_field; [reflexivity | exact Hst].
Qed.

Lemma run_call_static_fields_witness :
  let c := CallRoute (mkReq "req-001" MEDICAL "high" None true) in
  let w' := final_world (run_call c demo_world) in
  domain_pools (router w') = domain_pools (router demo_world) /\
  health_check_interval (router w') = health_check_interval (router demo_world) /\
  forall k,
    static_fields <$> nm_registry (router w') !! k
    = static_fields <$> nm_registry (router demo_world) !! k.
Proof.
  apply (run_call_static_fields
           (CallRoute (mkReq "req-001" MEDICAL "high" None true)) demo_world).
  reflexivity.
Defined.

(** X4. Pools only grow, and only at the end: after any call, returned or
    raised, the former pool of every domain is a prefix of its pool. *)
Theorem run_call_pools_grow (c : Call) (w : World) (d : Domain) :
  pool_of (router w) d `prefix_of` pool_of (router (final_world (run_call c w))) d.
Proof.
  destruct (is_registration c) eqn:Hc.
  - destruct c as [nm| | | | | | |]; try discriminate Hc.
    destruct (run_call_register nm w) as (r' & Hrun & ->).
    destruct (register_nm_spec nm w) as (r'' & Hrun' & _ & _ & Hpools & _).
    rewrite Hrun in Hrun'. inversion Hrun'; subst r''. simpl.
    unfold pool_of at 2. rewrite Hpools. destruct (decide (d = nm_domain nm)) as [->|Hd].
    + simpl. destruct (mem (nm_id nm) (pool_of (router w) (nm_domain nm))).
      * reflexivity.
      * apply prefix_app_r. reflexivity.
    + reflexivity.
  - destruct (run_call_static c w Hc) as [Hst _].
    unfold pool_of. rewrite (same_static_pools _ _ Hst). reflexivity.
Qed.

Lemma run_call_keeps_listed (c : Call) (w : World) :
  registry_keyed (router w) /\ registry_listed (router w) ->
  registry_keyed (router (final_world (run_call c w))) /\
  registry_listed (router (final_world (run_call c w))).
Proof.
  intros [Hk Hl]. destruct (is_registration c) eqn:Hc.
  - destruct c as [nm| | | | | | |]; try discriminate Hc.
    destruct (run_call_register nm w) as (r' & Hrun & ->).
    destruct (register_nm_spec nm w) as (r'' & Hrun' & Hreg & _ & Hpools & _).
    rewrite Hrun in Hrun'. inversion Hrun'; subst r''. simpl.
    assert (forall k' nm', nm_registry r' !! k' = Some nm' ->
              (k' = nm_id nm /\ nm' = nm) \/
              (k' <> nm_id nm /\ nm_registry (router w) !! k' = Some nm')) as Hcases.
    { intros k' nm' Hl'. rewrite Hreg in Hl'.
      destruct (decide (k' = nm_id nm)) as [->|Hne].
      - rewrite lookup_insert_eq in Hl'. left. split; congruence.
      - rewrite lookup_insert_ne in Hl' by congruence. right. auto. }
    split.
    + intros k' nm' Hl'. destruct (Hcases k' nm' Hl') as [[-> ->]|[_ Hold]];
        [reflexivity | eauto].
    + intros k' nm' Hl'. unfold pool_of. rewrite Hpools.
      destruct (Hcases k' nm' Hl') as [[-> ->]|[_ Hold]].
      * rewrite decide_True by reflexivity. simpl.
        destruct (mem (nm_id nm) (pool_of (router w) (nm_domain nm))) eqn:Hm.
        -- apply bool_decide_eq_true in Hm. exact Hm.
        -- apply elem_of_app. right. apply list_elem_of_singleton. reflexivity.
      * specialize (Hl k' nm' Hold).
        destruct (decide (nm_domain nm' = nm_domain nm)) as [Heq|Hne]; simpl.
        -- destruct (mem (nm_id nm) (pool_of (router w) (nm_domain nm')));
             [exact Hl | apply elem_of_app; left; exact Hl].
        -- exact Hl.
  - destruct (run_call_static c w Hc) as [Hst _].
    set (w' := final_world (run_call c w)) in *.
    assert (forall k' nm', nm_registry (router w') !! k' = Some nm' ->
              exists nm0, nm_registry (router w) !! k' = Some nm0 /\
                          nm_id nm' = nm_id nm0 /\ nm_domain nm' = nm_domain nm0) as Hold.
    { intros k' nm' Hl'.
      pose proof (same_static_field nm_id _ _ k' (fun _ => eq_refl) Hst) as Hi.
      pose proof (same_static_field nm_domain _ _ k' (fun _ => eq_refl) Hst) as Hd.
      rewrite Hl' in Hi, Hd.
      destruct (nm_registry (router w) !! k') as [nm0|]; simpl in *; [|discriminate].
      exists nm0. split; [reflexivity|]. split; congruence. }
    split.
    + intros k' nm' Hl'. destruct (Hold k' nm' Hl') as (nm0 & H0 & Hi & _).
      rewrite Hi. eauto.
    + intros k' nm' Hl'. destruct (Hold k' nm' Hl') as (nm0 & H0 & _ & Hd).
      unfold pool_of. rewrite (same_static_pools _ _ Hst), Hd. apply (Hl k' nm0 H0).
Qed.

(** X5. In every reachable state each NM of the registry is stored under
    its own id and is listed in the pool of the domain it carries. *)
Theorem reachable_registry_listed (w : World) (k : string) (nm : NarrowModel) :
  reachable w ->
  nm_registry (router w) !! k = Some nm ->
  nm_id nm = k /\ k ∈ pool_of (router w) (nm_domain nm).
Proof.
  intros Hw. revert k nm.
  assert (registry_keyed (router w) /\ registry_listed (router w)) as [Hk Hl].
  { induction Hw as [e|c w w' _ IH Hrun|c e w w' _ IH Hrun].
    - split; intros k nm Hnm; simpl in Hnm; rewrite lookup_empty in Hnm;
        discriminate Hnm.
    - rewrite <- (final_world_Ok _ _ _ _ Hrun). apply run_call_keeps_listed, IH.
    - rewrite <- (final_world_Raise _ _ _ _ Hrun). apply run_call_keeps_listed, IH. }
  intros k nm Hnm. split; [apply Hk | apply Hl]; exact Hnm.
Qed.

Lemma reachable_registry_listed_witness :
  nm_id med_cardio_01 = "med-cardio-01" /\
  "med-cardio-01" ∈ pool_of (router demo_world) (nm_domain med_cardio_01).
Proof.
  apply (reachable_registry_listed demo_world "med-cardio-01" med_cardio_01).
  - apply world_of_reachable.
  - vm_compute. reflexivity.
Defined.

(** ** Registration *)

Lemma router_eq (r r' : ADPRouter) :
  nm_registry r = nm_registry r' ->
  (forall d, domain_pools r !! d = domain_pools r' !! d) ->
  (forall d, round_robin_indices r !! d = round_robin_indices r' !! d) ->
  health_check_interval r = health_check_interval r' ->
  r = r'.
Proof.
  destruct r, r'; simpl. intros -> Hp Hi ->. f_equal; apply map_eq; assumption.
Qed.

(** X6. Registering an NM whose id is already listed in the pool of its
    domain replaces the stored record and nothing else: the pools and the
    round-robin cursors, the one of its domain included, stay. *)
Theorem register_nm_again (nm : NarrowModel) (w : World) :
  nm_id nm ∈ pool_of (router w) (nm_domain nm) ->
  register_nm nm w
  = Ok (true,
        mkWorld (set_registry (<[nm_id nm := nm]> (nm_registry (router w))) (router w))
                (env w) (tick w)).
Proof.
  intros Hin. unfold pool_of in Hin.
  unfold register_nm, bind, get_router, put_router, ret. simpl.
  destruct (domain_pools (router w) !! nm_domain nm) as [pool|] eqn:Hpool; simpl in Hin.
  - simpl. rewrite Hpool. unfold mem. rewrite bool_decide_eq_true_2 by exact Hin.
    reflexivity.
  - apply elem_of_nil in Hin. destruct Hin.
Qed.

Lemma register_nm_again_witness :
  register_nm med_general_01_moved moved_world
  = Ok (true,
        mkWorld (set_registry
                   (<[nm_id med_general_01_moved := med_general_01_moved]>
                      (nm_registry (router moved_world)))
                   (router moved_world))
                (env moved_world) (tick moved_world)).
Proof.
  apply (register_nm_again med_general_01_moved moved_world).
  apply (bool_decide_unpack _). vm_compute. exact I.
Defined.

(** X7. [register_nm] is idempotent: registering the same NM a second time
    returns [True] again and leaves the router exactly as the first
    registration left it. *)
Theorem register_nm_idempotent (nm : NarrowModel) (w : World) :
  exists w1,
    register_nm nm w = Ok (true, w1) /\ register_nm nm w1 = Ok (true, w1).
Proof.
  destruct (register_nm_spec nm w) as (r1 & Hrun1 & Hreg1 & Hint1 & Hpools1 & Hix1).
  set (w1 := mkWorld r1 (env w) (tick w)) in *.
  destruct (register_nm_spec nm w1) as (r2 & Hrun2 & Hreg2 & Hint2 & Hpools2 & Hix2).
  exists w1. split; [exact Hrun1|]. rewrite Hrun2. do 2 f_equal.
  unfold w1 at 2. simpl. f_equal.
  assert (domain_pools r1 !! nm_domain nm
          = Some (let pool := pool_of (router w) (nm_domain nm) in
                  if mem (nm_id nm) pool then pool else pool ++ [nm_id nm])) as Hdom.
  { rewrite Hpools1. rewrite decide_True by reflexivity. reflexivity. }
  apply router_eq.
  - rewrite Hreg2. simpl. rewrite Hreg1. apply insert_insert_eq.
  - intros d. rewrite Hpools2. simpl. destruct (decide (d = nm_domain nm)) as [->|Hd];
      [|reflexivity].
    unfold pool_of at 1 2 3. rewrite Hdom. simpl.
    destruct (mem (nm_id nm) (pool_of (router w) (nm_domain nm))) eqn:Hm.
    + rewrite Hm. reflexivity.
    + unfold mem at 1. rewrite bool_decide_eq_true_2; [reflexivity|].
      apply elem_of_app. right. apply list_elem_of_singleton. reflexivity.
  - intros d. rewrite Hix2. simpl. destruct (decide (d = nm_domain nm)) as [->|Hd];
      [|reflexivity].
    rewrite Hdom. reflexivity.
  - rewrite Hint2. reflexivity.
Qed.

(** ** Load accounting *)

Lemma loads_nonneg_load_of (r : ADPRouter) :
  loads_nonneg r <-> forall id n, load_of r id = Some n -> 0 <= n.
Proof.
  unfold loads_nonneg, map_Forall, load_of. split.
  - intros H id n Hn. destruct (nm_registry r !! id) as [nm|] eqn:Hnm;
      simpl in Hn; [|discriminate]. inversion Hn; subst. eauto.
  - intros H k nm Hnm. apply (H k). rewrite Hnm. reflexivity.
Qed.

Lemma loads_nonneg_step (r r' : ADPRouter) :
  (forall id n', load_of r' id = Some n' ->
                 0 <= n' \/ exists n, load_of r id = Some n /\ n <= n') ->
  loads_nonneg r -> loads_nonneg r'.
Proof.
  rewrite !loads_nonneg_load_of. intros Hstep H id n' Hn'.
  destruct (Hstep id n' Hn') as [Hpos|(n & Hn & Hle)]; [exact Hpos|].
  specialize (H id n Hn). lia.
Qed.

Lemma loads_nonneg_same (r r' : ADPRouter) :
  (forall id, load_of r' id = load_of r id) ->
  loads_nonneg r -> loads_nonneg r'.
Proof.
  intros Heq. apply loads_nonneg_step. intros id n' Hn'. right.
  exists n'. rewrite <- Heq. split; [exact Hn' | lia].
Qed.

Lemma bumps_nonneg (d : RoutingDecision) (k : string) : 0 <= bumps d k.
Proof.
  unfold bumps.
  destruct (truthy (primary d) && bool_decide (primary d = Some k));
    destruct (bool_decide (k ∈ validation d)); lia.
Qed.

(** X8. No method makes a load negative.  If every registered NM has a
    non-negative [current_load], it still has after any call, returned or
    raised; the one way in for a negative load is to register an NM that
    carries one. *)
Theorem run_call_loads_nonneg (c : Call) (w : World) :
  loads_nonneg (router w) ->
  (forall nm, c = CallRegister nm -> 0 <= current_load nm) ->
  loads_nonneg (router (final_world (run_call c w))).
Proof.
  intros Hinv Hreg.
  apply (wp_final (run_call c) w (fun w' => loads_nonneg (router w'))).
  destruct c as [nm|nm_id|domain|nm_ids|nm_ids domain|request|nm_id|]; simpl.
  - apply wp_bind.
    destruct (register_nm_spec nm w) as (r' & Hrun & Hr & _).
    eapply wp_Ok; [exact Hrun|]. apply wp_ret. simpl.
    unfold loads_nonneg. rewrite Hr. apply map_Forall_insert_2; [|exact Hinv].
    apply Hreg. reflexivity.
  - apply wp_bind.
    destruct (perform_health_check_refreshed nm_id w) as (b & w1 & Hrun & _ & Href).
    eapply wp_Ok; [exact Hrun|]. apply wp_ret.
    eapply loads_nonneg_same; [|exact Hinv].
    intros id. apply refreshed_load_of. exact Href.
  - apply wp_bind.
    destruct (get_healthy_nms_in_domain_spec domain w) as (l & w1 & Hrun & _ & Href & _).
    eapply wp_Ok; [exact Hrun|]. apply wp_ret.
    eapply loads_nonneg_same; [|exact Hinv].
    intros id. apply refreshed_load_of. exact Href.
  - apply wp_bind. destruct nm_ids as [|y0 l0].
    + apply wp_ret. apply wp_ret. exact Hinv.
    + eapply wp_mono;
        [apply (calculate_weighted_selection_wp (y0 :: l0) w); discriminate | |].
      * intros o w' (-> & _). apply wp_ret. exact Hinv.
      * intros e w' (_ & _ & Hr & _). rewrite Hr. exact Hinv.
  - apply wp_bind. destruct nm_ids as [|y0 l0].
    + apply wp_ret. apply wp_ret. exact Hinv.
    + eapply wp_mono;
        [apply (round_robin_selection_wp (y0 :: l0) domain w); discriminate | |].
      * intros o w' (x & c & _ & _ & _ & ->). apply wp_ret. exact Hinv.
      * intros e w' (_ & _ & ->). exact Hinv.
  - apply wp_bind.
    eapply wp_mono; [apply route_request_wp | |].
    + intros d w' (_ & _ & _ & _ & _ & _ & Hloads). apply wp_ret.
      destruct (preferred_usable (router w) request) as [p|].
      * destruct Hloads as [_ Hloads]. eapply loads_nonneg_same; eauto.
      * destruct Hloads as [_ Hloads]. eapply loads_nonneg_step; [|exact Hinv].
        intros id n' Hn'. right. rewrite Hloads in Hn'.
        destruct (load_of (router w) id) as [n|]; simpl in Hn'; [|discriminate].
        exists n. split; [reflexivity|]. inversion Hn'; subst.
        pose proof (bumps_nonneg d id). lia.
    + intros e w' (_ & _ & _ & _ & _ & Hloads). eapply loads_nonneg_same; eauto.
  - destruct (complete_request_spec nm_id w) as (w1 & Hrun & _ & _ & _ & Hloads).
    eapply wp_Ok; [exact Hrun|].
    eapply loads_nonneg_step; [|exact Hinv].
    intros id n' Hn'. rewrite Hloads in Hn'. destruct (decide (id = nm_id)) as [->|Hne].
    + left. destruct (load_of (router w) nm_id) as [n|]; simpl in Hn'; [|discriminate].
      inversion Hn'; subst. lia.
    + right. exists n'. split; [exact Hn' | lia].
  - apply wp_bind.
    eapply wp_mono; [apply get_routing_stats_wp | |].
    + intros s w' ->. apply wp_ret. exact Hinv.
    + intros e w' ->. exact Hinv.
Qed.

Lemma run_call_loads_nonneg_witness :
  loads_nonneg
    (router (final_world
               (run_call (CallRoute (mkReq "req-001" MEDICAL "urgent" None true))
                         demo_world))).
Proof.
  apply (run_call_loads_nonneg
           (CallRoute (mkReq "req-001" MEDICAL "urgent" None true)) demo_world).
  - apply (bool_decide_unpack _). vm_compute. exact I.
  - intros nm Hc. discriminate Hc.
Defined.

(** ** Weighted selection *)

Lemma effective_weight_raises (nm : NarrowModel) (e : PyExn) :
  effective_weight nm = Raise e tt ->
  (e = ZeroDivisionError /\ max_concurrent nm = 0) \/
  (e = OverflowError /\ max_concurrent nm <> 0 /\ ~ load_ratio_defined nm).
Proof.
  unfold effective_weight.
  destruct (py_truediv (current_load nm) (max_concurrent nm)) as [q|e' []] eqn:Hq;
    [discriminate|].
  intros H. inversion H; subst e'. clear H.
  assert (~ load_ratio_defined nm) as Hnot.
  { intros [q Hq']. congruence. }
  unfold py_truediv in Hq. destruct (decide (max_concurrent nm = 0)) as [H0|H0].
  - left. split; [congruence | exact H0].
  - right. split; [|split; assumption].
    destruct (SpecFloat.SFdiv _ _ _ _); congruence.
Qed.

Lemma weigh_candidates_outcome (reg : gmap string NarrowModel) (nm_ids : list string) :
  match weigh_candidates reg nm_ids with
  | Ok _ => weighable reg nm_ids
  | Raise e _ =>
      (e = KeyError /\ exists x, x ∈ nm_ids /\ reg !! x = None) \/
      (e = ZeroDivisionError /\
       exists x nm, x ∈ nm_ids /\ reg !! x = Some nm /\ max_concurrent nm = 0) \/
      (e = OverflowError /\
       exists x nm, x ∈ nm_ids /\ reg !! x = Some nm /\ max_concurrent nm <> 0 /\
                    ~ load_ratio_defined nm)
  end.
Proof.
  induction nm_ids as [|x rest IH]; simpl.
  - intros y Hy. apply elem_of_nil in Hy. destruct Hy.
  - destruct (reg !! x) as [nm|] eqn:Hnm.
    + destruct (effective_weight nm) as [wt|e []] eqn:Hwt.
      * destruct (weigh_candidates reg rest) as [wc|e []].
        -- intros y Hy. apply elem_of_cons in Hy. destruct Hy as [->|Hy].
           ++ exists nm. split; [exact Hnm|]. apply effective_weight_defined. eauto.
           ++ apply IH. exact Hy.
        -- destruct IH as [(He & y & Hy & Hl)|[(He & y & nmy & Hy & Hl & H0)
                                              |(He & y & nmy & Hy & Hl & H0 & Hn)]].
           ++ left. split; [exact He|]. exists y. split; [right; exact Hy | exact Hl].
           ++ right. left. split; [exact He|]. exists y, nmy.
              split; [right; exact Hy | auto].
           ++ right. right. split; [exact He|]. exists y, nmy.
              split; [right; exact Hy | auto].
      * destruct (effective_weight_raises nm e Hwt) as [[He H0]|(He & H0 & Hn)].
        -- right. left. split; [exact He|]. exists x, nm. split; [left | auto].
        -- right. right. split; [exact He|]. exists x, nm. split; [left | auto].
    + left. split; [reflexivity|]. exists x. split; [left | exact Hnm].
Qed.

(** X9. [calculate_weighted_selection] on a non-empty list returns exactly
    when every candidate is registered with a defined load ratio, and then
    gives a member of the list after one read of the random source, the
    router untouched.  Otherwise it raises before any draw and leaves the
    world as it was: [KeyError] for an unregistered candidate,
    [ZeroDivisionError] for one without capacity, [OverflowError] for one
    whose load ratio is no float. *)
Theorem calculate_weighted_selection_outcome (nm_ids : list string) (w : World) :
  nm_ids <> [] ->
  match calculate_weighted_selection nm_ids w with
  | Ok (o, w') =>
      weighable (nm_registry (router w)) nm_ids /\
      w' = next_tick w /\ exists x, o = Some x /\ x ∈ nm_ids
  | Raise e w' =>
      w' = w /\
      ((e = KeyError /\ exists x, x ∈ nm_ids /\ nm_registry (router w) !! x = None) \/
       (e = ZeroDivisionError /\
        exists x nm, x ∈ nm_ids /\ nm_registry (router w) !! x = Some nm /\
                     max_concurrent nm = 0) \/
       (e = OverflowError /\
        exists x nm, x ∈ nm_ids /\ nm_registry (router w) !! x = Some nm /\
                     max_concurrent nm <> 0 /\ ~ load_ratio_defined nm))
  end.
Proof.
  intros Hne. pose proof (weigh_candidates_outcome (nm_registry (router w)) nm_ids) as Hw.
  destruct (weigh_candidates (nm_registry (router w)) nm_ids) as [wc|e []] eqn:Hwc.
  - destruct (calculate_weighted_selection_total nm_ids w Hw) as (o & w' & Hrun).
    rewrite Hrun. split; [exact Hw|].
    pose proof (calculate_weighted_selection_returns nm_ids w w' o Hrun) as Hret.
    destruct nm_ids; [contradiction | exact Hret].
  - assert (calculate_weighted_selection nm_ids w = Raise e w) as ->.
    { destruct nm_ids as [|y l]; [contradiction|].
      unfold calculate_weighted_selection, bind, get_router, lift_result.
      rewrite Hwc. reflexivity. }
    split; [reflexivity | exact Hw].
Qed.

Lemma calculate_weighted_selection_outcome_witness :
  match calculate_weighted_selection ["med-zero-01"; "med-general-01"]
          zero_capacity_world with
  | Ok (o, w') =>
      weighable (nm_registry (router zero_capacity_world))
                ["med-zero-01"; "med-general-01"] /\
      w' = next_tick zero_capacity_world /\
      exists x, o = Some x /\ x ∈ ["med-zero-01"; "med-general-01"]
  | Raise e w' =>
      w' = zero_capacity_world /\
      ((e = KeyError /\
        exists x, x ∈ ["med-zero-01"; "med-general-01"] /\
                  nm_registry (router zero_capacity_world) !! x = None) \/
       (e = ZeroDivisionError /\
        exists x nm, x ∈ ["med-zero-01"; "med-general-01"] /\
                     nm_registry (router zero_capacity_world) !! x = Some nm /\
                     max_concurrent nm = 0) \/
       (e = OverflowError /\
        exists x nm, x ∈ ["med-zero-01"; "med-general-01"] /\
                     nm_registry (router zero_capacity_world) !! x = Some nm /\
                     max_concurrent nm <> 0 /\ ~ load_ratio_defined nm))
  end.
Proof.
  apply (calculate_weighted_selection_outcome
           ["med-zero-01"; "med-general-01"] zero_capacity_world).
  discriminate.
Defined.

(** ** Round robin *)

Lemma with_cursor_twice (w : World) (d : Domain) (a b : Z) :
  with_cursor (with_cursor w d a) d b = with_cursor w d b.
Proof.
  unfold with_cursor. simpl. f_equal. unfold set_indices. simpl. f_equal.
  apply insert_insert_eq.
Qed.

(** X10. Consecutive calls of [round_robin_selection] on the same non-empty
    list walk it cyclically: from a non-negative cursor, call number [i]
    (from 0) returns the element at position [(pos + i) mod len], where
    [pos] is the cursor, or 0 if the cursor is past the end; after the
    calls the cursor is [(pos + k) mod len].  So [len] calls return every
    element once, in list order from [pos], and bring the cursor back. *)
Theorem round_robin_calls_cycle (k : nat) (nm_ids : list string) (d : Domain)
    (w : World) :
  nm_ids <> [] ->
  0 <= cursor w d ->
  let n := Z.of_nat (length nm_ids) in
  let pos := start_position w d n in
  round_robin_calls (S k) nm_ids d w
  = Ok (map (fun i => nm_ids !! Z.to_nat ((pos + Z.of_nat i) `mod` n)) (seq 0 (S k)),
        with_cursor w d ((pos + Z.of_nat (S k)) `mod` n)).
Proof.
  intros Hne. cbv zeta. revert w.
  assert (0 < Z.of_nat (length nm_ids)) as Hn.
  { destruct nm_ids; [contradiction | simpl; lia]. }
  induction k as [|k IH]; intros w Hc.
  - destruct (round_robin_selection_step nm_ids d w Hne Hc) as (x & Hx & Hrun).
    cbv zeta in Hx, Hrun. fold (start_position w d (Z.of_nat (length nm_ids))) in Hx, Hrun.
    simpl round_robin_calls. unfold bind at 1. rewrite Hrun.
    unfold bind, ret. simpl map.
    assert (0 <= start_position w d (Z.of_nat (length nm_ids))
            < Z.of_nat (length nm_ids)) as Hpos.
    { unfold start_position. destruct (decide _); lia. }
    rewrite Z.add_0_r, (Z.mod_small _ _ Hpos), Hx. reflexivity.
  - destruct (round_robin_selection_step nm_ids d w Hne Hc) as (x & Hx & Hrun).
    cbv zeta in Hx, Hrun. fold (start_position w d (Z.of_nat (length nm_ids))) in Hx, Hrun.
    set (n := Z.of_nat (length nm_ids)) in *.
    set (pos := start_position w d n) in *.
    assert (0 <= pos < n) as Hpos.
    { unfold pos, start_position. destruct (decide _); lia. }
    change (round_robin_calls (S (S k)) nm_ids d w)
      with (bind (round_robin_selection nm_ids d)
              (fun selected =>
                 bind (round_robin_calls (S k) nm_ids d)
                   (fun rest => ret (selected :: rest))) w).
    unfold bind at 1. rewrite Hrun. unfold bind at 1.
    set (w1 := with_cursor w d ((pos + 1) `mod` n)).
    assert (cursor w1 d = (pos + 1) `mod` n) as Hc1 by apply cursor_with_cursor.
    assert (0 <= (pos + 1) `mod` n < n) as Hr1 by (apply Z.mod_pos_bound; lia).
    assert (start_position w1 d n = (pos + 1) `mod` n) as Hp1.
    { unfold start_position. rewrite Hc1. apply decide_False. lia. }
    rewrite (IH w1) by (rewrite Hc1; lia). fold n. rewrite Hp1.
    unfold ret, w1. rewrite with_cursor_twice. f_equal. f_equal.
    + change (seq 0 (S (S k))) with (0%nat :: seq 1 (S k)).
      rewrite <- seq_shift. cbn [map]. rewrite map_map.
      rewrite Z.add_0_r, (Z.mod_small _ _ Hpos), Hx. f_equal.
      apply map_ext. intros i. do 2 f_equal.
      rewrite Zplus_mod_idemp_l. f_equal. lia.
    + f_equal. rewrite Zplus_mod_idemp_l. f_equal. lia.
Qed.

Lemma round_robin_calls_cycle_witness :
  let nm_ids := ["med-general-01"; "med-general-02"; "med-general-03"] in
  let n := Z.of_nat (length nm_ids) in
  let pos := start_position demo_world MEDICAL n in
  round_robin_calls 4 nm_ids MEDICAL demo_world
  = Ok (map (fun i => nm_ids !! Z.to_nat ((pos + Z.of_nat i) `mod` n)) (seq 0 4),
        with_cursor demo_world MEDICAL ((pos + Z.of_nat 4) `mod` n)).
Proof.
  apply (round_robin_calls_cycle
           3 ["med-general-01"; "med-general-02"; "med-general-03"] MEDICAL demo_world).
  - discriminate.
  - vm_compute. discriminate.
Defined.

(** ** Validators *)

Lemma list_remove_length (x : string) (l : list string) :
  x ∈ l -> S (length (list_remove x l)) = length l.
Proof.
  induction l as [|y l IH]; intros Hx.
  - apply elem_of_nil in Hx. destruct Hx.
  - simpl. destruct (decide (x = y)) as [->|Hne]; [reflexivity|].
    simpl. f_equal. apply IH. apply elem_of_cons in Hx. destruct Hx; [contradiction|].
    assumption.
Qed.

Lemma list_remove_NoDup (x : string) (l : list string) :
  NoDup l -> NoDup (list_remove x l) /\ x ∉ list_remove x l.
Proof.
  induction 1 as [|y l Hy Hnd IH]; simpl.
  - split; [constructor | apply not_elem_of_nil].
  - destruct (decide (x = y)) as [->|Hne]; [split; assumption|].
    destruct IH as [IH1 IH2]. split.
    + constructor; [|exact IH1]. intros Hin. apply Hy. eapply list_remove_elem. exact Hin.
    + apply not_elem_of_cons. split; assumption.
Qed.

Lemma validation_loop_count (fuel max_validators : nat) :
  forall (candidates validators : list string) (w : World),
  (max_validators <= fuel + length validators)%nat ->
  NoDup candidates ->
  weighable (nm_registry (router w)) candidates ->
  "" ∉ candidates ->
  (forall v, v ∈ validators -> v ∉ candidates) ->
  exists vs w',
    validation_loop fuel max_validators candidates validators w = Ok (vs, w') /\
    router w' = router w /\ env w' = env w /\
    length vs
    = Nat.max (length validators)
        (Nat.min max_validators ((length candidates + length validators + 1) / 2)).
Proof.
  induction fuel as [|fuel IH]; intros candidates validators w Hfuel Hnd Hw Hne Hdisj;
    pose proof (Nat.div_mod_eq (length candidates + length validators + 1) 2) as Hdiv;
    pose proof (Nat.mod_upper_bound (length candidates + length validators + 1) 2
                  ltac:(discriminate)) as Hmod.
  - cbn [validation_loop]. destruct (decide _) as [Hlt|Hge]; [lia|].
    exists validators, w. unfold ret. repeat split; try reflexivity. lia.
  - cbn [validation_loop]. destruct (decide _) as [Hlt|Hge].
    + destruct candidates as [|c0 cs] eqn:Hcs; [simpl in Hlt; lia|]. rewrite <- Hcs in *.
      assert (candidates <> []) as Hnonempty by (rewrite Hcs; discriminate).
      destruct (calculate_weighted_selection_total candidates w Hw) as (o & w1 & Hrun).
      pose proof (calculate_weighted_selection_returns candidates w w1 o Hrun) as Hret.
      rewrite Hcs in Hret. rewrite <- Hcs in Hret.
      destruct Hret as (Hw1 & x & -> & Hx).
      unfold bind at 1. rewrite Hrun.
      assert (truthy (Some x) = true) as Htr.
      { simpl. destruct (String.eqb_spec x ""); [subst; contradiction | reflexivity]. }
      assert (mem x validators = false) as Hmem.
      { apply mem_false. intros Hv. exact (Hdisj x Hv Hx). }
      rewrite Htr, Hmem. simpl andb. cbv iota.
      destruct (list_remove_NoDup x candidates Hnd) as [Hnd' Hnotin].
      pose proof (list_remove_length x candidates Hx) as Hlen.
      destruct (IH (list_remove x candidates) (validators ++ [x]) w1) as
        (vs & w' & Hloop & Hr & He & Hcount).
      * rewrite length_app. simpl. lia.
      * exact Hnd'.
      * subst w1. simpl. intros y Hy. apply Hw. eapply list_remove_elem. exact Hy.
      * intros Hin. apply Hne. eapply list_remove_elem. exact Hin.
      * intros v Hv. apply elem_of_app in Hv. destruct Hv as [Hv|Hv].
        -- intros Hin. apply (Hdisj v Hv). eapply list_remove_elem. exact Hin.
        -- apply list_elem_of_singleton in Hv. subst v. exact Hnotin.
      * exists vs, w'. split; [exact Hloop|]. subst w1. simpl in Hr, He.
        split; [exact Hr|]. split; [exact He|].
        rewrite Hcount, length_app. simpl length.
        replace (length (list_remove x candidates) + (length validators + 1) + 1)%nat
          with (length candidates + length validators + 1)%nat by lia.
        lia.
    + exists validators, w. unfold ret. repeat split; try reflexivity. lia.
Qed.

(** X11. How many validators [_select_validation_nms] returns.  When the
    pool of the domain lists no id twice and not the empty id, and every
    registered NM has a defined load ratio, the call returns, and with [m]
    ids of the pool eligible after its health refresh and not excluded it
    gives [min (max_validators, ceil (m / 2))] validators: the loop
    compares the validators found with the candidates left, so it stops
    once half of them are taken. *)
Theorem select_validation_nms_count (request : RoutingRequest)
    (exclude : list (option string)) (max_validators : nat) (w : World) :
  NoDup (pool_of (router w) (req_domain request)) ->
  ratios_defined (router w) ->
  "" ∉ pool_of (router w) (req_domain request) ->
  exists vs w',
    _select_validation_nms request exclude max_validators w = Ok (vs, w') /\
    length vs
    = Nat.min max_validators
        ((length (filter (fun x => Some x ∉ exclude)
                    (filter (fun x => eligible (router w') x)
                       (pool_of (router w) (req_domain request)))) + 1) / 2).
Proof.
  intros Hnd Hr Hne. unfold _select_validation_nms, bind at 1.
  rewrite get_healthy_nms_in_domain_pool.
  destruct (healthy_loop_exact _ Hnd [] w) as (w1 & Hrun & Henv & Href & _).
  rewrite app_nil_l in Hrun. rewrite Hrun.
  remember (filter (fun x => Some x ∉ exclude)
              (filter (fun x => eligible (router w1) x)
                 (pool_of (router w) (req_domain request)))) as candidates eqn:Hcand.
  destruct candidates as [|c0 cs] eqn:Hcs.
  - exists [], w1. unfold ret. split; [reflexivity|].
    rewrite <- Hcand. simpl. rewrite Nat.min_0_r. reflexivity.
  - rewrite <- Hcs in *. clear Hcs.
    destruct (validation_loop_count max_validators max_validators candidates [] w1)
      as (vs & w' & Hloop & Hrw & _ & Hcount).
    + lia.
    + rewrite Hcand. apply NoDup_filter, NoDup_filter. exact Hnd.
    + intros x Hx. rewrite Hcand in Hx.
      apply list_elem_of_filter in Hx. destruct Hx as [_ Hx].
      apply list_elem_of_filter in Hx. destruct Hx as [Hel _].
      unfold eligible in Hel.
      destruct (nm_registry (router w1) !! x) as [nm|] eqn:Hnm; [|destruct Hel].
      exists nm. split; [reflexivity|].
      apply (refreshed_ratios_defined _ _ Href Hr x nm Hnm).
    + intros Hin. rewrite Hcand in Hin.
      apply list_elem_of_filter in Hin. destruct Hin as [_ Hin].
      apply list_elem_of_filter in Hin. destruct Hin as [_ Hin]. exact (Hne Hin).
    + intros v Hv. apply elem_of_nil in Hv. destruct Hv.
    + exists vs, w'. split; [exact Hloop|]. rewrite Hrw, <- Hcand.
      rewrite Hcount. simpl length. rewrite Nat.add_0_r. apply Nat.max_0_l.
Qed.

Lemma select_validation_nms_count_witness :
  exists vs w',
    _select_validation_nms (mkReq "req-001" MEDICAL "normal" None true)
      [Some "med-general-01"] 2 demo_world = Ok (vs, w') /\
    length vs
    = Nat.min 2
        ((length (filter (fun x => Some x ∉ [Some "med-general-01"])
                    (filter (fun x => eligible (router w') x)
                       (pool_of (router demo_world) MEDICAL))) + 1) / 2).
Proof.
  apply (select_validation_nms_count
           (mkReq "req-001" MEDICAL "normal" None true)
           [Some "med-general-01"] 2 demo_world).
  - apply reachable_pool_NoDup. apply world_of_reachable.
  - change (map_Forall (fun _ nm => load_ratio_defined nm)
              (nm_registry (router demo_world))).
    apply (bool_decide_unpack _). vm_compute. exact I.
  - apply (bool_decide_unpack _). vm_compute. exact I.
Defined.

(** ** Routing *)

(** X12. The preferred shortcut of [route_request] looks at nothing but the
    status of the preferred NM: the priority of the request plays no part,
    the domain of the NM is not compared with the one of the request, and
    no cursor moves.  The decision names the preferred NM as primary, is
    tagged by whether validation was asked for, and carries no pool size;
    without validation the world is left exactly as it was, and only the
    search for validators can raise. *)
Theorem route_request_preferred_bypass (request : RoutingRequest) (w : World)
    (p : string) :
  preferred_usable (router w) request = Some p ->
  (forall pr, route_request (with_priority pr request) w = route_request request w) /\
  match route_request request w with
  | Ok (d, w') =>
      primary d = Some p /\
      routing_method d = (if require_validation request
                          then "preferred_with_validation" else "preferred_only") /\
      error d = None /\ total_available d = None /\
      round_robin_indices (router w') = round_robin_indices (router w) /\
      (require_validation request = false -> validation d = [] /\ w' = w)
  | Raise e w' =>
      require_validation request = true /\
      round_robin_indices (router w') = round_robin_indices (router w)
  end.
Proof.
  intros Hpref. split.
  - intros pr.
    assert (forall req, preferred_usable (router w) req = Some p ->
              route_request req w
              = (if require_validation req then
                   backup_nms <~ _select_validation_nms req [Some p] 2 ;;
                   ret {| primary := Some p; validation := backup_nms;
                          routing_method := "preferred_with_validation";
                          error := None; total_available := None |}
                 else
                   ret {| primary := Some p; validation := [];
                          routing_method := "preferred_only";
                          error := None; total_available := None |}) w) as Hshape.
    { intros req H. unfold route_request, bind at 1, get_router. rewrite H.
      reflexivity. }
    rewrite (Hshape request Hpref), (Hshape (with_priority pr request) Hpref).
    reflexivity.
  - unfold route_request, bind at 1, get_router. rewrite Hpref.
    destruct (require_validation request).
    + pose proof (select_validation_nms_wp request [Some p] 2 w) as Hsel.
      unfold wp in Hsel. unfold bind.
      destruct (_select_validation_nms request [Some p] 2 w) as [[vs w']|e w'].
      * destruct Hsel as (_ & Href & _). unfold ret. simpl.
        repeat split; try reflexivity; try discriminate.
        apply refreshed_indices. exact Href.
      * destruct Hsel as (_ & _ & _ & Href). split; [reflexivity|].
        apply refreshed_indices. exact Href.
    + unfold ret. simpl. repeat split; reflexivity.
Qed.

Lemma route_request_preferred_bypass_witness :
  (forall pr,
     route_request (with_priority pr cross_domain_request) demo_world
     = route_request cross_domain_request demo_world) /\
  match route_request cross_domain_request demo_world with
  | Ok (d, w') =>
      primary d = Some "med-cardio-01" /\
      routing_method d = (if require_validation cross_domain_request
                          then "preferred_with_validation" else "preferred_only") /\
      error d = None /\ total_available d = None /\
      round_robin_indices (router w') = round_robin_indices (router demo_world) /\
      (require_validation cross_domain_request = false ->
       validation d = [] /\ w' = demo_world)
  | Raise e w' =>
      require_validation cross_domain_request = true /\
      round_robin_indices (router w') = round_robin_indices (router demo_world)
  end.
Proof.
  apply (route_request_preferred_bypass cross_domain_request demo_world
           "med-cardio-01").
  vm_compute. reflexivity.
Defined.

Lemma final_bind {A B} (R : World -> World -> Prop) (m : M A) (k : A -> M B)
    (w : World) :
  (forall w1 w2 w3, R w1 w2 -> R w2 w3 -> R w1 w3) ->
  R w (final_world (m w)) ->
  (forall a w1, m w = Ok (a, w1) -> R w1 (final_world (k a w1))) ->
  R w (final_world (bind m k w)).
Proof.
  intros Ht Hm Hk. unfold bind.
  destruct (m w) as [[a w1]|e w1] eqn:H; simpl in *; [eapply Ht; eauto | exact Hm].
Qed.

Lemma cursors_moved_at_trans (request : RoutingRequest) (w1 w2 w3 : World) :
  cursors_moved_at request w1 w2 -> cursors_moved_at request w2 w3 ->
  cursors_moved_at request w1 w3.
Proof.
  intros [H12 U12] [H23 U23]. split.
  - intros d Hd. rewrite (H23 d Hd). apply H12. exact Hd.
  - intros Hu. rewrite (U23 Hu). apply U12. exact Hu.
Qed.

Lemma cursors_moved_at_indices (request : RoutingRequest) (w w' : World) :
  round_robin_indices (router w') = round_robin_indices (router w) ->
  cursors_moved_at request w w'.
Proof. intros H. split; intros; rewrite H; reflexivity. Qed.

Lemma calculate_weighted_selection_final (nm_ids : list string) (w : World) :
  router (final_world (calculate_weighted_selection nm_ids w)) = router w.
Proof.
  destruct (calculate_weighted_selection nm_ids w) as [[o w']|e w'] eqn:Hrun; simpl.
  - apply calculate_weighted_selection_returns in Hrun.
    destruct nm_ids; [destruct Hrun as [_ ->] | destruct Hrun as [-> _]]; reflexivity.
  - apply calculate_weighted_selection_raises in Hrun. apply Hrun.
Qed.

Lemma round_robin_selection_final (nm_ids : list string) (d d' : Domain) (w : World) :
  d' <> d ->
  round_robin_indices (router (final_world (round_robin_selection nm_ids d w))) !! d'
  = round_robin_indices (router w) !! d'.
Proof.
  intros Hd.
  destruct (round_robin_selection nm_ids d w) as [[o w']|e w'] eqn:Hrun; simpl.
  - eapply (round_robin_selection_other nm_ids d' d); [congruence | exact Hrun].
  - destruct nm_ids as [|y l]; [discriminate Hrun|].
    pose proof (round_robin_selection_wp (y :: l) d w ltac:(discriminate)) as H.
    unfold wp in H. rewrite Hrun in H. destruct H as (_ & _ & ->). reflexivity.
Qed.

Lemma as_key_final (o : option string) (w : World) :
  final_world (as_key o w) = w.
Proof. destruct o; reflexivity. Qed.

Lemma select_primary_cursors (request : RoutingRequest) (available_nms : list string)
    (w : World) :
  cursors_moved_at request w (final_world (select_primary request available_nms w)).
Proof.
  assert (forall l w0,
            cursors_moved_at request w0 (final_world (calculate_weighted_selection l w0)))
    as Hcws.
  { intros l w0. apply cursors_moved_at_indices.
    rewrite calculate_weighted_selection_final. reflexivity. }
  assert (forall A (a : A) w0, cursors_moved_at request w0 (final_world (ret a w0)))
    as Hret.
  { intros A a w0. apply cursors_moved_at_indices. reflexivity. }
  assert (forall o w0, cursors_moved_at request w0 (final_world (as_key o w0))) as Hkey.
  { intros o w0. rewrite as_key_final. apply cursors_moved_at_indices. reflexivity. }
  unfold select_primary.
  destruct (String.eqb (priority request) "urgent") eqn:Hu.
  - apply final_bind; [apply cursors_moved_at_trans | apply Hcws |]. intros; apply Hret.
  - assert (forall l w0,
              cursors_moved_at request w0
                (final_world (round_robin_selection l (req_domain request) w0))) as Hrr.
    { intros l w0. split.
      - intros d Hd. apply round_robin_selection_final. exact Hd.
      - intros Hp. rewrite Hp in Hu. discriminate Hu. }
    destruct (String.eqb (priority request) "high").
    + apply final_bind; [apply cursors_moved_at_trans | apply Hrr |]. intros rr w1 _.
      apply final_bind; [apply cursors_moved_at_trans | apply Hcws |]. intros wc w2 _.
      apply final_bind; [apply cursors_moved_at_trans | apply Hkey |]. intros rk w3 _.
      apply final_bind; [apply cursors_moved_at_trans | |].
      * destruct (decide (wc <> rr)); [|apply Hret].
        apply final_bind; [apply cursors_moved_at_trans | apply Hkey |].
        intros; apply Hret.
      * intros top w4 _.
        apply final_bind; [apply cursors_moved_at_trans | apply Hcws |].
        intros; apply Hret.
    + apply final_bind; [apply cursors_moved_at_trans | apply Hrr |]. intros; apply Hret.
Qed.

Lemma select_validation_nms_final (request : RoutingRequest)
    (exclude : list (option string)) (max_validators : nat) (w : World) :
  round_robin_indices
    (router (final_world (_select_validation_nms request exclude max_validators w)))
  = round_robin_indices (router w).
Proof.
  pose proof (select_validation_nms_wp request exclude max_validators w) as Hsel.
  unfold wp in Hsel.
  destruct (_select_validation_nms request exclude max_validators w) as [[vs w']|e w'];
    simpl.
  - destruct Hsel as (_ & Href & _). apply refreshed_indices. exact Href.
  - destruct Hsel as (_ & _ & _ & Href). apply refreshed_indices. exact Href.
Qed.

Lemma increment_load_final (k : string) (w : World) :
  round_robin_indices (router (final_world (increment_load k w)))
  = round_robin_indices (router w).
Proof.
  destruct (nm_registry (router w) !! k) as [nm|] eqn:Hnm.
  - destruct (increment_load_spec k nm w Hnm) as (w' & Hrun & _ & Hix & _).
    rewrite Hrun. exact Hix.
  - unfold increment_load, registry_update, bind, registry_get. rewrite Hnm. reflexivity.
Qed.

(** X13. [route_request] writes no cursor but the one of the request's
    domain, and none at all for an urgent request, whether it returns or
    raises. *)
Theorem route_request_cursors (request : RoutingRequest) (w : World) :
  cursors_moved_at request w (final_world (route_request request w)).
Proof.
  assert (forall A (a : A) w0, cursors_moved_at request w0 (final_world (ret a w0)))
    as Hret.
  { intros A a w0. apply cursors_moved_at_indices. reflexivity. }
  unfold route_request, bind at 1, get_router.
  destruct (preferred_usable (router w) request) as [p|].
  - destruct (require_validation request); [|apply Hret].
    apply final_bind; [apply cursors_moved_at_trans | |intros; apply Hret].
    apply cursors_moved_at_indices, select_validation_nms_final.
  - apply final_bind; [apply cursors_moved_at_trans | |].
    + destruct (get_healthy_nms_in_domain_spec (req_domain request) w)
        as (l & w1 & Hrun & _ & Href & _).
      rewrite Hrun. apply cursors_moved_at_indices, refreshed_indices. exact Href.
    + intros available_nms w1 _. destruct available_nms as [|a0 l0]; [apply Hret|].
      apply final_bind; [apply cursors_moved_at_trans | apply select_primary_cursors |].
      intros sel w2 _.
      apply final_bind; [apply cursors_moved_at_trans | |].
      * destruct (require_validation request); [|apply Hret].
        apply cursors_moved_at_indices, select_validation_nms_final.
      * intros vs w3 _.
        apply final_bind; [apply cursors_moved_at_trans | |].
        -- destruct (truthy (fst sel)); [|apply Hret].
           apply final_bind; [apply cursors_moved_at_trans | |].
           ++ rewrite as_key_final. apply cursors_moved_at_indices. reflexivity.
           ++ intros k w4 _. apply cursors_moved_at_indices, increment_load_final.
        -- intros [] w4 _.
           apply final_bind; [apply cursors_moved_at_trans | |intros; apply Hret].
           destruct (increment_validators_spec vs w4) as (w5 & Hrun & _ & Hix & _).
           rewrite Hrun. apply cursors_moved_at_indices. exact Hix.
Qed.

(** X14. The decision [route_request] makes when no preferred NM is usable
    and the pool of the domain lists no id twice.  Let [w1] be the state
    the health refresh of the call leaves, that is the one
    [get_healthy_nms_in_domain] leaves when called on the domain in the
    state of the call, and let the eligible ids be those of the pool that
    are registered and Healthy or Degraded in [w1]; they are what that call
    returns, and the ids whose turn in the refresh left them eligible.
    With none, the decision is the one without primary, tagged
    ["no_available_nms"], and the call ends in [w1].  Otherwise the primary
    is an eligible id, the tag is the one of the priority, there is no
    error text, and [total_available] is the number of eligible ids. *)
Theorem route_request_pool_decision (request : RoutingRequest) (w w' : World)
    (d : RoutingDecision) :
  preferred_usable (router w) request = None ->
  NoDup (pool_of (router w) (req_domain request)) ->
  route_request request w = Ok (d, w') ->
  let w1 := final_world (get_healthy_nms_in_domain (req_domain request) w) in
  let eligible_nms :=
    filter (fun x => eligible (router w1) x)
           (pool_of (router w) (req_domain request)) in
  get_healthy_nms_in_domain (req_domain request) w = Ok (eligible_nms, w1) /\
  eligible_nms
  = eligible_turns (health_check_interval (router w)) (env w)
      (refresh_turns (health_check_interval (router w)) (env w)
         (nm_registry (router w)) (pool_of (router w) (req_domain request))
         (tick w)) /\
  match eligible_nms with
  | [] => d = no_available_decision (req_domain request) /\ w' = w1
  | _ =>
      total_available d = Some (length eligible_nms) /\
      error d = None /\
      routing_method d = method_of_priority (priority request) /\
      exists p, primary d = Some p /\ p ∈ eligible_nms
  end.
Proof.
  intros Hpref Hnd Hrun.
  destruct (route_request_pool_shape request w w' d Hpref Hrun)
    as (available_nms & w1 & Hhealthy & Hshape).
  rewrite Hhealthy. cbn [final_world].
  rewrite get_healthy_nms_in_domain_pool in Hhealthy.
  destruct (healthy_loop_exact _ Hnd [] w) as (w1' & Hloop & _ & _ & _).
  rewrite Hhealthy in Hloop. rewrite app_nil_l in Hloop.
  inversion Hloop as [[Hav Hw1]]. subst w1'. clear Hloop.
  destruct (healthy_loop_turns _ Hnd [] w) as (w1' & Hloop & _ & _).
  rewrite Hhealthy in Hloop. rewrite app_nil_l in Hloop.
  inversion Hloop as [[Hturns Hw1]]. subst w1'. clear Hloop.
  cbv zeta. rewrite <- Hav. split; [reflexivity|]. split; [exact Hturns | exact Hshape].
Qed.

Lemma route_request_pool_decision_witness :
  exists d w',
    route_request (mkReq "req-002" MEDICAL "urgent" None true) demo_world = Ok (d, w') /\
    let w1 := final_world (get_healthy_nms_in_domain MEDICAL demo_world) in
    let eligible_nms :=
      filter (fun x => eligible (router w1) x) (pool_of (router demo_world) MEDICAL) in
    get_healthy_nms_in_domain MEDICAL demo_world = Ok (eligible_nms, w1) /\
    eligible_nms
    = eligible_turns (health_check_interval (router demo_world)) (env demo_world)
        (refresh_turns (health_check_interval (router demo_world)) (env demo_world)
           (nm_registry (router demo_world)) (pool_of (router demo_world) MEDICAL)
           (tick demo_world)) /\
    match eligible_nms with
    | [] => d = no_available_decision MEDICAL /\ w' = w1
    | _ =>
        total_available d = Some (length eligible_nms) /\
        error d = None /\
        routing_method d = method_of_priority "urgent" /\
        exists p, primary d = Some p /\ p ∈ eligible_nms
    end.
Proof.
  destruct (route_request (mkReq "req-002" MEDICAL "urgent" None true) demo_world)
    as [[d w']|e] eqn:Hrun.
  - exists d, w'. split; [reflexivity|].
    apply (route_request_pool_decision
             (mkReq "req-002" MEDICAL "urgent" None true) demo_world w' d).
    + vm_compute. reflexivity.
    + apply reachable_pool_NoDup. apply world_of_reachable.
    + exact Hrun.
  - vm_compute in Hrun. discriminate Hrun.
Defined.

(** ** Statistics *)

Lemma count_status_partition (reg : gmap string NarrowModel) (l : list string) :
  (forall x, x ∈ l -> is_Some (reg !! x)) ->
  length l
  = (count_status reg HEALTHY l + count_status reg DEGRADED l
     + count_status reg UNAVAILABLE l)%nat.
Proof.
  unfold count_status. induction l as [|x l IH]; intros Hreg; [reflexivity|].
  rewrite !filter_cons.
  destruct (Hreg x) as [nm Hnm]; [left|]. rewrite Hnm. simpl fmap.
  assert (forall y, y ∈ l -> is_Some (reg !! y)) as Hreg' by (intros y Hy; apply Hreg; right; exact Hy).
  specialize (IH Hreg').
  destruct (status nm);
    repeat (destruct (decide _) as [?|?]; try congruence); simpl length; lia.
Qed.

(** X15. [get_routing_stats] reads only.  In a state whose pools hold
    registered ids only, and whose count of healthy entries is a number a
    float can hold, it returns, leaves the world as it was, reports the
    size of the registry and one entry per domain in the order of the
    enumeration, and in each entry the total is the sum of the healthy,
    degraded and unavailable counts. *)
Theorem get_routing_stats_partition (w : World) :
  pools_registered (router w) ->
  Z.of_nat (healthy_count (router w)) < 2 ^ 1023 ->
  exists s,
    get_routing_stats w = Ok (s, w) /\
    total_nms s = size (nm_registry (router w)) /\
    map fst (domains s) = map Domain_value all_domains /\
    forall name ds,
      (name, ds) ∈ domains s ->
      ds_total ds = (ds_healthy ds + ds_degraded ds + ds_unavailable ds)%nat.
Proof.
  intros Hpools Hcount.
  assert (forall d,
            ds_total (domain_stats (router w) d)
            = (ds_healthy (domain_stats (router w) d)
               + ds_degraded (domain_stats (router w) d)
               + ds_unavailable (domain_stats (router w) d))%nat) as Hpart.
  { intros d. unfold domain_stats. simpl. apply count_status_partition.
    intros x Hx. destruct (domain_pools (router w) !! d) as [pool|] eqn:Hd; simpl in Hx.
    - eapply Hpools; eauto.
    - apply elem_of_nil in Hx. destruct Hx. }
  destruct (get_routing_stats w) as [[s w']|e w'] eqn:Hrun.
  - pose proof (get_routing_stats_reads w w' s Hrun) as ->.
    exists s. split; [reflexivity|].
    unfold get_routing_stats, bind, get_router, lift_result, ret in Hrun.
    assert (exists o, s = {| total_nms := size (nm_registry (router w));
                             domains := map (fun ds => (Domain_value (fst ds), snd ds))
                                          (map (fun d => (d, domain_stats (router w) d))
                                               all_domains);
                             overall_health := o |}) as [o ->].
    { destruct (decide _).
      - destruct (py_truediv _ _) as [q|e' []]; inversion Hrun. eauto.
      - inversion Hrun. eauto. }
    split; [reflexivity|]. split; [reflexivity|].
    intros name ds Hin. simpl in Hin.
    repeat (apply elem_of_cons in Hin; destruct Hin as [Heq|Hin];
            [inversion Heq; subst; apply Hpart|]).
    apply elem_of_nil in Hin. destruct Hin.
  - exfalso.
    unfold get_routing_stats, bind, get_router, lift_result, ret in Hrun.
    destruct (decide _) as [Hpos|Hzero]; [|discriminate Hrun].
    destruct (py_truediv_defined (Z.of_nat (healthy_count (router w)))
                (Z.of_nat (size (nm_registry (router w))))) as [q Hq]; [lia | lia |].
    destruct (py_truediv _ _) as [q'|e' []] eqn:Hq'; [discriminate Hrun|].
    discriminate Hq.
Qed.

Lemma get_routing_stats_partition_witness :
  exists s,
    get_routing_stats demo_world = Ok (s, demo_world) /\
    total_nms s = size (nm_registry (router demo_world)) /\
    map fst (domains s) = map Domain_value all_domains /\
    forall name ds,
      (name, ds) ∈ domains s ->
      ds_total ds = (ds_healthy ds + ds_degraded ds + ds_unavailable ds)%nat.
Proof.
  apply (get_routing_stats_partition demo_world).
  - apply reachable_invariants. apply world_of_reachable.
  - vm_compute. reflexivity.
Defined.

(** ** The controller's cleanup *)

Lemma complete_validators_spec (vs : list string) :
  NoDup vs ->
  forall w : World,
  exists w',
    complete_validators vs w = Ok (tt, w') /\
    forall id, load_of (router w') id
               = if bool_decide (id ∈ vs)
                 then (fun n => Z.max 0 (n - 1)) <$> load_of (router w) id
                 else load_of (router w) id.
Proof.
  induction 1 as [|v rest Hv Hnd IH]; intros w.
  - exists w. split; [reflexivity|]. intros id.
    rewrite bool_decide_eq_false_2 by apply not_elem_of_nil. reflexivity.
  - destruct (complete_request_spec v w) as (w1 & Hrun1 & _ & _ & _ & Hl1).
    destruct (IH w1) as (w' & Hrun & Hl).
    exists w'. split.
    + simpl. unfold bind. rewrite Hrun1. exact Hrun.
    + intros id. rewrite Hl, Hl1. destruct (decide (id = v)) as [->|Hne].
      * rewrite (bool_decide_eq_false_2 _ Hv).
        rewrite bool_decide_eq_true_2 by left. reflexivity.
      * destruct (decide (id ∈ rest)) as [Hin|Hnotin].
        -- rewrite (bool_decide_eq_true_2 _ Hin).
           rewrite bool_decide_eq_true_2 by (right; exact Hin). reflexivity.
        -- rewrite (bool_decide_eq_false_2 _ Hnotin).
           rewrite bool_decide_eq_false_2; [reflexivity|].
           intros Hc. apply elem_of_cons in Hc. destruct Hc; contradiction.
Qed.

(** X16. The cleanup of [process_user_query] undoes the load accounting of
    its routing.  When the steps between routing and cleanup leave the
    router alone, no load is negative and the empty id is not in the pool
    of the domain, a query that returns leaves every NM with the
    [current_load] it had: the request carries no preferred NM, so the
    primary and each validator were counted once and are released once. *)
Theorem process_user_query_releases
    (serve : RoutingRequest -> RoutingDecision -> M unit)
    (message_id : string) (domain_enum : Domain) (priority : string)
    (w w' : World) (d : RoutingDecision) :
  (forall req dec w0 w1, serve req dec w0 = Ok (tt, w1) -> router w1 = router w0) ->
  loads_nonneg (router w) ->
  "" ∉ pool_of (router w) domain_enum ->
  process_user_query serve message_id domain_enum priority w = Ok (d, w') ->
  forall id, load_of (router w') id = load_of (router w) id.
Proof.
  intros Hserve Hnn Hempty Hrun id. unfold process_user_query in Hrun.
  set (request := mkReq message_id domain_enum priority None true) in *.
  apply bind_Ok in Hrun. destruct Hrun as (d0 & w1 & Hroute & Hrun).
  assert (preferred_usable (router w) request = None) as Hpref by reflexivity.
  pose proof (wp_returned _ _ _ _ _ _ (route_request_wp request w) Hroute)
    as (_ & _ & _ & Hndv & _ & Hval & Hpost).
  rewrite Hpref in Hpost. destruct Hpost as [Hprim Hloads].
  destruct (truthy (primary d0)) eqn:Htr; simpl negb in Hrun; cbv iota in Hrun.
  - destruct (primary d0) as [p|] eqn:Hp; [|discriminate Htr].
    apply bind_Ok in Hrun. destruct Hrun as ([] & w2 & Hsv & Hrun).
    apply Hserve in Hsv.
    apply bind_Ok in Hrun. destruct Hrun as (k & w2' & Hkey & Hrun).
    unfold as_key, ret in Hkey. inversion Hkey; subst k w2'. clear Hkey.
    apply bind_Ok in Hrun. destruct Hrun as ([] & w3 & Hcp & Hrun).
    apply bind_Ok in Hrun. destruct Hrun as ([] & w4 & Hcv & Hrun).
    unfold ret in Hrun. inversion Hrun; subst d w4. clear Hrun.
    destruct (complete_request_spec p w2) as (w3' & Hcp' & _ & _ & _ & Hl3).
    rewrite Hcp in Hcp'. inversion Hcp'; subst w3'. clear Hcp'.
    destruct (complete_validators_spec (validation d0) Hndv w3) as (w4' & Hcv' & Hl4).
    rewrite Hcv in Hcv'. inversion Hcv'; subst w4'. clear Hcv'.
    assert (load_of (router w2) id = load_of (router w1) id) as Hl2.
    { unfold load_of. rewrite Hsv. reflexivity. }
    rewrite Hl4, Hl3, Hl2, Hloads.
    assert (p ∉ validation d0) as Hpv.
    { intros Hin. destruct (Hval p Hin) as [Hne _]. apply Hne. reflexivity. }
    unfold bumps. rewrite Hp, Htr.
    destruct (load_of (router w) id) as [n|] eqn:Hn.
    + assert (0 <= n) as Hpos.
      { apply (proj1 (loads_nonneg_load_of (router w)) Hnn id n Hn). }
      destruct (decide (id = p)) as [->|Hne].
      * rewrite (bool_decide_eq_false_2 _ Hpv).
        rewrite bool_decide_eq_true_2 by reflexivity. simpl. f_equal. lia.
      * rewrite (bool_decide_eq_false_2 (Some p = Some id)) by congruence.
        destruct (decide (id ∈ validation d0)) as [Hin|Hnotin].
        -- rewrite (bool_decide_eq_true_2 _ Hin). simpl. f_equal. lia.
        -- rewrite (bool_decide_eq_false_2 _ Hnotin). simpl. f_equal. lia.
    + destruct (decide (id = p)); destruct (bool_decide (id ∈ validation d0));
        reflexivity.
  - unfold ret in Hrun. inversion Hrun; subst d0 w1. clear Hrun.
    rewrite Hloads.
    destruct (route_request_pool_shape request w w' d Hpref Hroute)
      as (available_nms & w1 & Hhealthy & Hshape).
    destruct available_nms as [|a0 l0].
    + destruct Hshape as [-> _].
      assert (forall dom, bumps (no_available_decision dom) id = 0) as Hb.
      { intros dom. unfold bumps.
        cbn [no_available_decision primary validation truthy andb].
        rewrite bool_decide_eq_false_2 by apply not_elem_of_nil. reflexivity. }
      rewrite Hb. apply fmap_add_zero.
    + destruct Hshape as (_ & _ & _ & p & Hp & Hin). exfalso.
      destruct (Hprim p Hp) as [Hpool _].
      rewrite Hp in Htr. simpl in Htr.
      destruct (String.eqb_spec p ""); [subst p; exact (Hempty Hpool) | discriminate Htr].
Qed.

Lemma process_user_query_releases_witness :
  exists d w',
    process_user_query serve_reading "query-001" MEDICAL "high" demo_world
    = Ok (d, w') /\
    forall id, load_of (router w') id = load_of (router demo_world) id.
Proof.
  destruct (process_user_query serve_reading "query-001" MEDICAL "high" demo_world)
    as [[d w']|e] eqn:Hrun.
  - exists d, w'. split; [reflexivity|].
    apply (process_user_query_releases serve_reading "query-001" MEDICAL "high"
             demo_world w' d).
    + intros req dec w0 w1 H.
      unfold serve_reading, bind, time_time, random_random, ret in H.
      inversion H. reflexivity.
    + apply (bool_decide_unpack _). vm_compute. exact I.
    + apply (bool_decide_unpack _). vm_compute. exact I.
    + exact Hrun.
  - vm_compute in Hrun. discriminate Hrun.
Defined.

(** ** Primary selection by priority *)

(** X17. What the priority branch of [route_request] does with a non-empty
    candidate list and a non-negative cursor, when it returns.  Let [pos]
    be the position round robin reads and [moved] the state with the cursor
    of the domain moved on by one.  An urgent request gets what
    [calculate_weighted_selection] draws from the candidates, one read of
    the random source, and the cursor stays.  A high request first takes
    the round-robin candidate at [pos], then the weighted candidate that
    [calculate_weighted_selection] draws from all candidates, and gets what
    a second call of [calculate_weighted_selection] draws from the
    round-robin candidate and, if it is another one, the weighted
    candidate: two reads of the random source, the cursor moved on.  Any
    other priority gets the candidate at [pos] without reading the random
    source, the cursor moved on.  The tag is the one of the priority. *)
Theorem select_primary_outcome (request : RoutingRequest)
    (available_nms : list string) (w w' : World) (sel : option string * string) :
  available_nms <> [] ->
  0 <= cursor w (req_domain request) ->
  select_primary request available_nms w = Ok (sel, w') ->
  let n := Z.of_nat (length available_nms) in
  let pos := start_position w (req_domain request) n in
  let moved := with_cursor w (req_domain request) ((pos + 1) `mod` n) in
  snd sel = method_of_priority (priority request) /\
  if String.eqb (priority request) "urgent" then
    calculate_weighted_selection available_nms w = Ok (fst sel, next_tick w) /\
    w' = next_tick w
  else if String.eqb (priority request) "high" then
    exists rr_candidate weighted_candidate,
      available_nms !! Z.to_nat pos = Some rr_candidate /\
      calculate_weighted_selection available_nms moved
      = Ok (Some weighted_candidate, next_tick moved) /\
      calculate_weighted_selection
        (if decide (weighted_candidate <> rr_candidate)
         then [rr_candidate; weighted_candidate] else [rr_candidate])
        (next_tick moved)
      = Ok (fst sel, next_tick (next_tick moved)) /\
      (fst sel = Some rr_candidate \/ fst sel = Some weighted_candidate) /\
      w' = next_tick (next_tick moved)
  else
    fst sel = available_nms !! Z.to_nat pos /\ w' = moved.
Proof.
  intros Hne Hc Hrun. cbv zeta.
  split; [eapply select_primary_tag; exact Hrun|].
  destruct (round_robin_selection_step available_nms (req_domain request) w Hne Hc)
    as (x & Hx & Hrr).
  cbv zeta in Hx, Hrr.
  fold (start_position w (req_domain request) (Z.of_nat (length available_nms)))
    in Hx, Hrr.
  set (pos := start_position w (req_domain request) (Z.of_nat (length available_nms)))
    in *.
  set (moved := with_cursor w (req_domain request)
                  ((pos + 1) `mod` Z.of_nat (length available_nms))) in *.
  unfold select_primary in Hrun.
  destruct (String.eqb (priority request) "urgent").
  - apply bind_Ok in Hrun. destruct Hrun as (o & w1 & Hcws & Hrun).
    unfold ret in Hrun. inversion Hrun; subst sel w1. clear Hrun.
    pose proof (calculate_weighted_selection_returns _ _ _ _ Hcws) as Hret.
    assert (w' = next_tick w) as ->
      by (destruct available_nms; [contradiction | apply Hret]).
    split; [exact Hcws | reflexivity].
  - destruct (String.eqb (priority request) "high").
    + apply bind_Ok in Hrun. destruct Hrun as (rr & w1 & Hrr' & Hrun).
      rewrite Hrr in Hrr'. inversion Hrr'; subst rr w1. clear Hrr'.
      apply bind_Ok in Hrun. destruct Hrun as (wc & w2 & Hcws & Hrun).
      pose proof (calculate_weighted_selection_returns _ _ _ _ Hcws) as Hret.
      assert (w2 = next_tick moved /\ exists y, wc = Some y /\ y ∈ available_nms)
        as (-> & y & -> & Hy).
      { destruct available_nms; [contradiction | exact Hret]. }
      clear Hret.
      apply bind_Ok in Hrun. destruct Hrun as (rk & w3 & Hkey & Hrun).
      unfold as_key, ret in Hkey. inversion Hkey; subst rk w3. clear Hkey.
      apply bind_Ok in Hrun. destruct Hrun as (top & w4 & Htop & Hrun).
      apply bind_Ok in Hrun. destruct Hrun as (prim & w5 & Hcws2 & Hrun).
      unfold ret in Hrun. inversion Hrun; subst sel w5. clear Hrun.
      exists x, y. split; [exact Hx|]. split; [exact Hcws|].
      pose proof (calculate_weighted_selection_returns _ _ _ _ Hcws2) as Hret.
      cbn [fst].
      destruct (decide (Some y <> Some x)) as [Hd|Hd].
      * apply bind_Ok in Htop. destruct Htop as (wk & w4' & Hkey & Htop).
        unfold as_key, ret in Hkey, Htop. inversion Hkey; subst wk w4'. clear Hkey.
        inversion Htop; subst top w4. clear Htop.
        destruct Hret as (-> & z & -> & Hz).
        rewrite decide_True by congruence.
        split; [exact Hcws2|]. split; [|reflexivity].
        apply elem_of_cons in Hz. destruct Hz as [->|Hz]; [left; reflexivity|].
        apply list_elem_of_singleton in Hz. subst z. right. reflexivity.
      * unfold ret in Htop. inversion Htop; subst top w4. clear Htop.
        destruct Hret as (-> & z & -> & Hz).
        rewrite decide_False by (intros Hyx; apply Hd; congruence).
        split; [exact Hcws2|]. split; [|reflexivity].
        apply list_elem_of_singleton in Hz. subst z. left. reflexivity.
    + apply bind_Ok in Hrun. destruct Hrun as (rr & w1 & Hrr' & Hrun).
      rewrite Hrr in Hrr'. inversion Hrr'; subst rr w1. clear Hrr'.
      unfold ret in Hrun. inversion Hrun; subst sel w'. clear Hrun.
      split; [symmetry; exact Hx | reflexivity].
Qed.

Lemma select_primary_outcome_witness :
  exists sel w',
    select_primary (mkReq "req-004" MEDICAL "high" None true)
      ["med-general-01"; "med-general-02"; "med-general-03"] demo_world
    = Ok (sel, w') /\
    let nm_ids := ["med-general-01"; "med-general-02"; "med-general-03"] in
    let pos := start_position demo_world MEDICAL 3 in
    let moved := with_cursor demo_world MEDICAL ((pos + 1) `mod` 3) in
    snd sel = "hybrid_high" /\
    exists rr_candidate weighted_candidate,
      nm_ids !! Z.to_nat pos = Some rr_candidate /\
      calculate_weighted_selection nm_ids moved
      = Ok (Some weighted_candidate, next_tick moved) /\
      calculate_weighted_selection
        (if decide (weighted_candidate <> rr_candidate)
         then [rr_candidate; weighted_candidate] else [rr_candidate])
        (next_tick moved)
      = Ok (fst sel, next_tick (next_tick moved)) /\
      (fst sel = Some rr_candidate \/ fst sel = Some weighted_candidate) /\
      w' = next_tick (next_tick moved).
Proof.
  destruct (select_primary (mkReq "req-004" MEDICAL "high" None true)
              ["med-general-01"; "med-general-02"; "med-general-03"] demo_world)
    as [[sel w']|e] eqn:Hrun.
  - exists sel, w'. split; [reflexivity|].
    apply (select_primary_outcome (mkReq "req-004" MEDICAL "high" None true)
             ["med-general-01"; "med-general-02"; "med-general-03"]
             demo_world w' sel).
    + discriminate.
    + vm_compute. discriminate.
    + exact Hrun.
  - vm_compute in Hrun. discriminate Hrun.
Defined.

(** ** Locality of routing *)

Lemma kept_outside_pool_refl (d : Domain) (w : World) : kept_outside_pool d w w.
Proof. split; reflexivity. Qed.

Lemma kept_outside_pool_trans (d : Domain) (w1 w2 w3 : World) :
  kept_outside_pool d w1 w2 -> kept_outside_pool d w2 w3 -> kept_outside_pool d w1 w3.
Proof.
  intros [P12 K12] [P23 K23]. split; [congruence|].
  intros x Hx. rewrite K23 by (rewrite P12; exact Hx). apply K12. exact Hx.
Qed.

Lemma kept_outside_pool_router (d : Domain) (w w' : World) :
  domain_pools (router w') = domain_pools (router w) ->
  nm_registry (router w') = nm_registry (router w) ->
  kept_outside_pool d w w'.
Proof. intros Hp Hr. split; [unfold pool_of; rewrite Hp | rewrite Hr]; reflexivity. Qed.

Lemma healthy_loop_frame (pool : list string) :
  forall (acc : list string) (w : World),
  forall x, x ∉ pool ->
    nm_registry (router (final_world (healthy_loop pool acc w))) !! x
    = nm_registry (router w) !! x.
Proof.
  induction pool as [|nm_id rest IH]; intros acc w x Hx; [reflexivity|].
  apply not_elem_of_cons in Hx. destruct Hx as [Hne Hx].
  simpl healthy_loop. unfold bind at 1, get_router.
  destruct (nm_registry (router w) !! nm_id) as [nm|] eqn:Hnm; [|apply IH; exact Hx].
  unfold bind at 1, time_time.
  set (w1 := mkWorld (router w) (env w) (S (tick w))).
  destruct (health_refresh_step nm_id nm w1 (time_at (env w) (tick w)) Hnm)
    as (b & w2 & nm' & Hcheck & _ & _ & Hnm' & Hother).
  unfold bind at 1.
  change (health_check_interval (router w1)) with (health_check_interval (router w))
    in Hcheck.
  rewrite Hcheck. unfold bind at 1, registry_get. rewrite Hnm'.
  destruct (routable (status nm')); rewrite IH by exact Hx; apply Hother; exact Hne.
Qed.

Lemma get_healthy_nms_in_domain_frame (d : Domain) (w : World) :
  kept_outside_pool d w (final_world (get_healthy_nms_in_domain d w)).
Proof.
  split.
  - destruct (get_healthy_nms_in_domain_spec d w) as (l & w1 & Hrun & _ & Href & _).
    rewrite Hrun. simpl. unfold pool_of.
    rewrite (same_static_pools _ _ (refreshed_same_static _ _ Href)). reflexivity.
  - intros x Hx. rewrite get_healthy_nms_in_domain_pool.
    apply healthy_loop_frame. exact Hx.
Qed.

Lemma select_validation_nms_frame (request : RoutingRequest)
    (exclude : list (option string)) (max_validators : nat) (w : World) :
  kept_outside_pool (req_domain request) w
    (final_world (_select_validation_nms request exclude max_validators w)).
Proof.
  unfold _select_validation_nms.
  apply (final_bind (kept_outside_pool (req_domain request)));
    [apply kept_outside_pool_trans | apply get_healthy_nms_in_domain_frame |].
  intros available_nms w1 _.
  destruct (filter _ available_nms) as [|c0 cs]; [apply kept_outside_pool_refl|].
  pose proof (validation_loop_spec max_validators max_validators (c0 :: cs) [] w1) as Hloop.
  destruct (validation_loop max_validators max_validators (c0 :: cs) [] w1)
    as [[vs w2]|e w2]; simpl.
  - destruct Hloop as (Hr & _); [simpl; lia | constructor |].
    apply kept_outside_pool_router; rewrite Hr; reflexivity.
  - destruct Hloop as (_ & _ & Hr & _); [simpl; lia | constructor |].
    apply kept_outside_pool_router; rewrite Hr; reflexivity.
Qed.

Lemma increment_validators_frame (vs : list string) :
  forall w : World,
  domain_pools (router (final_world (increment_validators vs w)))
  = domain_pools (router w) /\
  forall x, x ∉ vs ->
    nm_registry (router (final_world (increment_validators vs w))) !! x
    = nm_registry (router w) !! x.
Proof.
  induction vs as [|v rest IH]; intros w; [split; reflexivity|].
  simpl increment_validators. unfold bind at 1 3, get_router.
  destruct (nm_registry (router w) !! v) as [nm|] eqn:Hnm.
  - unfold bind, increment_load. rewrite (registry_update_run v _ nm w Hnm).
    set (w1 := mkWorld _ _ _). destruct (IH w1) as [Hp Hk]. split.
    + rewrite Hp. reflexivity.
    + intros x Hx. apply not_elem_of_cons in Hx. destruct Hx as [Hne Hx].
      rewrite (Hk x Hx). unfold w1. simpl. apply lookup_insert_ne. congruence.
  - unfold bind, ret. destruct (IH w) as [Hp Hk]. split; [exact Hp|].
    intros x Hx. apply not_elem_of_cons in Hx. destruct Hx as [_ Hx]. apply Hk. exact Hx.
Qed.

(** [route_request] keeps the pool of the request's domain and every record
    stored outside it, whether it returns or raises. *)
Lemma route_request_outside_pool (request : RoutingRequest) (w : World) :
  kept_outside_pool (req_domain request) w (final_world (route_request request w)).
Proof.
  set (d := req_domain request).
  assert (forall A (a : A) w0, kept_outside_pool d w0 (final_world (ret a w0))) as Hret.
  { intros A a w0. apply kept_outside_pool_refl. }
  unfold route_request, bind at 1, get_router.
  destruct (preferred_usable (router w) request) as [p|].
  - destruct (require_validation request); [|apply Hret].
    apply final_bind; [apply kept_outside_pool_trans | |intros; apply Hret].
    apply select_validation_nms_frame.
  - apply final_bind;
      [apply kept_outside_pool_trans | apply get_healthy_nms_in_domain_frame |].
    intros available_nms w1 Hhealthy.
    destruct available_nms as [|a0 l0]; [apply Hret|].
    destruct (get_healthy_nms_in_domain_spec d w) as (l & w1' & Hrun1 & _ & Href & Hl).
    fold d in Hhealthy. rewrite Hhealthy in Hrun1. inversion Hrun1; subst l w1'.
    clear Hrun1.
    assert (pool_of (router w1) d = pool_of (router w) d) as Hpool1.
    { unfold pool_of.
      rewrite (same_static_pools _ _ (refreshed_same_static _ _ Href)). reflexivity. }
    pose proof (select_primary_wp request (a0 :: l0) w1) as Hsel.
    unfold wp in Hsel.
    apply final_bind; [apply kept_outside_pool_trans | |].
    + destruct (select_primary request (a0 :: l0) w1) as [[sel w2]|e w2]; simpl.
      * destruct Hsel as (_ & ix & _ & _ & _ & Hr & _); [discriminate | |].
        { intros x Hx. apply (refreshed_is_Some _ _ x Href). apply Hl. exact Hx. }
        apply kept_outside_pool_router; rewrite Hr; reflexivity.
      * destruct Hsel as (_ & _ & _ & ix & Hr & _); [discriminate | |].
        { intros x Hx. apply (refreshed_is_Some _ _ x Href). apply Hl. exact Hx. }
        apply kept_outside_pool_router; rewrite Hr; reflexivity.
    + intros sel w2 Hrun2. rewrite Hrun2 in Hsel.
      destruct Hsel as (p & ix & Hp & Hin & _ & Hr2 & _); [discriminate | |].
      { intros x Hx. apply (refreshed_is_Some _ _ x Href). apply Hl. exact Hx. }
      assert (p ∈ pool_of (router w2) d) as Hp2.
      { unfold pool_of. rewrite Hr2. simpl. fold (pool_of (router w1) d).
        rewrite Hpool1. apply Hl. exact Hin. }
      apply final_bind; [apply kept_outside_pool_trans | |].
      * destruct (require_validation request); [|apply Hret].
        apply select_validation_nms_frame.
      * intros vs w3 Hrun3.
        assert (pool_of (router w3) d = pool_of (router w2) d /\
                forall v, v ∈ vs -> v ∈ pool_of (router w2) d) as [Hpool3 Hvs].
        { destruct (require_validation request).
          - pose proof (select_validation_nms_wp request [fst sel] 2 w2) as Hv.
            unfold wp in Hv. rewrite Hrun3 in Hv.
            destruct Hv as (_ & Href3 & _ & _ & Hv). split.
            + unfold pool_of.
              rewrite (same_static_pools _ _ (refreshed_same_static _ _ Href3)).
              reflexivity.
            + intros v Hin'. apply Hv. exact Hin'.
          - unfold ret in Hrun3. inversion Hrun3; subst. split; [reflexivity|].
            intros v Hin'. apply elem_of_nil in Hin'. destruct Hin'. }
        apply final_bind; [apply kept_outside_pool_trans | |].
        -- rewrite Hp. destruct (truthy (Some p)); [|apply Hret].
           unfold bind at 1, as_key, ret.
           destruct (nm_registry (router w3) !! p) as [nm|] eqn:Hnm.
           ++ unfold increment_load. rewrite (registry_update_run p _ nm w3 Hnm). simpl.
              split; [reflexivity|]. intros x Hx. simpl.
              apply lookup_insert_ne. intros ->. apply Hx. rewrite Hpool3. exact Hp2.
           ++ unfold increment_load, registry_update, bind, registry_get.
              rewrite Hnm. apply kept_outside_pool_refl.
        -- intros [] w4 Hrun4.
           assert (pool_of (router w4) d = pool_of (router w3) d) as Hpool4.
           { rewrite Hp in Hrun4. destruct (truthy (Some p)).
             - unfold bind at 1, as_key, ret in Hrun4.
               destruct (nm_registry (router w3) !! p) as [nm|] eqn:Hnm.
               + unfold increment_load in Hrun4.
                 rewrite (registry_update_run p _ nm w3 Hnm) in Hrun4.
                 inversion Hrun4; subst w4. reflexivity.
               + unfold increment_load, registry_update, bind, registry_get in Hrun4.
                 rewrite Hnm in Hrun4. discriminate Hrun4.
             - unfold ret in Hrun4. inversion Hrun4; subst w4. reflexivity. }
           apply final_bind; [apply kept_outside_pool_trans | |intros; apply Hret].
           destruct (increment_validators_frame vs w4) as [Hp5 Hk5]. split.
           ++ unfold pool_of. rewrite Hp5. reflexivity.
           ++ intros x Hx. apply Hk5. intros Hin'. apply Hx.
              rewrite Hpool4, Hpool3. apply Hvs. exact Hin'.
Qed.

(** X18. Routing is local to the pool of the request's domain: whether
    [route_request] returns or raises, every NM stored under an id outside
    that pool has the very record it had, and the pool itself is as it
    was.  On the preferred path the call changes health fields at most: no
    load moves, while the search for validators may check the health of the
    NMs of the pool again, the preferred one among them if it is listed
    there. *)
Theorem route_request_local (request : RoutingRequest) (w : World) :
  kept_outside_pool (req_domain request) w (final_world (route_request request w)) /\
  (forall p, preferred_usable (router w) request = Some p ->
             refreshed (router w) (router (final_world (route_request request w)))).
Proof.
  split; [apply route_request_outside_pool|].
  intros p Hpref. unfold route_request, bind at 1, get_router. rewrite Hpref.
  destruct (require_validation request); [|apply refreshed_refl].
  pose proof (select_validation_nms_wp request [Some p] 2 w) as Hsel.
  unfold wp in Hsel. unfold bind.
  destruct (_select_validation_nms request [Some p] 2 w) as [[vs w1]|e w1]; simpl.
  - apply Hsel.
  - apply Hsel.
Qed.

(** ** The status report of the controller *)

(** X19. The ["total_transactions"] entry that [get_system_status] computes
    from the routing statistics is the number of entries of the pools: it
    counts registrations, whatever number of requests was routed. *)
Theorem total_transactions_counts_pools (w w' : World) (s : RoutingStats) :
  get_routing_stats w = Ok (s, w') ->
  total_transactions s = length (pooled_ids (router w)).
Proof.
  intros Hrun.
  unfold get_routing_stats, bind, get_router, lift_result, ret in Hrun.
  assert (domains s = map (fun ds => (Domain_value (fst ds), snd ds))
                        (map (fun d => (d, domain_stats (router w) d)) all_domains))
    as Hdom.
  { destruct (decide _).
    - destruct (py_truediv _ _) as [q|e' []]; inversion Hrun. reflexivity.
    - inversion Hrun. reflexivity. }
  unfold total_transactions, pooled_ids. rewrite Hdom.
  cbn [all_domains map fold_left concat snd fst domain_stats ds_total].
  rewrite !length_app. unfold pool_of. simpl length. lia.
Qed.

Lemma total_transactions_counts_pools_witness :
  exists s w',
    get_routing_stats demo_world = Ok (s, w') /\
    total_transactions s = length (pooled_ids (router demo_world)).
Proof.
  destruct (get_routing_stats demo_world) as [[s w']|e] eqn:Hrun.
  - exists s, w'. split; [reflexivity|].
    apply (total_transactions_counts_pools demo_world w' s Hrun).
  - vm_compute in Hrun. discriminate Hrun.
Defined.
